(** * Portfolio aggregation backend: aggregators, rate solver and analysis

    A shallow embedding of
      - [src/services/aggregationService.js]: [toNumber],
        [calculateBankHoldings], [calculatePPFHoldings],
        [calculateEPFHoldings], [calculateNPSHoldings];
      - the analysis service: [normalizeType], [calculateXirr], and
        [getAnalysisDashboard], [getAnalysisSummary] and
        [getAnalysisFreeStocks] as functions of the rows their queries
        fetch.

    Conventions of the embedding.

    - In the aggregators and in the analysis functions a JavaScript number
      is a value of [number]: a rational, or one of the three non-finite
      values NaN, +Infinity and -Infinity.  Arithmetic on the finite values
      is exact (no rounding, no overflow, one zero) and keeps fractions in
      lowest terms; the special values follow the IEEE rules the code can
      observe ([Number.isFinite], comparisons with NaN are false,
      Infinity - Infinity is NaN, ...).  What is proved of sums and
      balances is proved of the algorithm on exact numbers.
    - The rate solver is numerical code and is modelled on the binary64
      values themselves (primitive floats): its results are the doubles
      the engine returns.  [Math.pow] is a parameter.
    - A row field that holds text is [option string] ([None] for null and
      undefined); a numeric field is a [JsValue]; a date field is a
      [DateField], the outcome of handing the field to [new Date].  Dates
      are read in UTC.
    - [Map] and plain objects used as maps are association lists in the
      order of iteration of the language.
    - [Array.prototype.sort] is the stable sort the language prescribes
      for a consistent comparator.
    - A function that can throw returns [option], [None] for the exception.
      A [while] loop runs on fuel and returns [None] when the fuel is
      exhausted; the fuel given is proved sufficient.
    - Text is ASCII: [toLowerCase] and [trim] act on ASCII letters and
      white space. *)

From Stdlib Require Import ZArith QArith Qabs Qminmax Lqa Lia.
From Stdlib Require Import Floats Uint63.
From Stdlib Require Import List Sorted Bool Ascii String.
Import ListNotations.

Local Open Scope Q_scope.

(* ================================================================== *)
(** * Numbers *)
(* ================================================================== *)

Inductive number : Type :=
| NaN
| PosInf
| NegInf
| Fin (q : Q).

Declare Scope js_scope.
Delimit Scope js_scope with js.
Bind Scope js_scope with number.

Module Num.

(** [Number.isFinite] *)
Definition isFinite (n : number) : bool :=
  match n with Fin _ => true | _ => false end.

(** [Number.isNaN] *)
Definition isNaN (n : number) : bool :=
  match n with NaN => true | _ => false end.

Definition Qlt_bool (a b : Q) : bool := negb (Qle_bool b a).

Definition neg (n : number) : number :=
  match n with
  | NaN => NaN
  | PosInf => NegInf
  | NegInf => PosInf
  | Fin q => Fin (- q)
  end.

Definition add (a b : number) : number :=
  match a, b with
  | NaN, _ | _, NaN => NaN
  | PosInf, NegInf | NegInf, PosInf => NaN
  | PosInf, _ | _, PosInf => PosInf
  | NegInf, _ | _, NegInf => NegInf
  | Fin x, Fin y => Fin (Qred (x + y))
  end.

Definition sub (a b : number) : number := add a (neg b).

(** Sign of a value that is not NaN: [Lt] negative, [Eq] zero. *)
Definition sign (n : number) : comparison :=
  match n with
  | NaN => Eq
  | PosInf => Gt
  | NegInf => Lt
  | Fin q => q ?= 0
  end.

Definition signed_inf (s1 s2 : comparison) : number :=
  match s1, s2 with
  | Eq, _ | _, Eq => NaN
  | Lt, Lt | Gt, Gt => PosInf
  | _, _ => NegInf
  end.

Definition mul (a b : number) : number :=
  match a, b with
  | NaN, _ | _, NaN => NaN
  | Fin x, Fin y => Fin (Qred (x * y))
  | _, _ => signed_inf (sign a) (sign b)
  end.

(** Division; the single zero of the model divides like +0. *)
Definition div (a b : number) : number :=
  match a, b with
  | NaN, _ | _, NaN => NaN
  | Fin x, Fin y =>
      if Qeq_bool y 0 then signed_inf (x ?= 0) Gt else Fin (Qred (x / y))
  | Fin _, _ => Fin 0
  | _, Fin y => signed_inf (sign a) (if Qeq_bool y 0 then Gt else y ?= 0)
  | _, _ => NaN
  end.

(** [a < b] *)
Definition lt (a b : number) : bool :=
  match a, b with
  | NaN, _ | _, NaN => false
  | Fin x, Fin y => Qlt_bool x y
  | NegInf, NegInf => false
  | NegInf, _ => true
  | _, PosInf => negb (match a with PosInf => true | _ => false end)
  | _, _ => false
  end.

(** [a <= b] *)
Definition le (a b : number) : bool :=
  match a, b with
  | NaN, _ | _, NaN => false
  | Fin x, Fin y => Qle_bool x y
  | NegInf, _ => true
  | _, PosInf => true
  | _, _ => false
  end.

(** [a > b] *)
Definition gt (a b : number) : bool := lt b a.

(** [a === b] on numbers *)
Definition eqb (a b : number) : bool :=
  match a, b with
  | Fin x, Fin y => Qeq_bool x y
  | PosInf, PosInf | NegInf, NegInf => true
  | _, _ => false
  end.

(** [Math.abs] *)
Definition abs (n : number) : number :=
  match n with
  | NaN => NaN
  | PosInf | NegInf => PosInf
  | Fin q => Fin (Qabs q)
  end.

(** [Math.min] of two arguments *)
Definition min (a b : number) : number :=
  match a, b with
  | NaN, _ | _, NaN => NaN
  | _, _ => if le a b then a else b
  end.

(** [Math.max] of two arguments *)
Definition max (a b : number) : number :=
  match a, b with
  | NaN, _ | _, NaN => NaN
  | _, _ => if le a b then b else a
  end.

Definition of_Z (z : Z) : number := Fin (inject_Z z).

(** [n < 0] *)
Definition negative (n : number) : bool := lt n (Fin 0).

(** The rational a finite number stands for. *)
Definition val (n : number) : Q :=
  match n with
  | Fin q => q
  | _ => 0
  end.

(** Equality of values, up to the representation of the rational. *)
Definition equiv (a b : number) : Prop :=
  match a, b with
  | NaN, NaN | PosInf, PosInf | NegInf, NegInf => True
  | Fin x, Fin y => x == y
  | _, _ => False
  end.

End Num.

Notation "a + b" := (Num.add a b) : js_scope.
Notation "a - b" := (Num.sub a b) : js_scope.
Notation "a * b" := (Num.mul a b) : js_scope.
Notation "a / b" := (Num.div a b) : js_scope.
Notation "a <? b" := (Num.lt a b) (at level 70) : js_scope.
Notation "a <=? b" := (Num.le a b) (at level 70) : js_scope.
Notation "a >? b" := (Num.gt a b) (at level 70) : js_scope.
Notation "a =? b" := (Num.eqb a b) (at level 70) : js_scope.

(** The literal [1e-8] of the source. *)
Definition eps : Q := 1 # 100000000.
Definition EPS : number := Fin eps.

(* ================================================================== *)
(** * Strings *)
(* ================================================================== *)

Module Str.

Definition is_upper (c : ascii) : bool :=
  ((65 <=? nat_of_ascii c) && (nat_of_ascii c <=? 90))%nat.

Definition lower_char (c : ascii) : ascii :=
  if is_upper c then ascii_of_nat (nat_of_ascii c + 32) else c.

(** [s.toLowerCase()], on the ASCII letters *)
Fixpoint toLowerCase (s : string) : string :=
  match s with
  | EmptyString => EmptyString
  | String c s' => String (lower_char c) (toLowerCase s')
  end.

(** White space: TAB, LF, VT, FF, CR and SPACE. *)
Definition is_space (c : ascii) : bool :=
  let n := nat_of_ascii c in
  ((n =? 32) || ((9 <=? n) && (n <=? 13)))%nat.

Fixpoint trimStart (s : string) : string :=
  match s with
  | String c s' => if is_space c then trimStart s' else s
  | EmptyString => EmptyString
  end.

(** Drops trailing white space: the result is empty exactly when all of
    [s] is white space. *)
Fixpoint trimEnd (s : string) : string :=
  match s with
  | EmptyString => EmptyString
  | String c s' =>
      match trimEnd s' with
      | EmptyString => if is_space c then EmptyString else String c EmptyString
      | t => String c t
      end
  end.

(** [s.trim()] *)
Definition trim (s : string) : string := trimEnd (trimStart s).

(** [s.includes(kw)] *)
Fixpoint includes (s kw : string) : bool :=
  if prefix kw s then true
  else match s with
       | EmptyString => false
       | String _ s' => includes s' kw
       end.

Definition is_empty (s : string) : bool :=
  match s with EmptyString => true | _ => false end.

Definition is_digit (c : ascii) : bool :=
  ((48 <=? nat_of_ascii c) && (nat_of_ascii c <=? 57))%nat.

(** The characters kept by [replace(/[^0-9.-]/g, '')]. *)
Definition is_numeric_char (c : ascii) : bool :=
  is_digit c || Ascii.eqb c "."%char || Ascii.eqb c "-"%char.

Fixpoint filter_chars (p : ascii -> bool) (s : string) : string :=
  match s with
  | EmptyString => EmptyString
  | String c s' =>
      if p c then String c (filter_chars p s') else filter_chars p s'
  end.

(** [s.replace(/[^0-9.-]/g, '')] *)
Definition strip_non_numeric (s : string) : string :=
  filter_chars is_numeric_char s.

(** Drops [n] characters. *)
Fixpoint skip (n : nat) (s : string) : string :=
  match n, s with
  | O, _ => s
  | S n', String _ s' => skip n' s'
  | S _, EmptyString => EmptyString
  end.

(** [s.split(sep)] for a separator of at least one character: the pieces
    between the occurrences of [sep], scanned from the left.  [cur] holds
    the piece being read; a round reads one character or one separator, so
    the length of [s] plus one is fuel enough. *)
Fixpoint split_aux (fuel : nat) (sep : string) (cur : string) (s : string)
  : list string :=
  match fuel with
  | O => [cur]
  | S fuel' =>
      match s with
      | EmptyString => [cur]
      | String c s' =>
          if prefix sep s
          then cur :: split_aux fuel' sep EmptyString
                        (skip (String.length sep) s)
          else split_aux fuel' sep (cur ++ String c EmptyString) s'
      end
  end.

Definition split (sep s : string) : list string :=
  split_aux (S (String.length s)) sep EmptyString s.

End Str.

(* ================================================================== *)
(** * Values of row fields *)
(* ================================================================== *)

(** A value that is neither a number nor null nor undefined: a boolean, a
    text, or any other object (a nested JSON object or array), for which
    [str] is the text that [String(value)] yields, for instance
    ["[object Object]"]. *)
Inductive JsOther : Type :=
| OBool (b : bool)
| OStr (s : string)
| OObj (str : string).

(** What a field of a row can hold. *)
Inductive JsValue : Type :=
| JUndefined
| JNull
| JNum (n : number)
| JOther (o : JsOther).

Definition JBool (b : bool) : JsValue := JOther (OBool b).
Definition JStr (s : string) : JsValue := JOther (OStr s).
Definition JObj (str : string) : JsValue := JOther (OObj str).

(** The built-in [parseFloat]: skips leading white space, reads the longest
    prefix that is a decimal literal (sign, [Infinity], digits, fraction,
    exponent) and yields its value; NaN when there is no such prefix. *)
Module ParseFloat.

Definition digit_val (c : ascii) : Z := Z.of_nat (nat_of_ascii c - 48).

(** Reads a run of digits: the value accumulated on [acc], the number of
    digits read, and the rest of the text. *)
Fixpoint digits (s : string) (acc : Z) (n : nat) : Z * nat * string :=
  match s with
  | String c s' =>
      if Str.is_digit c then digits s' (10 * acc + digit_val c)%Z (S n)
      else (acc, n, s)
  | EmptyString => (acc, n, s)
  end.

(** The exponent part, 0 when there is none. *)
Definition exponent (s : string) : Z :=
  match s with
  | String c s' =>
      if Ascii.eqb c "e"%char || Ascii.eqb c "E"%char then
        let '(negative, body) :=
          match s' with
          | String "+"%char t => (false, t)
          | String "-"%char t => (true, t)
          | _ => (false, s')
          end in
        let '(v, n, _) := digits body 0%Z 0%nat in
        if (n =? 0)%nat then 0%Z else if negative then (- v)%Z else v
      else 0%Z
  | EmptyString => 0%Z
  end.

Definition unsigned (s : string) : number :=
  if prefix "Infinity" s then PosInf
  else
    let '(i, ni, r1) := digits s 0%Z 0%nat in
    let '(m, nf, r2) :=
      match r1 with
      | String "."%char t => digits t i 0%nat
      | _ => (i, 0%nat, r1)
      end in
    if (ni + nf =? 0)%nat then NaN
    else Fin (Qred (inject_Z m * Qpower 10 (exponent r2 - Z.of_nat nf))).

Definition parseFloat (s : string) : number :=
  match Str.trimStart s with
  | String "-"%char t => Num.neg (unsigned t)
  | String "+"%char t => unsigned t
  | t => unsigned t
  end.

End ParseFloat.

Definition parseFloat := ParseFloat.parseFloat.

(** [String(value)] *)
Definition js_String (value : JsOther) : string :=
  match value with
  | OBool true => "true"
  | OBool false => "false"
  | OStr s => s
  | OObj str => str
  end.

(** [toNumber] (aggregationService.js, lines 6-11; the analysis service has
    the same function). *)
Definition toNumber (value : JsValue) : number :=
  match value with
  | JNum n => if Num.isFinite n then n else Fin 0
  | JUndefined | JNull => Fin 0
  | JOther o =>
      let parsed := parseFloat (Str.strip_non_numeric (js_String o)) in
      if Num.isFinite parsed then parsed else Fin 0
  end.

(* ================================================================== *)
(** * Dates *)
(* ================================================================== *)

(** A date field of a row, by what [new Date(field)] makes of it. *)
Inductive DateField : Type :=
| DfNull                 (* null *)
| DfUndefined            (* undefined: the row has no such field *)
| DfEmpty                (* the empty string *)
| DfInvalid              (* a non-empty text that is not a date *)
| DfTime (t : Z).        (* a date; [t] is its time value in milliseconds *)

Module JsDate.

(** Truthiness of the field, as in [txn.txn_date || ...]. *)
Definition truthy (d : DateField) : bool :=
  match d with
  | DfInvalid | DfTime _ => true
  | _ => false
  end.

(** [new Date(field).getTime()]; NaN for an Invalid Date.
    [new Date(null)] is the epoch. *)
Definition time (d : DateField) : number :=
  match d with
  | DfNull => Fin 0
  | DfTime t => Num.of_Z t
  | _ => NaN
  end.

Definition MS_PER_DAY : Z := 86400000.

(** Day number (days since the epoch) to civil year and month (1..12) of
    the proleptic Gregorian calendar. *)
Definition civil_from_days (days : Z) : Z * Z :=
  let z := (days + 719468)%Z in
  let era := (z / 146097)%Z in
  let doe := (z - era * 146097)%Z in
  let yoe := ((doe - doe / 1460 + doe / 36524 - doe / 146096) / 365)%Z in
  let doy := (doe - (365 * yoe + yoe / 4 - yoe / 100))%Z in
  let mp := ((5 * doy + 2) / 153)%Z in
  let m := (if mp <? 10 then mp + 3 else mp - 9)%Z in
  let y := (yoe + era * 400 + (if m <=? 2 then 1 else 0))%Z in
  (y, m).

(** [getFullYear()] and [getMonth()] (0..11) of the date with time value
    [t]; the process runs in UTC. *)
Definition getFullYear (t : Z) : Z := fst (civil_from_days (t / MS_PER_DAY)).
Definition getMonth (t : Z) : Z := (snd (civil_from_days (t / MS_PER_DAY)) - 1)%Z.

(** Time value of midnight UTC of a civil date ([m] in 1..12). *)
Definition UTC (y m d : Z) : Z :=
  let y' := (if m <=? 2 then y - 1 else y)%Z in
  let era := (y' / 400)%Z in
  let yoe := (y' - era * 400)%Z in
  let mp := (if m >? 2 then m - 3 else m + 9)%Z in
  let doy := ((153 * mp + 2) / 5 + d - 1)%Z in
  let doe := (yoe * 365 + yoe / 4 - yoe / 100 + doy)%Z in
  ((era * 146097 + doe - 719468) * MS_PER_DAY)%Z.

End JsDate.

(* ================================================================== *)
(** * Arrays: the stable sort with a comparator *)
(* ================================================================== *)

Section Sort.

Context {A : Type}.

(** [before a b]: the comparator of [Array.prototype.sort] answers a
    negative number for [(a, b)], which puts [a] first; 0, a positive number
    and NaN do not. *)
Variable before : A -> A -> bool.

(** Inserts [x], which came after the elements of [l] in the array,
    behind every element it does not precede. *)
Fixpoint insert (x : A) (l : list A) : list A :=
  match l with
  | [] => [x]
  | y :: l' => if before x y then x :: y :: l' else y :: insert x l'
  end.

Definition sort (l : list A) : list A :=
  fold_left (fun acc x => insert x acc) l [].

End Sort.

(* ================================================================== *)
(** * The rate solver: [calculateXirr] *)
(* ================================================================== *)

(** The solver is numerical code.  Its numbers are the IEEE 754 binary64
    values themselves (the primitive floats), so that each operation below
    is, bit for bit, the operation the JavaScript engine performs. *)
Module F64.

(** The double of an integer; exact below 2^53, as time values are. *)
Definition of_Z (z : Z) : float :=
  if (z <? 0)%Z then (- PrimFloat.of_uint63 (Uint63.of_Z (- z)))%float
  else PrimFloat.of_uint63 (Uint63.of_Z z).

(** [Number.isFinite] *)
Definition isFinite (x : float) : bool :=
  negb (PrimFloat.is_nan x) && negb (PrimFloat.is_infinity x).

(** [new Date(field).getTime()] *)
Definition time (d : DateField) : float :=
  match d with
  | DfNull => 0%float
  | DfTime t => of_Z t
  | _ => PrimFloat.nan
  end.

(** The literals [-0.9999] and [1e-6]: the doubles nearest to them. *)
Definition minus_0_9999 : float := (-0x1.fff2e48e8a71ep-1)%float.
Definition one_millionth : float := 0x1.0c6f7a0b5ed8dp-20%float.

End F64.

Module Flow.
(** An element of [flows]: [amount] is [Number(cf.amount)], [date] the
    field handed to [new Date]. *)
Record t : Type := mk { amount : float; date : DateField }.
End Flow.

Module Cashflow.
(** [{ amount, date }] after the [map]; [date] is the time value. *)
Record t : Type := mk { amount : float; date : float }.
End Cashflow.

Definition MS_PER_YEAR : float := (1000 * 60 * 60 * 24 * 365)%float.

Section Xirr.

(** The built-in [Math.pow]. *)
Variable Math_pow : float -> float -> float.

(** [flows.map(...).filter(...).sort((a, b) => a.date - b.date)] *)
Definition xirr_cashflows (flows : list Flow.t) : list Cashflow.t :=
  sort (fun a b => (Cashflow.date a - Cashflow.date b <? 0)%float)
    (filter
       (fun cf =>
          F64.isFinite (Cashflow.amount cf)
          && negb (Cashflow.amount cf =? 0)%float
          && negb (PrimFloat.is_nan (Cashflow.date cf)))
       (map (fun cf => Cashflow.mk (Flow.amount cf) (F64.time (Flow.date cf)))
          flows)).

Definition npv (cashflows : list Cashflow.t) (baseDate : float)
  (rate : float) : float :=
  fold_left
    (fun acc cf =>
       acc + Cashflow.amount cf
             / Math_pow (1 + rate)
                 ((Cashflow.date cf - baseDate) / MS_PER_YEAR))%float
    cashflows 0%float.

(** The [for] loop: [i] iterations left. *)
Fixpoint bisect (value_at : float -> float) (i : nat)
  (low high mid : float) : float :=
  match i with
  | O => (mid * 100)%float
  | S i' =>
      let mid := ((low + high) / 2)%float in
      let value := value_at mid in
      if (PrimFloat.abs value <? F64.one_millionth)%float then (mid * 100)%float
      else if (0 <? value)%float then bisect value_at i' mid high mid
      else bisect value_at i' low mid mid
  end.

(** [calculateXirr]; [None] stands for a null or undefined argument. *)
Definition calculateXirr (flows : option (list Flow.t)) : float :=
  match flows with
  | None => 0%float
  | Some flows =>
      if (List.length flows <? 2)%nat then 0%float
      else
        let cashflows := xirr_cashflows flows in
        match cashflows with
        | [] => 0%float
        | first :: _ =>
            let baseDate := Cashflow.date first in
            bisect (npv cashflows baseDate) 100
              F64.minus_0_9999 100%float 0%float
        end
  end.

End Xirr.

(* ================================================================== *)
(** * Rows *)
(* ================================================================== *)

Module Row.

(** A transaction row: a flat mapping of named fields.  The fields that no
    aggregator reads are left out; a field a table does not have is
    [None], [JUndefined] or [DfUndefined]. *)
Record t : Type := mk {
  account_name : option string;
  bank_name : option string;
  account_type : option string;
  transaction_type : option string;
  invest_type : option string;
  scheme_name : option string;
  amount : JsValue;
  employee_share : JsValue;
  employer_share : JsValue;
  pension_share : JsValue;
  units : JsValue;
  nav : JsValue;
  txn_date : DateField;
  date : DateField;
  created_at : DateField
}.

Definition empty : t :=
  mk None None None None None None
     JUndefined JUndefined JUndefined JUndefined JUndefined JUndefined
     DfUndefined DfUndefined DfUndefined.


(** A row of the PPF table. *)
Definition ppf (account type_ : string) (d : DateField)
  (amount_ : JsValue) : t :=
  mk (Some account) None None (Some type_) None None
     amount_ JUndefined JUndefined JUndefined JUndefined JUndefined
     d DfUndefined DfUndefined.

(** A row of the EPF table. *)
Definition epf (type_ : string) (employee employer pension : JsValue) : t :=
  mk None None None None (Some type_) None
     JUndefined employee employer pension JUndefined JUndefined
     DfUndefined DfUndefined DfUndefined.

(** A row of the NPS table. *)
Definition nps (scheme account type_ : string) (d : DateField)
  (units_ nav_ : JsValue) : t :=
  mk (Some account) None None (Some type_) None (Some scheme)
     JUndefined JUndefined JUndefined JUndefined units_ nav_
     DfUndefined d DfUndefined.

End Row.

(** [field || dflt] on a text field: the empty string is falsy. *)
Definition text_or (field : option string) (dflt : string) : string :=
  match field with
  | Some s => if Str.is_empty s then dflt else s
  | None => dflt
  end.

(* ================================================================== *)
(** * Maps that keep insertion order *)
(* ================================================================== *)

Module Alist.

Section WithValue.

Context {V : Type}.

Definition t : Type := list (string * V).

Fixpoint get (key : string) (m : t) : option V :=
  match m with
  | [] => None
  | (k, v) :: m' => if String.eqb k key then Some v else get key m'
  end.

Definition has (key : string) (m : t) : bool :=
  match get key m with Some _ => true | None => false end.

(** [set]: an existing key keeps its place, a new key goes last. *)
Fixpoint set (key : string) (v : V) (m : t) : t :=
  match m with
  | [] => [(key, v)]
  | (k, w) :: m' =>
      if String.eqb k key then (k, v) :: m' else (k, w) :: set key v m'
  end.

End WithValue.

Arguments t : clear implicits.

(** [if (!m.has(key)) m.set(key, []); m.get(key).push(x)] *)
Definition push {A : Type} (key : string) (x : A) (m : t (list A))
  : t (list A) :=
  match get key m with
  | Some l => set key (l ++ [x]) m
  | None => set key [x] m
  end.

(** The loop that files each row under its key. *)
Definition group_by {A : Type} (key_of : A -> string) (rows : list A)
  : t (list A) :=
  fold_left (fun groups x => push (key_of x) x groups) rows [].

(** The rows filed under [key], none when the key is absent. *)
Definition get_list {A : Type} (key : string) (m : t (list A)) : list A :=
  match get key m with
  | Some l => l
  | None => []
  end.

End Alist.

(** A plain object [{}] whose properties hold arrays. *)
Module JsObject.

(** The properties every plain object inherits from [Object.prototype]. *)
Definition inherited_names : list string :=
  [ "constructor"; "__defineGetter__"; "__defineSetter__"; "hasOwnProperty";
    "__lookupGetter__"; "__lookupSetter__"; "isPrototypeOf";
    "propertyIsEnumerable"; "toString"; "valueOf"; "__proto__";
    "toLocaleString" ]%string.

Definition inherited (key : string) : bool :=
  existsb (String.eqb key) inherited_names.

Fixpoint all_digits (s : string) : bool :=
  match s with
  | EmptyString => true
  | String c s' => Str.is_digit c && all_digits s'
  end.

Definition index_value (s : string) : Z :=
  let '(v, _, _) := ParseFloat.digits s 0%Z 0%nat in v.

(** An array index: a canonical decimal numeral below 2^32 - 1. *)
Definition is_array_index (s : string) : bool :=
  match s with
  | EmptyString => false
  | String c s' =>
      all_digits s
      && (negb (Ascii.eqb c "0"%char) || Str.is_empty s')
      && (String.length s <=? 10)%nat
      && (index_value s <? 4294967295)%Z
  end.

(** [Object.values(o)]: the array indices in ascending order, then the
    other keys in the order of their creation. *)
Definition values {V : Type} (o : Alist.t V) : list V :=
  map snd
    (sort (fun a b => Num.negative
                        (Num.of_Z (index_value (fst a))
                         - Num.of_Z (index_value (fst b)))%js)
       (filter (fun kv => is_array_index (fst kv)) o)
     ++ filter (fun kv => negb (is_array_index (fst kv))) o).

End JsObject.

(* ================================================================== *)
(** * [calculateBankHoldings] *)
(* ================================================================== *)

Module BankResult.
Record t : Type := mk { savings : number; demat : number; total : number }.
Definition zero : t := mk (Fin 0) (Fin 0) (Fin 0).
End BankResult.

(** [date.getFullYear() * 100 + (date.getMonth() + 1)] *)
Definition monthNumeric (t : Z) : Z :=
  (JsDate.getFullYear t * 100 + (JsDate.getMonth t + 1))%Z.

(** [String(txn.account_type || '').toLowerCase()] *)
Definition bank_type (txn : Row.t) : string :=
  Str.toLowerCase (text_or (Row.account_type txn) "").

Definition is_bank_row (txn : Row.t) : bool :=
  String.eqb (bank_type txn) "savings" || String.eqb (bank_type txn) "demat".

(** One round of the loop that finds [latestMonthNumeric]. *)
Definition latest_month_step (latest : number) (txn : Row.t) : number :=
  if negb (JsDate.truthy (Row.txn_date txn)) then latest
  else
    match Row.txn_date txn with
    | DfTime t =>
        let m := Num.of_Z (monthNumeric t) in
        if (m >? latest)%js then m else latest
    | _ => latest
    end.

Definition latestMonthNumeric (filtered : list Row.t) : number :=
  fold_left latest_month_step filtered NegInf.

Definition bank_key (txn : Row.t) : string :=
  (text_or (Row.account_name txn) "" ++ "||"
   ++ text_or (Row.bank_name txn) "" ++ "||"
   ++ text_or (Row.account_type txn) "")%string.

Definition bank_groups (filtered : list Row.t) : Alist.t (list Row.t) :=
  Alist.group_by bank_key filtered.

(** [new Date(field || 0).getTime()] *)
Definition time_or_epoch (d : DateField) : number :=
  if JsDate.truthy d then JsDate.time d else Fin 0.

(** The callback of [find]: the date of [txn] is valid and falls in the
    month [latest]. *)
Definition in_month (latest : number) (txn : Row.t) : bool :=
  match JsDate.time (Row.txn_date txn) with
  | NaN => false
  | _ =>
      match Row.txn_date txn with
      | DfTime t => (Num.of_Z (monthNumeric t) =? latest)%js
      | _ => (Num.of_Z (monthNumeric 0) =? latest)%js
      end
  end.

(** [match] of one group: filter, sort by date descending, find. *)
Definition bank_match (latest : number) (list : list Row.t) : option Row.t :=
  find (in_month latest)
    (sort (fun a b => Num.negative
                        (time_or_epoch (Row.txn_date b)
                         - time_or_epoch (Row.txn_date a))%js)
       (filter (fun txn => JsDate.truthy (Row.txn_date txn)) list)).

(** One round of [groups.forEach]: the sums are [(savingsSum, dematSum)]. *)
Definition bank_group_step (latest : number) (sums : number * number)
  (group : string * list Row.t) : number * number :=
  match bank_match latest (snd group) with
  | None => sums
  | Some m =>
      let type := bank_type m in
      let amount := toNumber (Row.amount m) in
      if String.eqb type "savings" then (fst sums + amount, snd sums)%js
      else if String.eqb type "demat" then (fst sums, snd sums + amount)%js
      else sums
  end.

Definition calculateBankHoldings (transactions : list Row.t) : BankResult.t :=
  match transactions with
  | [] => BankResult.zero
  | _ =>
      let filtered := filter is_bank_row transactions in
      match filtered with
      | [] => BankResult.zero
      | _ =>
          let latest := latestMonthNumeric filtered in
          if negb (Num.isFinite latest) || (latest <? Fin 0)%js
          then BankResult.zero
          else
            let groups := bank_groups filtered in
            let sums :=
              fold_left (bank_group_step latest) groups (Fin 0, Fin 0) in
            BankResult.mk (fst sums) (snd sums) (fst sums + snd sums)%js
      end
  end.

(* ================================================================== *)
(** * [calculatePPFHoldings] and [calculateEPFHoldings] *)
(* ================================================================== *)

Module Balance.
(** [{ invested, interest, total }] *)
Record t : Type := mk { invested : number; interest : number; total : number }.
End Balance.

(** One round of the grouping [reduce].  [None] is the TypeError raised when
    the key names a property inherited from [Object.prototype]: [acc[key]]
    is then truthy, no array is made, and [acc[key].push] is not a
    function. *)
Definition ppf_group_step (acc : option (Alist.t (list Row.t))) (txn : Row.t)
  : option (Alist.t (list Row.t)) :=
  match acc with
  | None => None
  | Some o =>
      let key := text_or (Row.account_name txn) "unknown" in
      if Alist.has key o then Some (Alist.push key txn o)
      else if JsObject.inherited key then None
      else Some (Alist.push key txn o)
  end.

(** The withdrawal branch, shared by both accumulators: interest first, the
    rest from the principal. *)
Definition withdraw (amount : number) (buckets : number * number)
  : number * number :=
  let (invested, interest) := buckets in
  let remaining := amount in
  let reduceInterest := Num.min remaining interest in
  let interest := (interest - reduceInterest)%js in
  let remaining := (remaining - reduceInterest)%js in
  let reduceDeposit := Num.min remaining invested in
  let invested := (invested - reduceDeposit)%js in
  (invested, interest).

(** One round of [accountTxns.forEach]; the buckets are
    [(invested, interest)]. *)
Definition ppf_txn_step (buckets : number * number) (txn : Row.t)
  : number * number :=
  let amount := toNumber (Row.amount txn) in
  let type := Str.toLowerCase (text_or (Row.transaction_type txn) "") in
  if String.eqb type "deposit" then (fst buckets + amount, snd buckets)%js
  else if String.eqb type "interest" then (fst buckets, snd buckets + amount)%js
  else if String.eqb type "withdrawal" then withdraw amount buckets
  else buckets.

(** One account: sort by date, run the transactions from (0, 0). *)
Definition ppf_account (accountTxns : list Row.t) : number * number :=
  fold_left ppf_txn_step
    (sort (fun a b => Num.negative
                        (JsDate.time (Row.txn_date a)
                         - JsDate.time (Row.txn_date b))%js) accountTxns)
    (Fin 0, Fin 0).

(** One round of [Object.values(grouped).forEach]; the totals are
    [(totalInvested, totalInterest)]. *)
Definition ppf_account_step (totals : number * number)
  (accountTxns : list Row.t) : number * number :=
  let (invested, interest) := ppf_account accountTxns in
  (fst totals + invested, snd totals + interest)%js.

Definition calculatePPFHoldings (transactions : list Row.t) : option Balance.t :=
  match fold_left ppf_group_step transactions (Some []) with
  | None => None
  | Some grouped =>
      let totals :=
        fold_left ppf_account_step (JsObject.values grouped) (Fin 0, Fin 0) in
      Some (Balance.mk (fst totals) (snd totals) (fst totals + snd totals)%js)
  end.

(** One round of the EPF loop; the totals are
    [(totalInvested, totalInterest)]. *)
Definition epf_txn_step (totals : number * number) (txn : Row.t)
  : number * number :=
  let amount :=
    (toNumber (Row.employee_share txn) + toNumber (Row.employer_share txn)
     + toNumber (Row.pension_share txn))%js in
  if (amount <=? Fin 0)%js then totals
  else
    let type := Str.toLowerCase (text_or (Row.invest_type txn) "") in
    if Str.includes type "withdraw" then withdraw amount totals
    else if Str.includes type "interest" then (fst totals, snd totals + amount)%js
    else (fst totals + amount, snd totals)%js.

Definition calculateEPFHoldings (transactions : list Row.t) : Balance.t :=
  let totals := fold_left epf_txn_step transactions (Fin 0, Fin 0) in
  Balance.mk (Num.max (fst totals) (Fin 0)) (snd totals)
    (Num.max (fst totals) (Fin 0) + snd totals)%js.

(* ================================================================== *)
(** * [calculateNPSHoldings] *)
(* ================================================================== *)

Module Prepared.
(** An element of [preparedTransactions].  [effectiveDate] is [None] for
    null, else the time value of the Date (NaN for an Invalid Date). *)
Record t : Type := mk {
  schemeName : string;
  accountName : string;
  type : string;
  units : number;
  nav : number;
  effectiveDate : option number;
  index : nat
}.
End Prepared.

Module Lot.
Record t : Type := mk {
  units : number;
  cost : number;
  date : option number;
  order : number;
  sequence : nat
}.

Definition set_units (lot : t) (u : number) : t :=
  mk u (cost lot) (date lot) (order lot) (sequence lot).
End Lot.

Module Holding.
Record t : Type := mk {
  schemeName : string;
  accountName : option string;
  units : number;
  invested : number;
  marketValue : number;
  cmp : number
}.
End Holding.

Module NPSResult.
Record t : Type := mk {
  marketValue : number;
  invested : number;
  holdings : list Holding.t
}.
End NPSResult.

(** [a || b || c] on date fields. *)
Definition first_truthy (a b c : DateField) : DateField :=
  if JsDate.truthy a then a else if JsDate.truthy b then b else c.

(** The object the callback of [map] returns for a row with a scheme. *)
Definition prepared_of (txn : Row.t) (index : nat) : Prepared.t :=
  let schemeName := Str.trim (text_or (Row.scheme_name txn) "") in
  let accountName := Str.trim (text_or (Row.account_name txn) "") in
  let type := Str.toLowerCase (text_or (Row.transaction_type txn) "") in
  let units := toNumber (Row.units txn) in
  let nav := toNumber (Row.nav txn) in
  let date :=
    first_truthy (Row.date txn) (Row.txn_date txn) (Row.created_at txn) in
  let effectiveDate :=
    if JsDate.truthy date then Some (JsDate.time date) else None in
  Prepared.mk schemeName accountName type units nav effectiveDate index.

(** The callback of [map]; [None] is the [null] of a row without scheme. *)
Definition prepare (txn : Row.t) (index : nat) : option Prepared.t :=
  if Str.is_empty (Str.trim (text_or (Row.scheme_name txn) "")) then None
  else Some (prepared_of txn index).

(** [array.map((x, index) => f x index)], indices from [start]. *)
Fixpoint map_indexed {A B : Type} (f : A -> nat -> B) (start : nat)
  (l : list A) : list B :=
  match l with
  | [] => []
  | x :: l' => f x start :: map_indexed f (S start) l'
  end.

(** The callback of [filter]. *)
Definition keep_prepared (tx : option Prepared.t) : bool :=
  match tx with
  | None => false
  | Some tx =>
      Num.isFinite (Prepared.units tx)
      && (Num.abs (Prepared.units tx) >? EPS)%js
  end.

Fixpoint somes {A : Type} (l : list (option A)) : list A :=
  match l with
  | [] => []
  | Some x :: l' => x :: somes l'
  | None :: l' => somes l'
  end.

Definition sort_time (d : option number) : number :=
  match d with
  | Some t => t
  | None => PosInf
  end.

(** The comparator of the [sort]. *)
Definition compare_prepared (a b : Prepared.t) : number :=
  let aTime := sort_time (Prepared.effectiveDate a) in
  let bTime := sort_time (Prepared.effectiveDate b) in
  if negb (aTime =? bTime)%js then (aTime - bTime)%js
  else (Num.of_Z (Z.of_nat (Prepared.index a))
        - Num.of_Z (Z.of_nat (Prepared.index b)))%js.

Definition preparedTransactions (transactions : list Row.t)
  : list Prepared.t :=
  sort (fun a b => Num.negative (compare_prepared a b))
    (somes (filter keep_prepared (map_indexed prepare 0 transactions))).

Definition FIFO_KEYWORDS : list string :=
  [ "sell"; "redeem"; "withdraw"; "switch out"; "exit" ]%string.

Definition isSaleType (type : string) (units : number) : bool :=
  (units <? Fin 0)%js || existsb (fun kw => Str.includes type kw) FIFO_KEYWORDS.

(** The [while] loop of a sale, one round per unit of fuel; [None] when the
    fuel runs out. *)
Fixpoint sell_loop (fuel : nat) (remaining : number) (lots : list Lot.t)
  : option (list Lot.t) :=
  match fuel with
  | O => None
  | S fuel' =>
      match lots with
      | lot :: rest =>
          if (remaining >? EPS)%js then
            let deduction := Num.min remaining (Lot.units lot) in
            let lot' := Lot.set_units lot (Lot.units lot - deduction)%js in
            let remaining' := (remaining - deduction)%js in
            if (Lot.units lot' <=? EPS)%js
            then sell_loop fuel' remaining' rest
            else sell_loop fuel' remaining' (lot' :: rest)
          else Some lots
      | [] => Some lots
      end
  end.

(** A sale: the loop started at [Math.abs(units)].  A round either drops
    the lot at the front or is the last but one test of the condition, so
    [lots.length + 2] rounds are enough. *)
Definition sell (units : number) (lots : list Lot.t) : option (list Lot.t) :=
  sell_loop (List.length lots + 2) (Num.abs units) lots.

Definition new_lot (txn : Prepared.t) : Lot.t :=
  Lot.mk (Prepared.units txn)
    (Prepared.units txn * Prepared.nav txn)%js
    (Prepared.effectiveDate txn)
    (sort_time (Prepared.effectiveDate txn))
    (Prepared.index txn).

(** What one transaction does to the lots of its key. *)
Definition apply_txn (txn : Prepared.t) (lots : list Lot.t)
  : option (list Lot.t) :=
  if Str.includes (Prepared.type txn) "buy" && (Prepared.units txn >? Fin 0)%js
  then Some (lots ++ [new_lot txn])
  else if isSaleType (Prepared.type txn) (Prepared.units txn)
  then sell (Prepared.units txn) lots
  else Some lots.

Definition nps_key (txn : Prepared.t) : string :=
  (Prepared.schemeName txn ++ "||" ++ Prepared.accountName txn)%string.

(** [if (!m.has(key)) m.set(key, []); m.get(key)] *)
Definition lots_of (key : string) (m : Alist.t (list Lot.t)) : list Lot.t :=
  match Alist.get key m with
  | Some l => l
  | None => []
  end.

(** One round of [preparedTransactions.forEach] on [lotsByScheme]. *)
Definition nps_step (lotsByScheme : option (Alist.t (list Lot.t)))
  (txn : Prepared.t) : option (Alist.t (list Lot.t)) :=
  match lotsByScheme with
  | None => None
  | Some m =>
      let key := nps_key txn in
      let lots := lots_of key m in
      match apply_txn txn lots with
      | Some lots' => Some (Alist.set key lots' m)
      | None => None
      end
  end.

Definition lotsByScheme (transactions : list Row.t)
  : option (Alist.t (list Lot.t)) :=
  fold_left nps_step (preparedTransactions transactions) (Some []).

Definition openLots (lots : list Lot.t) : list Lot.t :=
  filter (fun lot => (Lot.units lot >? EPS)%js) lots.

Definition totalUnits (lots : list Lot.t) : number :=
  fold_left (fun sum lot => sum + Lot.units lot)%js lots (Fin 0).

Definition totalCost (lots : list Lot.t) : number :=
  fold_left (fun sum lot => sum + Num.max (Lot.cost lot) (Fin 0))%js lots (Fin 0).

(** [cmpMap.get(schemeName) || 0]: 0 and NaN are falsy. *)
Definition cmp_or_zero (cmpMap : string -> option number) (schemeName : string)
  : number :=
  match cmpMap schemeName with
  | Some NaN | None => Fin 0
  | Some (Fin q) => if Qeq_bool q 0 then Fin 0 else Fin q
  | Some n => n
  end.

(** One round of [lotsByScheme.forEach]; the accumulator is
    [(totalMarketValue, totalInvested, holdings)]. *)
Definition holding_step (cmpMap : string -> option number)
  (acc : number * number * list Holding.t) (entry : string * list Lot.t)
  : number * number * list Holding.t :=
  let '(totalMarketValue, totalInvested, holdings) := acc in
  let parts := Str.split "||" (fst entry) in
  let schemeName := nth 0 parts EmptyString in
  let accountName := nth_error parts 1 in
  match openLots (snd entry) with
  | [] => acc
  | open =>
      let units := totalUnits open in
      let cost := totalCost open in
      let cmp := cmp_or_zero cmpMap schemeName in
      let marketValue := (units * cmp)%js in
      ((totalMarketValue + marketValue)%js,
       (totalInvested + cost)%js,
       holdings
       ++ [Holding.mk schemeName accountName units cost marketValue cmp])
  end.

Definition calculateNPSHoldings (transactions : list Row.t)
  (cmpMap : string -> option number) : option NPSResult.t :=
  match lotsByScheme transactions with
  | None => None
  | Some m =>
      let '(totalMarketValue, totalInvested, holdings) :=
        fold_left (holding_step cmpMap) m (Fin 0, Fin 0, []) in
      Some (NPSResult.mk totalMarketValue totalInvested holdings)
  end.


(* ================================================================== *)
(** * Vocabulary of the statements *)
(* ================================================================== *)


(** An open lot: its units are a finite number above [1e-8]. *)
Definition open_lot (lot : Lot.t) : Prop :=
  exists u, Lot.units lot = Fin u /\ eps < u.

(** The units of a queue of lots, as a rational. *)
Fixpoint units_sum (lots : list Lot.t) : Q :=
  match lots with
  | [] => 0
  | lot :: rest => Num.val (Lot.units lot) + units_sum rest
  end.

(** A transaction that opens a lot, and one that consumes lots. *)
Definition is_buy (txn : Prepared.t) : bool :=
  Str.includes (Prepared.type txn) "buy" && (Prepared.units txn >? Fin 0)%js.

Definition is_sale (txn : Prepared.t) : bool :=
  negb (is_buy txn) && isSaleType (Prepared.type txn) (Prepared.units txn).

(** The running balance of one key: a buy adds its units, a sale takes its
    units away but never below 0. *)
Definition balance_step (key : string) (b : Q) (txn : Prepared.t) : Q :=
  if negb (String.eqb (nps_key txn) key) then b
  else if is_buy txn then b + Num.val (Prepared.units txn)
  else if is_sale txn then Qmax 0 (b - Qabs (Num.val (Prepared.units txn)))
  else b.


Definition sales_count (key : string) (txns : list Prepared.t) : nat :=
  List.length
    (filter (fun txn => String.eqb (nps_key txn) key && is_sale txn) txns).


Definition sold (key : string) (txns : list Prepared.t) : Q :=
  fold_left
    (fun b txn =>
       if String.eqb (nps_key txn) key && is_sale txn
       then b + Qabs (Num.val (Prepared.units txn)) else b)
    txns 0.





(** [a] is the lot [b], but for its units. *)
Definition same_lot (a b : Lot.t) : Prop :=
  Lot.cost a = Lot.cost b /\ Lot.date a = Lot.date b
  /\ Lot.order a = Lot.order b /\ Lot.sequence a = Lot.sequence b.

(** [String(txn.transaction_type || '').toLowerCase()] *)
Definition ppf_type (txn : Row.t) : string :=
  Str.toLowerCase (text_or (Row.transaction_type txn) "").

(** The amounts of the rows of one type, added up in the order given. *)
Definition credited (kind : string) (rows : list Row.t) : number :=
  fold_left
    (fun sum txn =>
       if String.eqb (ppf_type txn) kind
       then (sum + toNumber (Row.amount txn))%js else sum)
    rows (Fin 0).

(** Both rows carry a date, and [a] is not dated after [b]. *)
Definition dated_not_after (a b : Row.t) : Prop :=
  exists ta tb,
    JsDate.time (Row.txn_date a) = Fin ta
    /\ JsDate.time (Row.txn_date b) = Fin tb /\ ta <= tb.




(** What the statements ask of [Math.pow]: the power 0 of any base is 1,
    and the power 1 of a base is the base. *)
Definition pow_laws (Math_pow : float -> float -> float) : Prop :=
  (forall x, Math_pow x 0%float = 1%float)
  /\ (forall x, Math_pow x 1%float = x).

(** A power function for the exponents 0 and 1, NaN elsewhere. *)
Definition pow_0_1 (x e : float) : float :=
  if (e =? 0)%float then 1%float
  else if (e =? 1)%float then x
  else PrimFloat.nan.

(** A whole number of units. *)
Definition whole (n : number) : Prop :=
  exists z : Z, Num.val n == inject_Z z.


(** [n] times [1e-8]. *)
Definition tolerance (n : nat) : Q := inject_Z (Z.of_nat n) * eps.

(* ================================================================== *)
(** * Sample data *)
(* ================================================================== *)

Definition sample_ppf : list Row.t :=
  [ Row.ppf "home" "deposit" (DfTime (JsDate.UTC 2023 4 1)) (JStr "1000");
    Row.ppf "home" "interest" (DfTime (JsDate.UTC 2024 3 31)) (JNum (Fin 200));
    Row.ppf "home" "withdrawal" (DfTime (JsDate.UTC 2024 5 2)) (JNum (Fin 300)) ].


Definition whole_trades : list Row.t :=
  [ Row.nps "Tier I" "self" "buy" (DfTime (JsDate.UTC 2024 1 10))
      (JNum (Fin 10)) (JNum (Fin 15));
    Row.nps "Tier I" "self" "redeem" (DfTime (JsDate.UTC 2024 2 10))
      (JNum (Fin 4)) (JNum (Fin 16)) ].





Definition ppf_credits : list Row.t :=
  [ Row.ppf "home" "Deposit" (DfTime (JsDate.UTC 2023 4 1)) (JStr "600");
    Row.ppf "home" "interest" (DfTime (JsDate.UTC 2024 3 31)) (JNum (Fin 120));
    Row.ppf "home" "deposit" (DfTime (JsDate.UTC 2024 4 5)) (JStr "400");
    Row.ppf "home" "Interest" (DfTime (JsDate.UTC 2025 3 31)) (JStr "80.00") ].

Definition ppf_withdrawal : Row.t :=
  Row.ppf "home" "Withdrawal" (DfTime (JsDate.UTC 2025 5 2)) (JNum (Fin 300)).


(** An outflow of 100000 on day 0 and an inflow of 110000 on day 365. *)
Definition one_year_flows : list Flow.t :=
  [ Flow.mk (-100000)%float (DfTime 0);
    Flow.mk 110000%float (DfTime (365 * JsDate.MS_PER_DAY)) ].

(** Two flows, of which the second has amount 0. *)
Definition one_live_flow : list Flow.t :=
  [ Flow.mk 100%float (DfTime (JsDate.UTC 2024 1 1));
    Flow.mk 0%float (DfTime (JsDate.UTC 2025 1 1)) ].

Definition price_map_a (scheme : string) : option number :=
  if String.eqb scheme "Tier I" then Some (Fin 20) else None.


Definition constructor_row : Row.t :=
  Row.ppf "constructor" "deposit" (DfTime (JsDate.UTC 2024 4 1)) (JNum (Fin 500)).

(** The years 1900 to 2199 and the months of a year. *)
Definition sample_years : list Z := map Z.of_nat (seq 1900 300).
Definition months : list Z := map Z.of_nat (seq 1 12).

(* ================================================================== *)
(** * Vocabulary of the further statements *)
(* ================================================================== *)







(** The trimmed names an NPS row is filed under. *)
Definition nps_scheme (txn : Row.t) : string :=
  Str.trim (text_or (Row.scheme_name txn) "").

Definition nps_account (txn : Row.t) : string :=
  Str.trim (text_or (Row.account_name txn) "").

(** The text holds no vertical bar; the text holds no separator ["||"]. *)
Definition bar_free (s : string) : bool := negb (Str.includes s "|").

Definition separator_free (s : string) : bool := negb (Str.includes s "||").

(** The lot [lot] was opened by the purchase [p]: it carries the cost, the
    date, the order and the sequence of the purchase, and of the units
    bought it still holds more than [1e-8]. *)
Definition opened_by (p : Prepared.t) (lot : Lot.t) : Prop :=
  is_buy p = true
  /\ same_lot lot (new_lot p)
  /\ exists u u0,
       Lot.units lot = Fin u /\ Prepared.units p = Fin u0
       /\ eps < u /\ u <= u0.

(** The holding that [lotsByScheme.forEach] reports for an entry with open
    lots. *)
Definition holding_of (cmpMap : string -> option number)
  (entry : string * list Lot.t) : Holding.t :=
  let parts := Str.split "||" (fst entry) in
  let schemeName := nth 0 parts EmptyString in
  let open := openLots (snd entry) in
  let cmp := cmp_or_zero cmpMap schemeName in
  Holding.mk schemeName (nth_error parts 1) (totalUnits open) (totalCost open)
    (totalUnits open * cmp)%js cmp.

(** The sum of one field of the holdings, in the order of the list. *)
Definition sum_by (field : Holding.t -> number) (holdings : list Holding.t)
  : number :=
  fold_left (fun sum h => sum + field h)%js holdings (Fin 0).

(** What a listed NPS holding is: more than [1e-8] units, a cost that is
    not negative, the price found under its scheme name (0 when there is
    none), and the market value of its units at that price. *)
Definition open_position (cmpMap : string -> option number) (h : Holding.t)
  : Prop :=
  (exists u, Holding.units h = Fin u /\ eps < u)
  /\ (exists c, Holding.invested h = Fin c /\ 0 <= c)
  /\ Holding.cmp h = cmp_or_zero cmpMap (Holding.schemeName h)
  /\ Holding.marketValue h = (Holding.units h * Holding.cmp h)%js.

(** The holding is reported under the names of the row. *)
Definition named_after (txn : Row.t) (h : Holding.t) : Prop :=
  Holding.schemeName h = nps_scheme txn
  /\ Holding.accountName h = Some (nps_account txn).

(** The separator cannot be mistaken in the names of the row. *)
Definition plain_names (txn : Row.t) : Prop :=
  bar_free (nps_scheme txn) = true /\ separator_free (nps_account txn) = true.

(** A purchase under a scheme name that holds the separator. *)
Definition barred_scheme : list Row.t :=
  [ Row.nps "Tier I||E" "self" "buy" (DfTime (JsDate.UTC 2024 1 10))
      (JNum (Fin 10)) (JNum (Fin 15)) ].

(* ================================================================== *)
(** * The analysis service: [normalizeType] *)
(* ================================================================== *)

(** The labels of [normalizeType], in the order of the source. *)
Definition TYPES : list string :=
  [ "buy"; "purchase"; "sip"; "contribution"; "sell"; "redeem"; "switch out";
    "switch in"; "withdraw"; "charges"; "interest" ]%string.

(** The body of [normalizeType] on a text: the first label the lowered
    text includes, or the lowered text ([find] answers a label, which is
    truthy, or undefined). *)
Definition normalize_text (value : string) : string :=
  let lowered := Str.toLowerCase value in
  match find (fun label => Str.includes lowered label) TYPES with
  | Some label => label
  | None => lowered
  end.

(** [normalizeType] (analysis service, lines 13-17).  The parameter has the
    default [''], which stands in for undefined only; on null and on any
    value that is not a text, [value.toLowerCase] is not a function and the
    call throws a TypeError, [None]. *)
Definition normalizeType (value : JsValue) : option string :=
  match value with
  | JUndefined => Some (normalize_text "")
  | JOther (OStr s) => Some (normalize_text s)
  | _ => None
  end.

(* ================================================================== *)
(** * The analysis service: rows, maps and lots *)
(* ================================================================== *)

(** The analysis functions are modelled as functions of the rows their
    queries fetch; [None] for [data] is the null of a query without rows.
    A column that a query selects is never undefined: [None] in a text
    field of these rows is null. *)

Module StockTxn.
(** A row of [stock_transactions]. *)
Record t : Type := mk {
  stock_name : option string;
  quantity : JsValue;
  buy_price : JsValue;
  sell_price : JsValue;
  buy_date : DateField;
  sell_date : DateField;
  account_name : option string;
  account_type : option string;
  sector : option string;
  category : option string
}.
End StockTxn.

Module StockMaster.
(** A row of [stock_master]. *)
Record t : Type := mk { stock_name : option string; cmp : JsValue }.
End StockMaster.

(** [data || []] *)
Definition rows_or_empty {A : Type} (data : option (list A)) : list A :=
  match data with
  | Some rows => rows
  | None => []
  end.

(** A [Map] in the order of insertion, with the equality [eqb] on its
    keys. *)
Module JsMap.

Section WithKey.

Context {K V : Type}.
Variable eqb : K -> K -> bool.

Definition t : Type := list (K * V).

Fixpoint get (key : K) (m : t) : option V :=
  match m with
  | [] => None
  | (k, v) :: m' => if eqb k key then Some v else get key m'
  end.

(** [set]: an existing key keeps its place, a new key goes last. *)
Fixpoint set (key : K) (v : V) (m : t) : t :=
  match m with
  | [] => [(key, v)]
  | (k, w) :: m' =>
      if eqb k key then (k, v) :: m' else (k, w) :: set key v m'
  end.

End WithKey.

Arguments t : clear implicits.

(** [if (!m.has(key)) m.set(key, []); m.get(key).push(x)] *)
Definition push {K A : Type} (eqb : K -> K -> bool) (key : K) (x : A)
  (m : t K (list A)) : t K (list A) :=
  match get eqb key m with
  | Some l => set eqb key (l ++ [x]) m
  | None => set eqb key [x] m
  end.

(** The loop that files each row under its key. *)
Definition group_by {K A : Type} (eqb : K -> K -> bool) (key_of : A -> K)
  (rows : list A) : t K (list A) :=
  fold_left (fun groups x => push eqb (key_of x) x groups) rows [].

End JsMap.

(** Equality of the keys that are a text or null. *)
Definition key_eqb (a b : option string) : bool :=
  match a, b with
  | Some x, Some y => String.eqb x y
  | None, None => true
  | _, _ => false
  end.

(** [value || 0] on what [Map.get] answers: undefined, 0 and NaN are
    falsy. *)
Definition number_or_zero (value : option number) : number :=
  match value with
  | Some NaN | None => Fin 0
  | Some (Fin q) => if Qeq_bool q 0 then Fin 0 else Fin q
  | Some n => n
  end.

(** [new Map((stockMaster || []).map((m) => [m.stock_name, toNumber(m.cmp)]))] *)
Definition stock_cmpMap (stockMaster : option (list StockMaster.t))
  : JsMap.t (option string) number :=
  fold_left
    (fun m row =>
       JsMap.set key_eqb (StockMaster.stock_name row)
         (toNumber (StockMaster.cmp row)) m)
    (rows_or_empty stockMaster) [].

(** [cmpMap.get(key) || 0] *)
Definition cmp_of (cmpMap : JsMap.t (option string) number)
  (key : option string) : number :=
  number_or_zero (JsMap.get key_eqb key cmpMap).

(** The literal [1e-6] of the source. *)
Definition dust : Q := 1 # 1000000.
Definition DUST : number := Fin dust.

Module StockLot.
(** A lot of the queue: [{ units, price, ... }]; [more] holds the fields
    a function adds to the two ([buyDate], [txn]). *)
Record t (T : Type) : Type := mk { units : number; price : number; more : T }.

Arguments mk {T}.
Arguments units {T}.
Arguments price {T}.
Arguments more {T}.

Definition set_units {T : Type} (lot : t T) (u : number) : t T :=
  mk u (price lot) (more lot).
End StockLot.

(** The [while] loop of a sale, [while (remaining > 0 && fifo.length)]: one
    round per unit of fuel, [None] when the fuel runs out. *)
Fixpoint consume {T : Type} (fuel : nat) (remaining : number)
  (fifo : list (StockLot.t T)) : option (list (StockLot.t T)) :=
  match fuel with
  | O => None
  | S fuel' =>
      if (remaining >? Fin 0)%js then
        match fifo with
        | lot :: rest =>
            let consumed := Num.min remaining (StockLot.units lot) in
            let lot' :=
              StockLot.set_units lot (StockLot.units lot - consumed)%js in
            let remaining' := (remaining - consumed)%js in
            if (StockLot.units lot' <=? DUST)%js
            then consume fuel' remaining' rest
            else consume fuel' remaining' (lot' :: rest)
        | [] => Some fifo
        end
      else Some fifo
  end.

(** The callback of [forEach] on the sorted rows of one stock: a row
    without [sell_date] opens a lot, a row with one is a sale.  A round of
    the loop drops the lot at the front or leaves nothing to sell, so
    [fifo.length + 2] rounds are enough. *)
Definition fifo_step {T : Type} (more_of : StockTxn.t -> T)
  (fifo : option (list (StockLot.t T))) (txn : StockTxn.t)
  : option (list (StockLot.t T)) :=
  match fifo with
  | None => None
  | Some fifo =>
      let quantity := toNumber (StockTxn.quantity txn) in
      let price := toNumber (StockTxn.buy_price txn) in
      if negb (JsDate.truthy (StockTxn.sell_date txn))
      then Some (fifo ++ [StockLot.mk quantity price (more_of txn)])
      else consume (List.length fifo + 2) (Num.abs quantity) fifo
  end.

(** [a || b] on date fields. *)
Definition date_or (a b : DateField) : DateField :=
  if JsDate.truthy a then a else b.

(** [new Date(a.buy_date || a.sell_date || 0) - new Date(b.buy_date || ...)]
    is negative. *)
Definition by_trade_date (a b : StockTxn.t) : bool :=
  Num.negative
    (time_or_epoch (date_or (StockTxn.buy_date a) (StockTxn.sell_date a))
     - time_or_epoch (date_or (StockTxn.buy_date b) (StockTxn.sell_date b)))%js.

(** [new Date(a.buy_date || 0) - new Date(b.buy_date || 0)] is negative. *)
Definition by_buy_date (a b : StockTxn.t) : bool :=
  Num.negative
    (time_or_epoch (StockTxn.buy_date a)
     - time_or_epoch (StockTxn.buy_date b))%js.

(** [fifo.reduce((sum, lot) => sum + lot.units, 0)] and the two sums of
    [fifo.forEach]. *)
Definition lots_units {T : Type} (fifo : list (StockLot.t T)) : number :=
  fold_left (fun sum lot => sum + StockLot.units lot)%js fifo (Fin 0).

Definition lots_invested {T : Type} (fifo : list (StockLot.t T))
  (invested : number) : number :=
  fold_left (fun sum lot => sum + StockLot.units lot * StockLot.price lot)%js
    fifo invested.

Definition lots_marketValue {T : Type} (cmp : number)
  (fifo : list (StockLot.t T)) (marketValue : number) : number :=
  fold_left (fun sum lot => sum + StockLot.units lot * cmp)%js
    fifo marketValue.

(** [invested > 0 ? (profit / invested) * 100 : 0] *)
Definition percent_of (profit invested : number) : number :=
  if (invested >? Fin 0)%js then (profit / invested * Fin 100)%js else Fin 0.

(** Sequencing of the steps that can fail. *)
Definition bind {A B : Type} (x : option A) (f : A -> option B) : option B :=
  match x with
  | Some a => f a
  | None => None
  end.

Notation "'let*' x ':=' e 'in' k" := (bind e (fun x => k))
  (at level 10, x name, e at level 100, k at level 200).

(* ================================================================== *)
(** * [getAnalysisFreeStocks] *)
(* ================================================================== *)

Module FreeStock.
Record t : Type := mk {
  stockName : string;
  accountName : option string;
  invested : number;
  marketValue : number;
  profit : number;
  profitPercent : number;
  quantity : number;
  avgPrice : number
}.
End FreeStock.

Module FreeStocks.
Record t : Type := mk {
  freeStocks : list FreeStock.t;
  regularStocks : list FreeStock.t
}.
End FreeStocks.

(** A text field in a template literal: null prints as [null]. *)
Definition template (field : option string) : string :=
  match field with
  | Some s => s
  | None => "null"
  end.

Definition free_key (txn : StockTxn.t) : string :=
  (template (StockTxn.stock_name txn) ++ "||"
   ++ template (StockTxn.account_name txn))%string.

(** The queue of one key: the rows sorted by purchase date, then run. *)
Definition free_fifo (txns : list StockTxn.t)
  : option (list (StockLot.t DateField)) :=
  fold_left (fifo_step StockTxn.buy_date) (sort by_buy_date txns) (Some []).

(** [accountName && accountName.toLowerCase().includes('free')] *)
Definition is_free (accountName : option string) : bool :=
  match accountName with
  | Some name =>
      negb (Str.is_empty name) && Str.includes (Str.toLowerCase name) "free"
  | None => false
  end.

(** The object [stock] made for a key whose queue is [fifo]. *)
Definition free_stock (cmpMap : JsMap.t (option string) number)
  (key : string) (fifo : list (StockLot.t DateField)) : FreeStock.t :=
  let parts := Str.split "||" key in
  let stockName := nth 0 parts EmptyString in
  let accountName := nth_error parts 1 in
  let cmp := cmp_of cmpMap (Some stockName) in
  let invested := lots_invested fifo (Fin 0) in
  let marketValue := lots_marketValue cmp fifo (Fin 0) in
  let profit := (marketValue - invested)%js in
  FreeStock.mk stockName accountName invested marketValue profit
    (percent_of profit invested)
    (lots_units fifo)
    (if (invested >? Fin 0)%js then (invested / lots_units fifo)%js else Fin 0).

(** One round of [stockData.forEach]. *)
Definition free_step (cmpMap : JsMap.t (option string) number)
  (acc : option FreeStocks.t) (group : string * list StockTxn.t)
  : option FreeStocks.t :=
  let* lists := acc in
  let* fifo := free_fifo (snd group) in
  match fifo with
  | [] => Some lists
  | _ :: _ =>
      let stock := free_stock cmpMap (fst group) fifo in
      if is_free (FreeStock.accountName stock)
      then Some (FreeStocks.mk (FreeStocks.freeStocks lists ++ [stock])
                   (FreeStocks.regularStocks lists))
      else Some (FreeStocks.mk (FreeStocks.freeStocks lists)
                   (FreeStocks.regularStocks lists ++ [stock]))
  end.

Definition getAnalysisFreeStocks (stockTxns : option (list StockTxn.t))
  (stockMaster : option (list StockMaster.t)) : option FreeStocks.t :=
  let cmpMap := stock_cmpMap stockMaster in
  let stockData := Alist.group_by free_key (rows_or_empty stockTxns) in
  fold_left (free_step cmpMap) stockData (Some (FreeStocks.mk [] [])).

(* ================================================================== *)
(** * [getAnalysisDashboard] *)
(* ================================================================== *)

Module AccountRow.
Record t : Type := mk {
  accountName : string;
  invested : number;
  marketValue : number;
  profit : number;
  profitPercent : number
}.
End AccountRow.

Module StockRow.
Record t : Type := mk {
  name : option string;
  invested : number;
  marketValue : number;
  profit : number;
  percent : number
}.
End StockRow.

Module EnrichedStock.
(** [{ ...stock, absReturnPct }] *)
Record t : Type := mk { stock : StockRow.t; absReturnPct : number }.
End EnrichedStock.

Module Dashboard.
Record t : Type := mk {
  accountWise : list AccountRow.t;
  topGainers : list StockRow.t;
  topLosers : list StockRow.t;
  totalStocks : nat;
  openEquityPositions : list EnrichedStock.t
}.
End Dashboard.

(** The queue of one stock: the rows sorted by trade date, then run. *)
Definition stock_fifo (txns : list StockTxn.t)
  : option (list (StockLot.t unit)) :=
  fold_left (fifo_step (fun _ => tt)) (sort by_trade_date txns) (Some []).

(** [entries[0].stock_name], read once per lot of the queue; a group
    without entries has no lot. *)
Definition first_stock_name (entries : list StockTxn.t) : option string :=
  match entries with
  | first :: _ => StockTxn.stock_name first
  | [] => None
  end.

(** One round of [lots.forEach] in [processLots]; the sums are
    [(invested, marketValue)]. *)
Definition processLots_step (cmpMap : JsMap.t (option string) number)
  (sums : option (number * number))
  (group : option string * list StockTxn.t) : option (number * number) :=
  let* sums := sums in
  let* fifo := stock_fifo (snd group) in
  let cmp := cmp_of cmpMap (first_stock_name (snd group)) in
  Some (lots_invested fifo (fst sums), lots_marketValue cmp fifo (snd sums)).

Definition processLots (cmpMap : JsMap.t (option string) number)
  (list : list StockTxn.t) (sums : number * number)
  : option (number * number) :=
  fold_left (processLots_step cmpMap)
    (JsMap.group_by key_eqb StockTxn.stock_name list) (Some sums).

(** [t.account_type === 'ETF'] *)
Definition is_etf (txn : StockTxn.t) : bool :=
  match StockTxn.account_type txn with
  | Some type => String.eqb type "ETF"
  | None => false
  end.

(** [(txn.account_name || 'UNKNOWN').trim()] *)
Definition dashboard_account (txn : StockTxn.t) : string :=
  Str.trim (text_or (StockTxn.account_name txn) "UNKNOWN").

(** One round of [accountMap.forEach]. *)
Definition account_step (cmpMap : JsMap.t (option string) number)
  (accountWise : option (list AccountRow.t))
  (group : string * list StockTxn.t) : option (list AccountRow.t) :=
  let* accountWise := accountWise in
  let stocks := filter (fun t => negb (is_etf t)) (snd group) in
  let etfs := filter is_etf (snd group) in
  let* sums := processLots cmpMap stocks (Fin 0, Fin 0) in
  let* sums := processLots cmpMap etfs sums in
  let invested := fst sums in
  let marketValue := snd sums in
  if (invested >? Fin 0)%js || (marketValue >? Fin 0)%js
  then Some (accountWise
             ++ [AccountRow.mk (fst group) invested marketValue
                   (marketValue - invested)%js
                   (if (invested >? Fin 0)%js
                    then ((marketValue - invested) / invested * Fin 100)%js
                    else Fin 0)])
  else Some accountWise.

(** One round of [stockData.forEach]. *)
Definition stock_step (cmpMap : JsMap.t (option string) number)
  (stocks : option (list StockRow.t))
  (group : option string * list StockTxn.t) : option (list StockRow.t) :=
  let* stocks := stocks in
  let* fifo := stock_fifo (snd group) in
  let cmp := cmp_of cmpMap (fst group) in
  let invested := lots_invested fifo (Fin 0) in
  let marketValue := lots_marketValue cmp fifo (Fin 0) in
  match fifo with
  | [] => Some stocks
  | _ :: _ =>
      let profit := (marketValue - invested)%js in
      let percent := percent_of profit invested in
      Some (stocks
            ++ [StockRow.mk (fst group) invested marketValue profit percent])
  end.

(** [stocks.filter((s) => s.profit > 0).sort((a, b) => b.profit - a.profit)
    .slice(0, 5)], and the like for the losers. *)
Definition gainers (stocks : list StockRow.t) : list StockRow.t :=
  firstn 5
    (sort (fun a b => Num.negative (StockRow.profit b - StockRow.profit a)%js)
       (filter (fun s => (StockRow.profit s >? Fin 0)%js) stocks)).

Definition losers (stocks : list StockRow.t) : list StockRow.t :=
  firstn 5
    (sort (fun a b => Num.negative (StockRow.profit a - StockRow.profit b)%js)
       (filter (fun s => (StockRow.profit s <? Fin 0)%js) stocks)).

Definition enrichedStocks (stocks : list StockRow.t) : list EnrichedStock.t :=
  map (fun stock => EnrichedStock.mk stock (StockRow.percent stock)) stocks.

Definition getAnalysisDashboard (stockTxns : option (list StockTxn.t))
  (stockMaster : option (list StockMaster.t)) : option Dashboard.t :=
  let cmpMap := stock_cmpMap stockMaster in
  let accountMap :=
    Alist.group_by dashboard_account (rows_or_empty stockTxns) in
  let* accountWise := fold_left (account_step cmpMap) accountMap (Some []) in
  let stockData :=
    JsMap.group_by key_eqb StockTxn.stock_name (rows_or_empty stockTxns) in
  let* stocks := fold_left (stock_step cmpMap) stockData (Some []) in
  Some (Dashboard.mk accountWise (gainers stocks) (losers stocks)
          (List.length stocks) (enrichedStocks stocks)).

(* ================================================================== *)
(** * Values in arithmetic *)
(* ================================================================== *)

(** The conversion the language applies to an operand of [*] and [-]
    ([ToNumber]).  A text converts as a whole: white space around a decimal
    literal, or a literal with the prefix [0x], [0o] or [0b]; the empty text
    is 0, anything else NaN.  An object converts through its text. *)
Module ToNumber.

Definition digit_of (c : ascii) : option Z :=
  let n := nat_of_ascii c in
  if ((48 <=? n) && (n <=? 57))%nat then Some (Z.of_nat (n - 48))
  else if ((97 <=? n) && (n <=? 102))%nat then Some (Z.of_nat (n - 87))
  else if ((65 <=? n) && (n <=? 70))%nat then Some (Z.of_nat (n - 55))
  else None.

(** A text made of digits of the base only, [n] of them read so far. *)
Fixpoint radix (base : Z) (s : string) (acc : Z) (n : nat) : number :=
  match s with
  | EmptyString => if (n =? 0)%nat then NaN else Num.of_Z acc
  | String c s' =>
      match digit_of c with
      | Some v =>
          if (v <? base)%Z then radix base s' (base * acc + v)%Z (S n) else NaN
      | None => NaN
      end
  end.

(** The exponent part, which must reach the end of the text: 0 when there
    is none, [None] when it is malformed. *)
Definition exponent (s : string) : option Z :=
  match s with
  | EmptyString => Some 0%Z
  | String c s' =>
      if Ascii.eqb c "e"%char || Ascii.eqb c "E"%char then
        let '(negative, body) :=
          match s' with
          | String "+"%char t => (false, t)
          | String "-"%char t => (true, t)
          | _ => (false, s')
          end in
        let '(v, n, rest) := ParseFloat.digits body 0%Z 0%nat in
        if (n =? 0)%nat || negb (Str.is_empty rest) then None
        else Some (if negative then (- v)%Z else v)
      else None
  end.

Definition unsigned (s : string) : number :=
  if String.eqb s "Infinity" then PosInf
  else
    let '(i, ni, r1) := ParseFloat.digits s 0%Z 0%nat in
    let '(m, nf, r2) :=
      match r1 with
      | String "."%char t => ParseFloat.digits t i 0%nat
      | _ => (i, 0%nat, r1)
      end in
    if (ni + nf =? 0)%nat then NaN
    else
      match exponent r2 with
      | Some e => Fin (Qred (inject_Z m * Qpower 10 (e - Z.of_nat nf)))
      | None => NaN
      end.

Definition of_string (s : string) : number :=
  match Str.trim s with
  | EmptyString => Fin 0
  | String "0"%char (String "x"%char t) | String "0"%char (String "X"%char t) =>
      radix 16 t 0%Z 0%nat
  | String "0"%char (String "o"%char t) | String "0"%char (String "O"%char t) =>
      radix 8 t 0%Z 0%nat
  | String "0"%char (String "b"%char t) | String "0"%char (String "B"%char t) =>
      radix 2 t 0%Z 0%nat
  | String "-"%char t => Num.neg (unsigned t)
  | String "+"%char t => unsigned t
  | t => unsigned t
  end.

Definition of_value (value : JsValue) : number :=
  match value with
  | JUndefined => NaN
  | JNull => Fin 0
  | JNum n => n
  | JOther (OBool b) => if b then Fin 1 else Fin 0
  | JOther o => of_string (js_String o)
  end.

End ToNumber.

(** Truthiness of a value. *)
Definition js_truthy (value : JsValue) : bool :=
  match value with
  | JUndefined | JNull => false
  | JNum NaN => false
  | JNum (Fin q) => negb (Qeq_bool q 0)
  | JNum _ => true
  | JOther (OBool b) => b
  | JOther (OStr s) => negb (Str.is_empty s)
  | JOther (OObj _) => true
  end.

(** [value || 0] *)
Definition value_or_zero (value : JsValue) : JsValue :=
  if js_truthy value then value else JNum (Fin 0).

(* ================================================================== *)
(** * [getAnalysisSummary] *)
(* ================================================================== *)

Module SoldLot.
Record t : Type := mk { units : number; costPrice : number; salePrice : number }.
End SoldLot.

Module Processed.
(** An element of [processedTxns]: [{ ...txn, quantity, price, type,
    status, soldLots }]; [soldLots] is [None] on a purchase. *)
Record t : Type := mk {
  txn : StockTxn.t;
  quantity : number;
  price : number;
  type : string;
  status : string;
  soldLots : option (list SoldLot.t)
}.
End Processed.

Module EquityActive.
Record t : Type := mk {
  stock_name : option string;
  account_name : string;
  account_type : string;
  quantity : number;
  buy_price : number;
  buy_date : DateField;
  invested_amount : number;
  market_value : number;
  unrealized_gain : number;
  sector : string;
  category : string
}.
End EquityActive.

Module EquityClosed.
Record t : Type := mk {
  stock_name : option string;
  account_name : string;
  quantity : number;
  buy_price : number;
  buy_date : DateField;
  sell_price : number;
  sell_date : DateField;
  invested_amount : number;
  sale_amount : number;
  charges_allocated : number;
  realized_gain : number
}.
End EquityClosed.

(** The loop of a sale that keeps a record of the lots it sells from. *)
Fixpoint consume_recording {T : Type} (fuel : nat) (salePrice : number)
  (remaining : number) (fifo : list (StockLot.t T))
  (soldLots : list SoldLot.t)
  : option (list (StockLot.t T) * list SoldLot.t) :=
  match fuel with
  | O => None
  | S fuel' =>
      if (remaining >? Fin 0)%js then
        match fifo with
        | lot :: rest =>
            let consumed := Num.min remaining (StockLot.units lot) in
            let lot' :=
              StockLot.set_units lot (StockLot.units lot - consumed)%js in
            let remaining' := (remaining - consumed)%js in
            let soldLots' :=
              soldLots
              ++ [SoldLot.mk consumed (StockLot.price lot) salePrice] in
            if (StockLot.units lot' <=? DUST)%js
            then consume_recording fuel' salePrice remaining' rest soldLots'
            else consume_recording fuel' salePrice remaining' (lot' :: rest)
                   soldLots'
        | [] => Some (fifo, soldLots)
        end
      else Some (fifo, soldLots)
  end.

(** The lots of the summary carry [buyDate] and [txn]. *)
Definition EquityLot : Type := StockLot.t (DateField * StockTxn.t).

(** The callback of [forEach] on the sorted rows of one stock; the state is
    [(fifo, processedTxns)]. *)
Definition equity_step (state : option (list EquityLot * list Processed.t))
  (txn : StockTxn.t) : option (list EquityLot * list Processed.t) :=
  let* state := state in
  let fifo := fst state in
  let processedTxns := snd state in
  let quantity := toNumber (StockTxn.quantity txn) in
  let price := toNumber (StockTxn.buy_price txn) in
  if negb (JsDate.truthy (StockTxn.sell_date txn))
  then
    Some (fifo ++ [StockLot.mk quantity price (StockTxn.buy_date txn, txn)],
          processedTxns
          ++ [Processed.mk txn quantity price "buy" "active" None])
  else
    let* sold :=
      consume_recording (List.length fifo + 2) price (Num.abs quantity)
        fifo [] in
    Some (fst sold,
          processedTxns
          ++ [Processed.mk txn quantity price "sell" "closed"
                (Some (snd sold))]).

(** [txns[0]?.field || dflt] *)
Definition first_text (field : StockTxn.t -> option string) (dflt : string)
  (txns : list StockTxn.t) : string :=
  match txns with
  | first :: _ => text_or (field first) dflt
  | [] => dflt
  end.

(** The active position of a stock whose queue is not empty. *)
Definition equity_active (cmpMap : JsMap.t (option string) number)
  (stockName : option string) (txns : list StockTxn.t)
  (fifo : list EquityLot) : EquityActive.t :=
  let totalUnits := lots_units fifo in
  let totalInvested := lots_invested fifo (Fin 0) in
  let cmp := cmp_of cmpMap stockName in
  let marketValue := (totalUnits * cmp)%js in
  EquityActive.mk stockName
    (first_text StockTxn.account_name "Unknown" txns)
    (first_text StockTxn.account_type "Stock" txns)
    totalUnits
    (if (totalInvested >? Fin 0)%js then (totalInvested / totalUnits)%js
     else Fin 0)
    (match fifo with
     | lot :: _ => fst (StockLot.more lot)
     | [] => DfUndefined
     end)
    totalInvested marketValue (marketValue - totalInvested)%js
    (first_text StockTxn.sector "" txns)
    (first_text StockTxn.category "" txns).

(** [t.status === 'closed' && t.soldLots && t.soldLots.length > 0] *)
Definition is_closed_sale (t : Processed.t) : bool :=
  String.eqb (Processed.status t) "closed"
  && match Processed.soldLots t with
     | Some (_ :: _) => true
     | _ => false
     end.

(** The closed positions of one sale, one for each lot it sold from. *)
Definition equity_closed (stockName : option string) (saleItem : Processed.t)
  : list EquityClosed.t :=
  map
    (fun lot =>
       EquityClosed.mk stockName
         (text_or (StockTxn.account_name (Processed.txn saleItem)) "Unknown")
         (SoldLot.units lot)
         (SoldLot.costPrice lot)
         (StockTxn.buy_date (Processed.txn saleItem))
         (SoldLot.salePrice lot)
         (StockTxn.sell_date (Processed.txn saleItem))
         (SoldLot.units lot * SoldLot.costPrice lot)%js
         (SoldLot.units lot * SoldLot.salePrice lot)%js
         (Fin 0)
         (SoldLot.units lot * (SoldLot.salePrice lot - SoldLot.costPrice lot))%js)
    (match Processed.soldLots saleItem with
     | Some lots => lots
     | None => []
     end).

(** One round of [stockMap.forEach]; the state is
    [(equityActive, equityClosed)]. *)
Definition equity_group_step (cmpMap : JsMap.t (option string) number)
  (acc : option (list EquityActive.t * list EquityClosed.t))
  (group : option string * list StockTxn.t)
  : option (list EquityActive.t * list EquityClosed.t) :=
  let* acc := acc in
  let* state :=
    fold_left equity_step (sort by_trade_date (snd group)) (Some ([], [])) in
  let fifo := fst state in
  let processedTxns := snd state in
  let equityActive :=
    match fifo with
    | [] => fst acc
    | _ :: _ => fst acc ++ [equity_active cmpMap (fst group) (snd group) fifo]
    end in
  let equityClosed :=
    snd acc
    ++ flat_map (equity_closed (fst group))
         (filter is_closed_sale processedTxns) in
  Some (equityActive, equityClosed).

Module MfTxn.
(** A row of [mf_transactions].  The query selects neither [quantity] nor
    [category], which the function reads. *)
Record t : Type := mk {
  fund_short_name : option string;
  account_name : option string;
  units : JsValue;
  transaction_type : option string;
  nav : JsValue;
  date : DateField;
  buy_date : DateField;
  sell_date : DateField;
  buy_price : JsValue;
  quantity : JsValue;
  category : option string
}.
End MfTxn.

Module FundMaster.
(** A row of [fund_master]. *)
Record t : Type := mk {
  fund_short_name : option string;
  cmp : JsValue;
  lcp : JsValue
}.
End FundMaster.

Module PriceInfo.
Record t : Type := mk { cmp : number; lcp : number }.
End PriceInfo.

Module MfEntry.
(** An element of [purchases] and of [redemptions]. *)
Record t : Type := mk {
  units : number;
  price : number;
  date : DateField;
  txn : MfTxn.t
}.
End MfEntry.

Module MfActive.
Record t : Type := mk {
  fund_short_name : string;
  account_name : string;
  quantity : number;
  buy_price : number;
  buy_date : DateField;
  invested_amount : number;
  market_value : number;
  unrealized_gain : number;
  category : string
}.
End MfActive.

Module MfClosed.
Record t : Type := mk {
  fund_short_name : string;
  account_name : string;
  quantity : number;
  buy_price : JsValue;
  buy_date : DateField;
  sell_price : number;
  sell_date : DateField;
  invested_amount : number;
  sale_amount : number;
  charges_allocated : number;
  realized_gain : number
}.
End MfClosed.

Module Summary.
Record t : Type := mk {
  equityActive : list EquityActive.t;
  equityClosed : list EquityClosed.t;
  mfActive : list MfActive.t;
  mfClosed : list MfClosed.t
}.
End Summary.

(** [new Map((fundMaster || []).map((m) => [m.fund_short_name,
    { cmp: toNumber(m.cmp), lcp: toNumber(m.lcp) }]))] *)
Definition fundPriceMap (fundMaster : option (list FundMaster.t))
  : JsMap.t (option string) PriceInfo.t :=
  fold_left
    (fun m row =>
       JsMap.set key_eqb (FundMaster.fund_short_name row)
         (PriceInfo.mk (toNumber (FundMaster.cmp row))
            (toNumber (FundMaster.lcp row))) m)
    (rows_or_empty fundMaster) [].

(** [String(txn.fund_short_name || '').trim()] *)
Definition fund_key (txn : MfTxn.t) : string :=
  Str.trim (text_or (MfTxn.fund_short_name txn) "").

(** [txn.transaction_type && txn.transaction_type.toLowerCase()
    .includes('redeem')] *)
Definition is_redemption (txn : MfTxn.t) : bool :=
  match MfTxn.transaction_type txn with
  | Some type =>
      negb (Str.is_empty type) && Str.includes (Str.toLowerCase type) "redeem"
  | None => false
  end.

Module MfState.
Record t : Type := mk {
  activeUnits : number;
  activeInvested : number;
  purchases : list MfEntry.t;
  redemptions : list MfEntry.t
}.
End MfState.

(** The callback of [forEach] on the sorted rows of one fund. *)
Definition mf_step (state : MfState.t) (txn : MfTxn.t) : MfState.t :=
  let quantity := toNumber (MfTxn.quantity txn) in
  let price := toNumber (MfTxn.buy_price txn) in
  if is_redemption txn
  then
    MfState.mk
      (MfState.activeUnits state - quantity)%js
      (MfState.activeInvested state - quantity * price)%js
      (MfState.purchases state)
      (MfState.redemptions state
       ++ [MfEntry.mk quantity price
             (date_or (MfTxn.sell_date txn) (MfTxn.buy_date txn)) txn])
  else
    MfState.mk
      (MfState.activeUnits state + quantity)%js
      (MfState.activeInvested state + quantity * price)%js
      (MfState.purchases state
       ++ [MfEntry.mk quantity price (MfTxn.buy_date txn) txn])
      (MfState.redemptions state).

(** [new Date(a.buy_date || 0) - new Date(b.buy_date || 0)] is negative. *)
Definition mf_by_buy_date (a b : MfTxn.t) : bool :=
  Num.negative
    (time_or_epoch (MfTxn.buy_date a) - time_or_epoch (MfTxn.buy_date b))%js.

Definition mf_state (txns : list MfTxn.t) : MfState.t :=
  fold_left mf_step (sort mf_by_buy_date txns) (MfState.mk (Fin 0) (Fin 0) [] []).

(** The active position of a fund with [activeUnits > 0]. *)
Definition mf_active (prices : JsMap.t (option string) PriceInfo.t)
  (fundName : string) (txns : list MfTxn.t) (state : MfState.t) : MfActive.t :=
  let activeUnits := MfState.activeUnits state in
  let activeInvested := MfState.activeInvested state in
  let priceInfo :=
    match JsMap.get key_eqb (Some fundName) prices with
    | Some info => info
    | None => PriceInfo.mk (Fin 0) (Fin 0)
    end in
  let marketValue := (activeUnits * PriceInfo.cmp priceInfo)%js in
  MfActive.mk fundName
    (match txns with
     | first :: _ => text_or (MfTxn.account_name first) "Unknown"
     | [] => "Unknown"
     end)
    activeUnits
    (if (activeUnits >? Fin 0)%js then (activeInvested / activeUnits)%js
     else Fin 0)
    (match MfState.purchases state with
     | purchase :: _ => MfEntry.date purchase
     | [] => DfUndefined
     end)
    activeInvested marketValue (marketValue - activeInvested)%js
    (match txns with
     | first :: _ => text_or (MfTxn.category first) ""
     | [] => ""
     end).

(** The closed position of a redemption. *)
Definition mf_closed (fundName : string) (redeem : MfEntry.t) : MfClosed.t :=
  let txn := MfEntry.txn redeem in
  let cost := value_or_zero (MfTxn.buy_price txn) in
  MfClosed.mk fundName
    (text_or (MfTxn.account_name txn) "Unknown")
    (MfEntry.units redeem)
    cost
    (MfTxn.buy_date txn)
    (MfEntry.price redeem)
    (MfEntry.date redeem)
    (MfEntry.units redeem * ToNumber.of_value cost)%js
    (MfEntry.units redeem * MfEntry.price redeem)%js
    (Fin 0)
    (MfEntry.units redeem * (MfEntry.price redeem - ToNumber.of_value cost))%js.

(** One round of [fundMap.forEach]; the state is [(mfActive, mfClosed)]. *)
Definition mf_group_step (prices : JsMap.t (option string) PriceInfo.t)
  (acc : list MfActive.t * list MfClosed.t) (group : string * list MfTxn.t)
  : list MfActive.t * list MfClosed.t :=
  let state := mf_state (snd group) in
  let mfActive :=
    if (MfState.activeUnits state >? Fin 0)%js
    then fst acc ++ [mf_active prices (fst group) (snd group) state]
    else fst acc in
  (mfActive,
   snd acc ++ map (mf_closed (fst group)) (MfState.redemptions state)).

Definition getAnalysisSummary (stockTxns : option (list StockTxn.t))
  (stockMaster : option (list StockMaster.t))
  (mfTxns : option (list MfTxn.t)) (fundMaster : option (list FundMaster.t))
  : option Summary.t :=
  let cmpMap := stock_cmpMap stockMaster in
  let prices := fundPriceMap fundMaster in
  let stockMap :=
    JsMap.group_by key_eqb StockTxn.stock_name (rows_or_empty stockTxns) in
  let* equity := fold_left (equity_group_step cmpMap) stockMap (Some ([], [])) in
  let fundMap := Alist.group_by fund_key (rows_or_empty mfTxns) in
  let mf := fold_left (mf_group_step prices) fundMap ([], []) in
  Some (Summary.mk (fst equity) (snd equity) (fst mf) (snd mf)).

(* ================================================================== *)
(** * Vocabulary of the statements on the analysis service *)
(* ================================================================== *)

(** The units of a queue of stock lots, as a rational. *)
Fixpoint stock_units {T : Type} (fifo : list (StockLot.t T)) : Q :=
  match fifo with
  | [] => 0
  | lot :: rest => Num.val (StockLot.units lot) + stock_units rest
  end.

(** The units of the lot are a finite number; they are not negative. *)
Definition finite_lot {T : Type} (lot : StockLot.t T) : Prop :=
  exists u, StockLot.units lot = Fin u.

Definition sound_lot {T : Type} (lot : StockLot.t T) : Prop :=
  exists u, StockLot.units lot = Fin u /\ 0 <= u.

(** A row is a sale when it has a sale date, a purchase when it has none. *)
Definition is_stock_sale (txn : StockTxn.t) : bool :=
  JsDate.truthy (StockTxn.sell_date txn).

(** The quantity of the row is not negative; it is a whole number. *)
Definition quantity_not_negative (txn : StockTxn.t) : Prop :=
  0 <= Num.val (toNumber (StockTxn.quantity txn)).

Definition whole_quantity (txn : StockTxn.t) : Prop :=
  whole (toNumber (StockTxn.quantity txn)).

(** The running balance of the units of one stock: a purchase adds its
    quantity, a sale takes the absolute value of its quantity away, but
    never below 0. *)
Definition stock_balance_step (balance : Q) (txn : StockTxn.t) : Q :=
  let q := Num.val (toNumber (StockTxn.quantity txn)) in
  if is_stock_sale txn then Qmax 0 (balance - Qabs q) else balance + q.

Definition stock_balance (txns : list StockTxn.t) : Q :=
  fold_left stock_balance_step txns 0.

Definition stock_sales (txns : list StockTxn.t) : nat :=
  List.length (filter is_stock_sale txns).

(** [n] times [1e-6]. *)
Definition dust_of (n : nat) : Q := inject_Z (Z.of_nat n) * dust.

(** A purchase does not have a negative quantity. *)
Definition buys_not_negative (txn : StockTxn.t) : Prop :=
  is_stock_sale txn = false -> quantity_not_negative txn.

(** A lot of a whole number of units, not negative. *)
Definition whole_stock_lot {T : Type} (lot : StockLot.t T) : Prop :=
  exists u z, StockLot.units lot = Fin u /\ u == inject_Z z /\ (0 <= z)%Z.

(** The queue of one stock in the summary, without the record of the
    sales. *)
Definition equity_fifo (txns : list StockTxn.t) : option (list EquityLot) :=
  option_map fst
    (fold_left equity_step (sort by_trade_date txns) (Some ([], []))).

(** The dates of the row are dates or absent: on such rows the comparators
    of the sorts are consistent, and the order of the rows is the one a
    stable sort gives. *)
Definition dates_valid (txn : StockTxn.t) : Prop :=
  StockTxn.buy_date txn <> DfInvalid /\ StockTxn.sell_date txn <> DfInvalid.

(** The time a row is sorted by: its purchase date, else its sale date,
    else the epoch; and its purchase date, else the epoch. *)
Definition trade_time (txn : StockTxn.t) : Q :=
  Num.val
    (time_or_epoch (date_or (StockTxn.buy_date txn) (StockTxn.sell_date txn))).

Definition buy_time (txn : StockTxn.t) : Q :=
  Num.val (time_or_epoch (StockTxn.buy_date txn)).

(** The units [s] of a queue follow the running balance of the rows
    [order], taken in that order: [s] is the balance, or less by at most
    [1e-6] for each sale; with whole quantities it is the balance. *)
Definition follows_balance (order : list StockTxn.t) (s : Q) : Prop :=
  stock_balance order - dust_of (stock_sales order) <= s
  /\ s <= stock_balance order
  /\ (Forall whole_quantity order -> s == stock_balance order).

(* ================================================================== *)
(** * Sample data of the analysis service *)
(* ================================================================== *)

(** A purchase of 10, a sale of 4 of the same stock in the same account,
    and a purchase of another stock in another account. *)
Definition sample_stock_rows : list StockTxn.t :=
  [ StockTxn.mk (Some "INFY"%string) (JNum (Fin 10)) (JNum (Fin 100)) JNull
      (DfTime (JsDate.UTC 2024 1 10)) DfNull
      (Some "Free demat"%string) (Some "Stock"%string) None None;
    StockTxn.mk (Some "INFY"%string) (JNum (Fin 4)) (JNum (Fin 120))
      (JNum (Fin 130))
      (DfTime (JsDate.UTC 2024 2 10)) (DfTime (JsDate.UTC 2024 3 10))
      (Some "Free demat"%string) (Some "Stock"%string) None None;
    StockTxn.mk (Some "TCS"%string) (JStr "3") (JNum (Fin 50)) JNull
      (DfTime (JsDate.UTC 2024 2 10)) DfNull
      (Some " main "%string) (Some "Stock"%string) None None ].

Definition sample_stock_master : list StockMaster.t :=
  [ StockMaster.mk (Some "INFY"%string) (JNum (Fin 150));
    StockMaster.mk (Some "TCS"%string) (JStr "40") ].

(** The units and the price of the lot are finite numbers. *)
Definition priced_lot {T : Type} (lot : StockLot.t T) : Prop :=
  (exists u, StockLot.units lot = Fin u)
  /\ (exists p, StockLot.price lot = Fin p).

(** The figures of a listed stock: its market value is its quantity at the
    current price [c] of the stock, its profit is the market value less the
    invested amount [i], and its profit percent is the profit over [i], in
    percent, when [i] is positive, and 0 otherwise. *)
Definition valued_at (c : Q) (quantity invested marketValue profit percent
                              : number) : Prop :=
  exists q i,
    quantity = Fin q /\ invested = Fin i
    /\ Num.equiv marketValue (Fin (q * c))
    /\ Num.equiv profit (Fin (q * c - i))
    /\ (0 < i -> Num.equiv percent (Fin ((q * c - i) / i * 100)))
    /\ (i <= 0 -> percent = Fin 0).


(** The figures of a stock row of the dashboard, at the current price of
    its stock. *)
Definition stock_row_valued (cmpMap : JsMap.t (option string) number)
  (s : StockRow.t) : Prop :=
  exists c quantity,
    cmp_of cmpMap (StockRow.name s) = Fin c
    /\ valued_at c quantity (StockRow.invested s) (StockRow.marketValue s)
         (StockRow.profit s) (StockRow.percent s).

(** The profit of a stock row, as a rational. *)
Definition gain (s : StockRow.t) : Q := Num.val (StockRow.profit s).

(** [top] holds the best of the [candidates], at most [n] of them, the
    best first: a candidate that is left out is no better (by [worse_eq],
    "is not better than") than any that is in. *)
Definition best_of {A : Type} (n : nat) (worse_eq : A -> A -> Prop)
  (candidates : A -> Prop) (top : list A) : Prop :=
  (List.length top <= n)%nat
  /\ Forall candidates top
  /\ StronglySorted (fun a b => worse_eq b a) top
  /\ forall s, candidates s ->
       In s top
       \/ (List.length top = n /\ Forall (fun g => worse_eq s g) top).

(** The stock rows of the dashboard, read back from its result. *)
Definition dashboard_stocks (d : Dashboard.t) : list StockRow.t :=
  map EnrichedStock.stock (Dashboard.openEquityPositions d).

(** The figures of an account row of the dashboard: the account holds
    something, and profit and percent are those of its two sums. *)
Definition account_row_figures (a : AccountRow.t) : Prop :=
  exists i m,
    AccountRow.invested a = Fin i /\ AccountRow.marketValue a = Fin m
    /\ (0 < i \/ 0 < m)
    /\ Num.equiv (AccountRow.profit a) (Fin (m - i))
    /\ (0 < i ->
        Num.equiv (AccountRow.profitPercent a) (Fin ((m - i) / i * 100)))
    /\ (i <= 0 -> AccountRow.profitPercent a = Fin 0).

(** The row is as the query of the summary fetches it: the query does not
    select [quantity], which is then undefined. *)
Definition as_fetched (txn : MfTxn.t) : Prop :=
  MfTxn.quantity txn = JUndefined.

(** A closed position of no units. *)
Definition empty_position (c : MfClosed.t) : Prop :=
  MfClosed.quantity c = Fin 0
  /\ Num.equiv (MfClosed.sale_amount c) (Fin 0)
  /\ (Num.isFinite (ToNumber.of_value (MfClosed.buy_price c)) = true ->
      Num.equiv (MfClosed.invested_amount c) (Fin 0)
      /\ Num.equiv (MfClosed.realized_gain c) (Fin 0)).

Definition sample_mf_rows : list MfTxn.t :=
  [ MfTxn.mk (Some "Flexi Cap"%string) (Some "self"%string) (JNum (Fin 10))
      (Some "Purchase"%string) (JNum (Fin 50)) DfNull
      (DfTime (JsDate.UTC 2024 1 10)) DfNull (JNum (Fin 50)) JUndefined None;
    MfTxn.mk (Some "Flexi Cap"%string) (Some "self"%string) (JNum (Fin 4))
      (Some "Redeem"%string) (JNum (Fin 60)) DfNull
      (DfTime (JsDate.UTC 2024 2 10)) (DfTime (JsDate.UTC 2024 3 10))
      (JNum (Fin 60)) JUndefined None ].



(** The units of the records of a sale, as a rational. *)
Fixpoint sold_units (soldLots : list SoldLot.t) : Q :=
  match soldLots with
  | [] => 0
  | lot :: rest => Num.val (SoldLot.units lot) + sold_units rest
  end.

(** Where a closed equity position comes from: a sale row and a purchase
    row of its stock.  Its sale price is the [buy_price] of the sale row,
    its cost price the [buy_price] of the purchase row; account and dates
    are those of the sale row; the amounts are its quantity at the two
    prices. *)
Definition closed_from (rows : list StockTxn.t) (c : EquityClosed.t) : Prop :=
  exists sale purchase,
    In sale rows /\ In purchase rows
    /\ is_stock_sale sale = true /\ is_stock_sale purchase = false
    /\ StockTxn.stock_name sale = EquityClosed.stock_name c
    /\ StockTxn.stock_name purchase = EquityClosed.stock_name c
    /\ EquityClosed.sell_price c = toNumber (StockTxn.buy_price sale)
    /\ EquityClosed.buy_price c = toNumber (StockTxn.buy_price purchase)
    /\ EquityClosed.sell_date c = StockTxn.sell_date sale
    /\ EquityClosed.buy_date c = StockTxn.buy_date sale
    /\ EquityClosed.account_name c
       = text_or (StockTxn.account_name sale) "Unknown"
    /\ EquityClosed.invested_amount c
       = (EquityClosed.quantity c * EquityClosed.buy_price c)%js
    /\ EquityClosed.sale_amount c
       = (EquityClosed.quantity c * EquityClosed.sell_price c)%js
    /\ EquityClosed.realized_gain c
       = (EquityClosed.quantity c
          * (EquityClosed.sell_price c - EquityClosed.buy_price c))%js
    /\ EquityClosed.charges_allocated c = Fin 0.

(** The sale of the sample rows, and a queue of one lot of 10 units. *)
Definition sample_sale : StockTxn.t :=
  StockTxn.mk (Some "INFY"%string) (JNum (Fin 4)) (JNum (Fin 120))
    (JNum (Fin 130))
    (DfTime (JsDate.UTC 2024 2 10)) (DfTime (JsDate.UTC 2024 3 10))
    (Some "Free demat"%string) (Some "Stock"%string) None None.

Definition sample_queue : list EquityLot :=
  [ StockLot.mk (Fin 10) (Fin 100) (DfTime (JsDate.UTC 2024 1 10), sample_sale) ].

(* ================================================================== *)
(** * The authentication middleware: [authMiddleware] *)
(* ================================================================== *)

(** A value of JSON. *)
#[warnings="-register-all"]
Inductive Json : Type :=
| JsonNull
| JsonBool (b : bool)
| JsonNumber (n : number)
| JsonString (s : string)
| JsonArray (items : list Json)
| JsonObject (fields : list (string * Json)).

(** [payload.sub]: [None] is the TypeError of reading a property of null,
    [Some None] is undefined.  Of two fields of one name, [JSON.parse]
    keeps the last. *)
Definition payload_sub (payload : Json) : option (option Json) :=
  match payload with
  | JsonNull => None
  | JsonObject fields =>
      Some (option_map snd
              (find (fun field => String.eqb (fst field) "sub") (rev fields)))
  | _ => Some None
  end.

Module Auth.

(** What the middleware leaves on [req]: [token], and [userId] and [user]
    once the payload is read. *)
Record Request : Type := mk {
  token : option string;
  userId : option (option Json);
  user : option Json
}.

(** What the middleware does in the end: [res.status(status).json({ error })]
    or [next()]. *)
Inductive Outcome : Type :=
| Respond (status : Z) (error : string) (req : Request)
| Next (req : Request).

End Auth.

Section AuthMiddleware.

(** [JSON.parse(Buffer.from(part, 'base64').toString('utf-8'))]: [None]
    when [JSON.parse] throws. *)
Variable decode : string -> option Json.

(** [authMiddleware] (src/middleware/auth.js, lines 6-41); the argument is
    [req.headers.authorization], [None] when the header is absent. *)
Definition authMiddleware (authorization : option string) : Auth.Outcome :=
  let missing :=
    Auth.Respond 401 "Missing or invalid authorization header"
      (Auth.mk None None None) in
  match authorization with
  | None => missing
  | Some authHeader =>
      if Str.is_empty authHeader || negb (prefix "Bearer " authHeader)
      then missing
      else
        let token := Str.skip 7 authHeader in
        let invalid :=
          Auth.Respond 401 "Invalid token" (Auth.mk (Some token) None None) in
        let parts := Str.split "." token in
        if negb (List.length parts =? 3)%nat then invalid
        else
          match decode (nth 1 parts EmptyString) with
          | None => invalid
          | Some payload =>
              match payload_sub payload with
              | None => invalid
              | Some sub =>
                  Auth.Next (Auth.mk (Some token) (Some sub) (Some payload))
              end
          end
  end.

End AuthMiddleware.




(** A decoder that knows two payloads: [{}] and [{"sub":"u1"}]. *)
Definition sample_decode (part : string) : option Json :=
  if String.eqb part "e30" then Some (JsonObject [])
  else if String.eqb part "eyJzdWIiOiJ1MSJ9"
  then Some (JsonObject [("sub"%string, JsonString "u1")])
  else None.

(* ================================================================== *)
(** * Examples *)
(* ================================================================== *)

Example toNumber_plain : toNumber (JStr "1,234.50") = Fin (2469 # 2).
Proof. reflexivity. Qed.

(** The dot of "Rs." survives the stripping and starts the number. *)
Example toNumber_currency : toNumber (JStr "Rs. 1,234.50") = Fin (617 # 5000).
Proof. reflexivity. Qed.

Example toNumber_negative : toNumber (JStr "-12.5 units") = Fin (-25 # 2).
Proof. reflexivity. Qed.

Example toNumber_words : toNumber (JStr "n/a") = Fin 0.
Proof. reflexivity. Qed.

Example toNumber_boolean : toNumber (JBool true) = Fin 0.
Proof. reflexivity. Qed.

Example toNumber_object : toNumber (JObj "[object Object]") = Fin 0.
Proof. reflexivity. Qed.

(** An array of two numbers reads as the digits of both. *)
Example toNumber_array : toNumber (JObj "1,2") = Fin 12.
Proof. reflexivity. Qed.

Example toNumber_not_finite :
  toNumber (JNum NaN) = Fin 0 /\ toNumber (JNum PosInf) = Fin 0
  /\ toNumber (JNum NegInf) = Fin 0.
Proof. repeat split. Qed.

Example split_key :
  Str.split "||" "Tier I||self" = ["Tier I"; "self"]%string.
Proof. reflexivity. Qed.

Example date_of_2024_03_15 :
  JsDate.UTC 2024 3 15 = 1710460800000%Z
  /\ monthNumeric 1710460800000 = 202403%Z.
Proof. split; reflexivity. Qed.

Example month_before_the_epoch : monthNumeric (-1) = 196912%Z.
Proof. reflexivity. Qed.

Example epf_contributions :
  calculateEPFHoldings
    [ Row.epf "contribution" (JNum (Fin 100)) (JStr "50") JNull;
      Row.epf "Interest credit" (JNum (Fin 10)) JNull JNull;
      Row.epf "withdrawal" (JNum (Fin 30)) JNull JNull ]
  = Balance.mk (Fin 130) (Fin 0) (Fin 130).
Proof. reflexivity. Qed.

Example ppf_sample :
  calculatePPFHoldings sample_ppf
  = Some (Balance.mk (Fin 900) (Fin 0) (Fin 900)).
Proof. reflexivity. Qed.

Example nps_sample :
  option_map (fun r => (NPSResult.marketValue r, NPSResult.invested r))
    (calculateNPSHoldings whole_trades price_map_a)
  = Some (Fin 120, Fin 150).
Proof. reflexivity. Qed.

(* ================================================================== *)
(** * Facts about numbers *)
(* ================================================================== *)

Lemma Qlt_bool_iff (a b : Q) : Num.Qlt_bool a b = true <-> a < b.
Proof.
  unfold Num.Qlt_bool. rewrite negb_true_iff.
  destruct (Qle_bool b a) eqn:E; split; intro H; try discriminate; try reflexivity.
  - apply Qle_bool_iff in E. lra.
  - apply Qnot_le_lt. intro H'. apply Qle_bool_iff in H'. congruence.
Qed.

Lemma Qlt_bool_false_iff (a b : Q) : Num.Qlt_bool a b = false <-> b <= a.
Proof.
  unfold Num.Qlt_bool. rewrite negb_false_iff. apply Qle_bool_iff.
Qed.

Lemma Qle_bool_false_iff (a b : Q) : Qle_bool a b = false <-> b < a.
Proof.
  rewrite <- Qlt_bool_iff. unfold Num.Qlt_bool.
  destruct (Qle_bool a b); simpl; split; congruence.
Qed.

Lemma add_Fin (x y : Q) : (Fin x + Fin y)%js = Fin (Qred (x + y)).
Proof. reflexivity. Qed.
Lemma sub_Fin (x y : Q) : (Fin x - Fin y)%js = Fin (Qred (x + - y)).
Proof. reflexivity. Qed.
Lemma min_Fin (x y : Q) : Num.min (Fin x) (Fin y) = if Qle_bool x y then Fin x else Fin y.
Proof. reflexivity. Qed.
Lemma gt_Fin (x y : Q) : (Fin x >? Fin y)%js = Num.Qlt_bool y x.
Proof. reflexivity. Qed.
Lemma lt_Fin (x y : Q) : (Fin x <? Fin y)%js = Num.Qlt_bool x y.
Proof. reflexivity. Qed.
Lemma le_Fin (x y : Q) : (Fin x <=? Fin y)%js = Qle_bool x y.
Proof. reflexivity. Qed.
Lemma abs_Fin (x : Q) : Num.abs (Fin x) = Fin (Qabs x).
Proof. reflexivity. Qed.

Ltac q_bools :=
  repeat match goal with
  | H : Qle_bool _ _ = true |- _ => apply Qle_bool_iff in H
  | H : Qle_bool _ _ = false |- _ => apply Qle_bool_false_iff in H
  | H : Num.Qlt_bool _ _ = true |- _ => apply Qlt_bool_iff in H
  | H : Num.Qlt_bool _ _ = false |- _ => apply Qlt_bool_false_iff in H
  | H : Qeq_bool _ _ = true |- _ => apply Qeq_bool_iff in H
  | H : Qeq_bool _ _ = false |- _ => apply Qeq_bool_neq in H
  end.

Ltac q_red :=
  repeat match goal with
  | H : context [Qred _] |- _ => setoid_rewrite Qred_correct in H
  | |- context [Qred _] => setoid_rewrite Qred_correct
  end.

Ltac q_arith := unfold eps in *; q_bools; q_red; lra.


(** * C8: [toNumber] *)



(** * C9: the totals *)

(** C9. The [total] of [calculateBankHoldings] is [savings + demat], and the
    [total] of [calculatePPFHoldings], when it returns, is
    [invested + interest]. *)
Theorem total_is_sum_of_parts (transactions : list Row.t) :
  BankResult.total (calculateBankHoldings transactions)
  = (BankResult.savings (calculateBankHoldings transactions)
     + BankResult.demat (calculateBankHoldings transactions))%js
  /\ forall r, calculatePPFHoldings transactions = Some r ->
       Balance.total r = (Balance.invested r + Balance.interest r)%js.
Proof.
  split.
  - unfold calculateBankHoldings.
    destruct transactions as [| t ts]; [reflexivity |].
    destruct (filter is_bank_row (t :: ts)) as [| f fs]; [reflexivity |].
    destruct (negb _ || _); reflexivity.
  - intros r. unfold calculatePPFHoldings.
    destruct (fold_left ppf_group_step transactions (Some [])); [| discriminate].
    intros H. injection H as <-. reflexivity.
Qed.

Lemma total_is_sum_of_parts_witness :
  Balance.total (Balance.mk (Fin 900) (Fin 0) (Fin 900))
  = (Balance.invested (Balance.mk (Fin 900) (Fin 0) (Fin 900))
     + Balance.interest (Balance.mk (Fin 900) (Fin 0) (Fin 900)))%js.
Proof.
  apply (proj2 (total_is_sum_of_parts sample_ppf)). reflexivity.
Defined.

(* ================================================================== *)
(** * The loop of a sale *)
(* ================================================================== *)

Lemma units_sum_nonneg (lots : list Lot.t) :
  Forall open_lot lots -> 0 <= units_sum lots.
Proof.
  induction 1 as [| lot rest [u [Hu Hpos]] _ IH]; simpl; [lra |].
  rewrite Hu. simpl. unfold eps in Hpos. lra.
Qed.

Lemma sell_loop_stop (fuel : nat) (r : Q) (lots : list Lot.t) :
  r <= eps -> sell_loop (S fuel) (Fin r) lots = Some lots.
Proof.
  intros Hr. destruct lots as [| lot rest]; [reflexivity |].
  cbn [sell_loop]. unfold EPS. rewrite gt_Fin.
  replace (Num.Qlt_bool eps r) with false; [reflexivity |].
  symmetry. apply Qlt_bool_false_iff. exact Hr.
Qed.

Lemma sell_loop_step (fuel : nat) (r u : Q) (lot : Lot.t) (rest : list Lot.t) :
  Lot.units lot = Fin u -> eps < r ->
  sell_loop (S fuel) (Fin r) (lot :: rest)
  = let d := if Qle_bool r u then r else u in
    if Qle_bool (Qred (u + - d)) eps
    then sell_loop fuel (Fin (Qred (r + - d))) rest
    else sell_loop fuel (Fin (Qred (r + - d)))
           (Lot.set_units lot (Fin (Qred (u + - d))) :: rest).
Proof.
  intros Hu Hr. cbn [sell_loop]. unfold EPS. rewrite gt_Fin.
  replace (Num.Qlt_bool eps r) with true by (symmetry; apply Qlt_bool_iff; exact Hr).
  rewrite Hu, min_Fin.
  destruct (Qle_bool r u); cbn zeta; rewrite !sub_Fin; cbn [Lot.units Lot.set_units];
    rewrite le_Fin; reflexivity.
Qed.

Lemma sell_loop_spec (lots : list Lot.t) :
  forall (fuel : nat) (r : Q),
    (List.length lots + 2 <= fuel)%nat ->
    0 <= r ->
    Forall open_lot lots ->
    exists lots',
      sell_loop fuel (Fin r) lots = Some lots'
      /\ Forall open_lot lots'
      /\ (List.length lots' <= List.length lots)%nat
      /\ Qmax 0 (units_sum lots - r) - eps <= units_sum lots'
      /\ units_sum lots' <= Qmax 0 (units_sum lots - r) + eps.
Proof.
  induction lots as [| lot rest IH]; intros fuel r Hfuel Hr Hok.
  - destruct fuel as [| fuel]; [simpl in Hfuel; lia |].
    exists []. simpl. repeat split; auto;
      apply Q.max_case_strong; intros; q_arith.
  - destruct fuel as [| fuel]; [simpl in Hfuel; lia |].
    inversion Hok as [| ? ? [u [Hu Hpos]] Hrest]; subst.
    pose proof (units_sum_nonneg rest Hrest) as Hsum.
    destruct (Qlt_le_dec eps r) as [Hgt | Hsmall].
    + rewrite (sell_loop_step fuel r u lot rest Hu Hgt). cbn zeta.
      destruct (Qle_bool r u) eqn:Hle.
      * (* the sale ends inside this lot *)
        destruct fuel as [| fuel]; [simpl in Hfuel; lia |].
        rewrite !sell_loop_stop by q_arith.
        destruct (Qle_bool (Qred (u + - r)) eps) eqn:Hdrop.
        -- exists rest. split; [reflexivity |].
           cbn [units_sum List.length]. rewrite Hu. cbn [Num.val].
           repeat split; auto; apply Q.max_case_strong; intros; q_arith.
        -- eexists. split; [reflexivity |].
           cbn [units_sum List.length Lot.set_units Lot.units Num.val].
           rewrite Hu. cbn [Num.val].
           repeat split; auto.
           ++ constructor; auto. eexists. split; [reflexivity |]. q_arith.
           ++ apply Q.max_case_strong; intros; q_arith.
           ++ apply Q.max_case_strong; intros; q_arith.
      * (* the lot is used up *)
        replace (Qle_bool (Qred (u + - u)) eps) with true
          by (symmetry; apply Qle_bool_iff; q_arith).
        destruct (IH fuel (Qred (r + - u))) as [lots' [Hrun [Hok' [Hlen [Hlo Hhi]]]]]; auto.
        { simpl in Hfuel. lia. }
        { q_arith. }
        exists lots'. split; [exact Hrun |].
        cbn [units_sum List.length]. rewrite Hu. cbn [Num.val].
        revert Hlo Hhi. q_red. intros Hlo Hhi.
        repeat split; auto.
        -- revert Hlo. apply Q.max_case_strong; apply Q.max_case_strong; intros; q_arith.
        -- revert Hhi. apply Q.max_case_strong; apply Q.max_case_strong; intros; q_arith.
    + rewrite sell_loop_stop by exact Hsmall.
      exists (lot :: rest).
      cbn [units_sum List.length]. rewrite Hu. cbn [Num.val].
      repeat split; auto; apply Q.max_case_strong; intros; q_arith.
Qed.
(* ================================================================== *)
(** * Facts about the stable sort *)
(* ================================================================== *)

Section SortFacts.

Context {A : Type}.
Variable before : A -> A -> bool.

Lemma insert_In (x y : A) (l : list A) :
  In y (insert before x l) <-> y = x \/ In y l.
Proof.
  induction l as [| z l IH]; simpl.
  - intuition congruence.
  - destruct (before x z); simpl; [intuition congruence |].
    rewrite IH. intuition congruence.
Qed.

Lemma fold_insert_In (y : A) (l acc : list A) :
  In y (fold_left (fun acc x => insert before x acc) l acc)
  <-> In y l \/ In y acc.
Proof.
  revert acc. induction l as [| x l IH]; intros acc; simpl.
  - intuition.
  - rewrite IH, insert_In. intuition congruence.
Qed.

Lemma sort_In (y : A) (l : list A) : In y (sort before l) <-> In y l.
Proof.
  unfold sort. rewrite fold_insert_In. simpl. intuition.
Qed.

(** An element that precedes none of [l] goes last. *)
Lemma insert_last (x : A) (l : list A) :
  Forall (fun y => before x y = false) l ->
  insert before x l = l ++ [x].
Proof.
  induction 1 as [| y l Hy _ IH]; simpl; [reflexivity |].
  rewrite Hy, IH. reflexivity.
Qed.

(** [in_order l]: no element precedes an earlier one. *)
Definition in_order : list A -> Prop :=
  StronglySorted (fun y x => before x y = false).

Lemma in_order_snoc (l : list A) (x : A) :
  in_order (l ++ [x]) -> Forall (fun y => before x y = false) l.
Proof.
  induction l as [| y l IH]; simpl; intros H; [constructor |].
  inversion H as [| ? ? Hl Hy]; subst.
  constructor; [| apply IH; exact Hl].
  rewrite Forall_forall in Hy. apply Hy. apply in_or_app. right. left. reflexivity.
Qed.

Lemma in_order_app_l (l1 l2 : list A) : in_order (l1 ++ l2) -> in_order l1.
Proof.
  induction l1 as [| y l1 IH]; simpl; intros H; [constructor |].
  inversion H as [| ? ? Hl Hy]; subst.
  constructor; [apply IH; exact Hl |].
  rewrite Forall_forall in *. intros z Hz. apply Hy. apply in_or_app. left. exact Hz.
Qed.

Lemma fold_insert_in_order (l acc : list A) :
  in_order (acc ++ l) ->
  fold_left (fun acc x => insert before x acc) l acc = acc ++ l.
Proof.
  revert acc. induction l as [| x l IH]; intros acc H; simpl.
  - rewrite app_nil_r. reflexivity.
  - replace (acc ++ x :: l) with ((acc ++ [x]) ++ l) in *
      by (rewrite <- app_assoc; reflexivity).
    rewrite insert_last.
    + apply IH. exact H.
    + apply in_order_snoc. eapply in_order_app_l. exact H.
Qed.

(** The sort leaves a list that is in order as it is. *)
Lemma sort_in_order (l : list A) : in_order l -> sort before l = l.
Proof.
  intros H. unfold sort. rewrite fold_insert_in_order; [reflexivity | exact H].
Qed.

(** On the elements that satisfy [P] the comparator is consistent: it never
    puts two elements each before the other, and "does not come after" is
    transitive. *)
Variable P : A -> Prop.
Hypothesis before_asym :
  forall x y, P x -> P y -> before x y = true -> before y x = false.
Hypothesis before_trans :
  forall x y z, P x -> P y -> P z ->
    before y x = false -> before z y = false -> before z x = false.

Lemma insert_in_order (x : A) (l : list A) :
  P x -> Forall P l -> in_order l -> in_order (insert before x l).
Proof.
  intros Px Hl Hs. induction Hs as [| y l Hs IH Hy]; simpl.
  - repeat constructor.
  - inversion Hl as [| ? ? Py Hl']; subst.
    destruct (before x y) eqn:Hxy.
    + constructor; [constructor; assumption |].
      constructor; [apply before_asym; assumption |].
      rewrite Forall_forall in *. intros z Hz.
      apply (before_trans x y z); auto.
    + constructor; [apply IH; assumption |].
      rewrite Forall_forall in *. intros z Hz.
      apply insert_In in Hz. destruct Hz as [-> | Hz]; auto.
Qed.

Lemma insert_Forall (Q0 : A -> Prop) (x : A) (l : list A) :
  Q0 x -> Forall Q0 l -> Forall Q0 (insert before x l).
Proof.
  intros Hx Hl. rewrite Forall_forall in *. intros y Hy.
  apply insert_In in Hy. destruct Hy as [-> | Hy]; auto.
Qed.

Lemma fold_insert_sorted (l acc : list A) :
  Forall P l -> Forall P acc -> in_order acc ->
  in_order (fold_left (fun acc x => insert before x acc) l acc).
Proof.
  revert acc. induction l as [| x l IH]; intros acc Hl Hacc Hs; simpl; [exact Hs |].
  inversion Hl; subst.
  apply IH; auto using insert_Forall, insert_in_order.
Qed.

Lemma sort_sorted (l : list A) : Forall P l -> in_order (sort before l).
Proof.
  intros Hl. apply fold_insert_sorted; auto. constructor.
Qed.

End SortFacts.

(* ================================================================== *)
(** * Facts about maps *)
(* ================================================================== *)

Section AlistFacts.

Context {V : Type}.

Lemma get_set_same (key : string) (v : V) (m : Alist.t V) :
  Alist.get key (Alist.set key v m) = Some v.
Proof.
  induction m as [| [k w] m IH]; simpl.
  - rewrite String.eqb_refl. reflexivity.
  - destruct (String.eqb k key) eqn:E; simpl; rewrite E; auto.
Qed.

Lemma get_set_other (key key' : string) (v : V) (m : Alist.t V) :
  key' <> key ->
  Alist.get key' (Alist.set key v m) = Alist.get key' m.
Proof.
  intros Hne. induction m as [| [k w] m IH]; simpl.
  - destruct (String.eqb key key') eqn:E; [| reflexivity].
    apply String.eqb_eq in E. congruence.
  - destruct (String.eqb k key) eqn:E; simpl.
    + apply String.eqb_eq in E. subst k.
      destruct (String.eqb key key') eqn:E'; [| reflexivity].
      apply String.eqb_eq in E'. congruence.
    + rewrite IH. reflexivity.
Qed.

End AlistFacts.
(* ================================================================== *)
(** * The lots of the NPS aggregator *)
(* ================================================================== *)

Lemma units_sum_app (l1 l2 : list Lot.t) :
  units_sum (l1 ++ l2) == units_sum l1 + units_sum l2.
Proof.
  induction l1 as [| lot l1 IH]; simpl; [lra | rewrite IH; lra].
Qed.

Lemma somes_In {A : Type} (x : A) (l : list (option A)) :
  In x (somes l) <-> In (Some x) l.
Proof.
  induction l as [| [y |] l IH]; simpl.
  - tauto.
  - rewrite IH. split; intros [H | H]; auto; left; congruence.
  - rewrite IH. split; [auto | intros [H | H]; [discriminate | auto]].
Qed.

(** Every prepared transaction moves more than [1e-8] units. *)
Lemma prepared_units (transactions : list Row.t) (p : Prepared.t) :
  In p (preparedTransactions transactions) ->
  exists u, Prepared.units p = Fin u /\ eps < Qabs u.
Proof.
  unfold preparedTransactions. rewrite sort_In, somes_In, filter_In.
  intros [_ Hkeep]. cbn [keep_prepared] in Hkeep.
  destruct (Prepared.units p) as [| | | u]; try discriminate.
  exists u. split; [reflexivity |].
  cbn [Num.isFinite andb] in Hkeep. unfold EPS in Hkeep.
  rewrite abs_Fin, gt_Fin in Hkeep.
  apply Qlt_bool_iff in Hkeep. exact Hkeep.
Qed.

Lemma open_new_lot (p : Prepared.t) (u : Q) :
  Prepared.units p = Fin u -> eps < Qabs u -> is_buy p = true ->
  open_lot (new_lot p) /\ Num.val (Lot.units (new_lot p)) = u /\ 0 < u.
Proof.
  intros Hu Habs Hbuy. unfold is_buy in Hbuy.
  apply andb_true_iff in Hbuy. destruct Hbuy as [_ Hpos].
  rewrite Hu, gt_Fin in Hpos. apply Qlt_bool_iff in Hpos.
  unfold open_lot, new_lot. cbn [Lot.units]. rewrite Hu.
  repeat split; auto. exists u. split; [reflexivity |].
  rewrite Qabs_pos in Habs by lra. exact Habs.
Qed.

(** What one transaction does to the units of a queue of open lots. *)
Lemma apply_txn_spec (p : Prepared.t) (lots : list Lot.t) (u : Q) :
  Prepared.units p = Fin u -> eps < Qabs u -> Forall open_lot lots ->
  exists lots',
    apply_txn p lots = Some lots'
    /\ Forall open_lot lots'
    /\ let b := balance_step (nps_key p) (units_sum lots) p in
       let e := if is_sale p then eps else 0 in
       b - e <= units_sum lots' /\ units_sum lots' <= b + e.
Proof.
  intros Hu Habs Hok.
  unfold apply_txn, balance_step, is_sale.
  rewrite String.eqb_refl. cbn [negb].
  fold (is_buy p). destruct (is_buy p) eqn:Hbuy; cbn [negb andb].
  - destruct (open_new_lot p u Hu Habs Hbuy) as [Hopen [Hval Hpos]].
    eexists. split; [reflexivity |]. split.
    + apply Forall_app. split; [exact Hok | constructor; [exact Hopen | constructor]].
    + cbn zeta. rewrite units_sum_app. cbn [units_sum]. rewrite Hval, Hu.
      cbn [Num.val]. split; lra.
  - destruct (isSaleType (Prepared.type p) (Prepared.units p)) eqn:Hsale.
    + unfold sell. rewrite Hu, abs_Fin.
      destruct (sell_loop_spec lots (List.length lots + 2) (Qabs u))
        as [lots' [Hrun [Hok' [_ [Hlo Hhi]]]]]; auto.
      { apply Qabs_nonneg. }
      exists lots'. cbn [Num.val]. auto.
    + exists lots. repeat split; auto; cbn zeta; lra.
Qed.

Lemma lots_of_set_same (key : string) (lots : list Lot.t)
  (m : Alist.t (list Lot.t)) :
  lots_of key (Alist.set key lots m) = lots.
Proof. unfold lots_of. rewrite get_set_same. reflexivity. Qed.

Lemma lots_of_set_other (key key' : string) (lots : list Lot.t)
  (m : Alist.t (list Lot.t)) :
  key' <> key -> lots_of key' (Alist.set key lots m) = lots_of key' m.
Proof. intros H. unfold lots_of. rewrite get_set_other by exact H. reflexivity. Qed.

Lemma tolerance_S (n : nat) : tolerance (S n) == tolerance n + eps.
Proof.
  unfold tolerance. rewrite Nat2Z.inj_succ. unfold Z.succ.
  rewrite inject_Z_plus. ring.
Qed.

Lemma sales_count_cons (key : string) (p : Prepared.t) (ps : list Prepared.t) :
  sales_count key (p :: ps)
  = ((if String.eqb (nps_key p) key && is_sale p then 1 else 0)
     + sales_count key ps)%nat.
Proof.
  unfold sales_count. cbn [filter].
  destruct (String.eqb (nps_key p) key && is_sale p); reflexivity.
Qed.

(** The whole run: it never runs out of fuel, every queue holds open lots
    only, and the units of a key stay within one [1e-8] per sale of its
    running balance. *)
Lemma nps_fold_spec (key : string) (ps : list Prepared.t) :
  forall (m : Alist.t (list Lot.t)) (b : Q) (n : nat),
    (forall p, In p ps -> exists u, Prepared.units p = Fin u /\ eps < Qabs u) ->
    (forall k, Forall open_lot (lots_of k m)) ->
    b - tolerance n <= units_sum (lots_of key m) ->
    units_sum (lots_of key m) <= b + tolerance n ->
    exists m',
      fold_left nps_step ps (Some m) = Some m'
      /\ (forall k, Forall open_lot (lots_of k m'))
      /\ fold_left (balance_step key) ps b - tolerance (n + sales_count key ps)
         <= units_sum (lots_of key m')
      /\ units_sum (lots_of key m')
         <= fold_left (balance_step key) ps b + tolerance (n + sales_count key ps).
Proof.
  induction ps as [| p ps IH]; intros m b n Hps Hopen Hlo Hhi.
  - exists m. cbn [fold_left]. unfold sales_count. cbn [filter List.length].
    rewrite Nat.add_0_r. auto.
  - destruct (Hps p (or_introl eq_refl)) as [u [Hu Habs]].
    destruct (apply_txn_spec p (lots_of (nps_key p) m) u Hu Habs (Hopen _))
      as [lots' [Hrun [Hok' [Hlo' Hhi']]]].
    cbn [fold_left]. cbn [nps_step]. rewrite Hrun.
    rewrite sales_count_cons.
    set (m1 := Alist.set (nps_key p) lots' m).
    assert (Hopen1 : forall k, Forall open_lot (lots_of k m1)).
    { intros k. destruct (string_dec k (nps_key p)) as [-> | Hne].
      - unfold m1. rewrite lots_of_set_same. exact Hok'.
      - unfold m1. rewrite lots_of_set_other by exact Hne. apply Hopen. }
    destruct (String.eqb (nps_key p) key) eqn:Hkey.
    + apply String.eqb_eq in Hkey.
      assert (Hb : balance_step key b p - tolerance (n + (if is_sale p then 1 else 0))
                   <= units_sum (lots_of key m1)
                   /\ units_sum (lots_of key m1)
                      <= balance_step key b p + tolerance (n + (if is_sale p then 1 else 0))).
      { unfold m1. rewrite <- Hkey, lots_of_set_same.
        rewrite <- Hkey in Hlo, Hhi.
        revert Hlo' Hhi'. cbn zeta. unfold balance_step.
        rewrite String.eqb_refl. cbn [negb].
        unfold is_sale. destruct (is_buy p); cbn [negb andb].
        - rewrite Nat.add_0_r. intros; split; lra.
        - destruct (isSaleType _ _).
          + replace (n + 1)%nat with (S n) by lia. rewrite tolerance_S.
            revert Hlo Hhi.
            set (s := units_sum (lots_of (nps_key p) m)).
            set (r := Qabs (Num.val (Prepared.units p))).
            intros Hlo Hhi.
            do 2 apply Q.max_case_strong; intros; split; lra.
          + rewrite Nat.add_0_r. intros; split; lra. }
      destruct Hb as [Hb1 Hb2].
      destruct (IH m1 (balance_step key b p) (n + (if is_sale p then 1 else 0))%nat)
        as [m' [Hfold [Hopen' [Hlo2 Hhi2]]]]; auto.
      { intros q Hq. apply Hps. right. exact Hq. }
      exists m'. cbn [andb]. rewrite <- Nat.add_assoc in Hlo2, Hhi2. auto.
    + assert (Hne : key <> nps_key p).
      { intros ->. rewrite String.eqb_refl in Hkey. discriminate. }
      destruct (IH m1 (balance_step key b p) n) as [m' [Hfold [Hopen' [Hlo2 Hhi2]]]]; auto.
      { intros q Hq. apply Hps. right. exact Hq. }
      { unfold m1. rewrite lots_of_set_other by exact Hne.
        unfold balance_step. rewrite Hkey. exact Hlo. }
      { unfold m1. rewrite lots_of_set_other by exact Hne.
        unfold balance_step. rewrite Hkey. exact Hhi. }
      exists m'. cbn [andb]. auto.
Qed.
(** ** Whole units *)

Lemma inject_Z_nonneg (z : Z) : (0 <= z)%Z <-> 0 <= inject_Z z.
Proof. unfold Qle, inject_Z. simpl. lia. Qed.






Lemma some_eq {A : Type} (x y : A) : Some x = Some y -> x = y.
Proof. congruence. Qed.

Lemma units_set_units (lot : Lot.t) (u : number) :
  Lot.units (Lot.set_units lot u) = u.
Proof. reflexivity. Qed.

Lemma units_sum_cons (lot : Lot.t) (rest : list Lot.t) :
  units_sum (lot :: rest) = Num.val (Lot.units lot) + units_sum rest.
Proof. reflexivity. Qed.





Lemma openLots_open (lots : list Lot.t) :
  Forall open_lot lots -> openLots lots = lots.
Proof.
  induction 1 as [| lot rest [u [Hu Hpos]] _ IH]; [reflexivity |].
  unfold openLots in *. cbn [filter]. rewrite IH, Hu. unfold EPS.
  rewrite gt_Fin.
  replace (Num.Qlt_bool eps u) with true by (symmetry; apply Qlt_bool_iff; exact Hpos).
  reflexivity.
Qed.

Lemma totalUnits_from (lots : list Lot.t) :
  Forall open_lot lots ->
  forall a, exists s,
    fold_left (fun sum lot => sum + Lot.units lot)%js lots (Fin a) = Fin s
    /\ s == a + units_sum lots.
Proof.
  induction 1 as [| lot rest [u [Hu Hpos]] _ IH]; intros a.
  - exists a. split; [reflexivity | cbn [units_sum]; lra].
  - cbn [fold_left]. rewrite Hu, add_Fin.
    destruct (IH (Qred (a + u))) as [s [Hs Heq]].
    exists s. split; [exact Hs |].
    rewrite Heq, Qred_correct, units_sum_cons, Hu. cbn [Num.val]. lra.
Qed.

Lemma totalUnits_open (lots : list Lot.t) :
  Forall open_lot lots ->
  exists s, totalUnits (openLots lots) = Fin s /\ s == units_sum lots.
Proof.
  intros H. rewrite openLots_open by exact H.
  destruct (totalUnits_from lots H 0) as [s [Hs Heq]].
  exists s. split; [exact Hs | rewrite Heq; lra].
Qed.

Lemma tolerance_0 : tolerance 0 == 0.
Proof. reflexivity. Qed.

(** * C3: conservation of units *)



(** * C10: a buy with negative units *)



(** * C4: first in, first out *)














(** * C5: the withdrawal of the accumulators *)

Lemma Qmin_if (a b : Q) : (if Qle_bool a b then a else b) == Qmin a b.
Proof.
  destruct (Qle_bool a b) eqn:E; q_bools.
  - symmetry. apply Q.min_l. exact E.
  - symmetry. apply Q.min_r. lra.
Qed.

(** The withdrawal on finite buckets, in rationals. *)
Lemma min_Fin_if (x y : Q) :
  Num.min (Fin x) (Fin y) = Fin (if Qle_bool x y then x else y).
Proof. rewrite min_Fin. destruct (Qle_bool x y); reflexivity. Qed.

Lemma withdraw_Fin (a p i : Q) :
  exists p' i',
    withdraw (Fin a) (Fin p, Fin i) = (Fin p', Fin i')
    /\ i' == i - Qmin a i
    /\ p' == p - Qmin (a - Qmin a i) p
    /\ 0 <= i' /\ 0 <= p'.
Proof.
  unfold withdraw. rewrite min_Fin_if, !sub_Fin, min_Fin_if, sub_Fin.
  do 2 eexists. split; [reflexivity |].
  assert (Hi : Qred (i + - (if Qle_bool a i then a else i)) == i - Qmin a i).
  { rewrite Qred_correct, Qmin_if. ring. }
  assert (Hr : Qred (a + - (if Qle_bool a i then a else i)) == a - Qmin a i).
  { rewrite Qred_correct, Qmin_if. ring. }
  assert (Hp : Qred (p + - (if Qle_bool (Qred (a + - (if Qle_bool a i then a else i))) p
                            then Qred (a + - (if Qle_bool a i then a else i))
                            else p))
               == p - Qmin (a - Qmin a i) p).
  { rewrite Qred_correct, Qmin_if, Hr. ring. }
  rewrite Hi, Hp. repeat split; try reflexivity.
  - pose proof (Q.le_min_r a i). lra.
  - pose proof (Q.le_min_r (a - Qmin a i) p). lra.
Qed.

Lemma ppf_step_withdrawal (buckets : number * number) (txn : Row.t) :
  ppf_type txn = "withdrawal"%string ->
  ppf_txn_step buckets txn = withdraw (toNumber (Row.amount txn)) buckets.
Proof.
  intros H. unfold ppf_txn_step. fold (ppf_type txn). rewrite H. reflexivity.
Qed.

Lemma ppf_grouped_more (account : string) (rows : list Row.t) :
  Forall (fun txn => text_or (Row.account_name txn) "unknown" = account) rows ->
  forall l0,
    fold_left ppf_group_step rows (Some [(account, l0)])
    = Some [(account, l0 ++ rows)].
Proof.
  induction 1 as [| txn rows Hk _ IH]; intros l0; cbn [fold_left].
  - rewrite app_nil_r. reflexivity.
  - cbn [ppf_group_step]. rewrite Hk.
    unfold Alist.has, Alist.push. cbn [Alist.get]. rewrite String.eqb_refl.
    cbn [Alist.set]. rewrite String.eqb_refl, IH, <- app_assoc. reflexivity.
Qed.

(** The rows of one account, not named like a member of
    [Object.prototype], make one group. *)
Lemma ppf_grouped_one_account (account : string) (txn : Row.t)
  (rows : list Row.t) :
  JsObject.inherited account = false ->
  Forall (fun txn => text_or (Row.account_name txn) "unknown" = account)
    (txn :: rows) ->
  fold_left ppf_group_step (txn :: rows) (Some [])
  = Some [(account, txn :: rows)].
Proof.
  intros Hinh Hall.
  pose proof (Forall_inv Hall) as Hk. pose proof (Forall_inv_tail Hall) as Hrest.
  cbn beta in Hk. cbn [fold_left ppf_group_step]. rewrite Hk.
  cbn [Alist.has Alist.get]. rewrite Hinh.
  cbn [Alist.push Alist.get Alist.set].
  apply (ppf_grouped_more _ rows Hrest [txn]).
Qed.

Lemma values_single {V : Type} (key : string) (v : V) :
  JsObject.values [(key, v)] = [v].
Proof.
  unfold JsObject.values. cbn [filter fst].
  destruct (JsObject.is_array_index key); reflexivity.
Qed.

Lemma ppf_dated_in_order (rows : list Row.t) :
  StronglySorted dated_not_after rows ->
  in_order (fun a b => Num.negative
                         (JsDate.time (Row.txn_date a)
                          - JsDate.time (Row.txn_date b))%js) rows.
Proof.
  induction 1 as [| a rows _ IH Ha]; constructor; [exact IH |].
  eapply Forall_impl; [| exact Ha].
  intros b [ta [tb [Hta [Htb Hle]]]]. unfold Num.negative.
  rewrite Hta, Htb, sub_Fin, lt_Fin. apply Qlt_bool_false_iff. q_arith.
Qed.

(** Deposits and interest credits add up bucket by bucket. *)
Lemma ppf_credits_fold (credits : list Row.t) :
  Forall (fun txn => ppf_type txn = "deposit"%string
                     \/ ppf_type txn = "interest"%string) credits ->
  forall b1 b2,
    fold_left ppf_txn_step credits (b1, b2)
    = (fold_left
         (fun sum txn =>
            if String.eqb (ppf_type txn) "deposit"
            then (sum + toNumber (Row.amount txn))%js else sum) credits b1,
       fold_left
         (fun sum txn =>
            if String.eqb (ppf_type txn) "interest"
            then (sum + toNumber (Row.amount txn))%js else sum) credits b2).
Proof.
  induction 1 as [| txn credits Hty _ IH]; intros b1 b2; [reflexivity |].
  cbn [fold_left]. rewrite <- IH. f_equal.
  unfold ppf_txn_step. fold (ppf_type txn).
  destruct Hty as [-> | ->]; reflexivity.
Qed.

(** C5.  A withdrawal takes [min(amount, interest)] from the interest
    bucket and what is left of the amount from the principal bucket, and
    leaves neither bucket negative; and an account with deposits of 1000 in
    all and interest of 200 in all, followed by a withdrawal of 300, ends
    with interest 0 and invested 900. *)
Theorem withdrawal_takes_interest_first :
  (forall txn buckets,
     ppf_type txn = "withdrawal"%string ->
     ppf_txn_step buckets txn = withdraw (toNumber (Row.amount txn)) buckets)
  /\ (forall a p i, exists p' i',
        withdraw (Fin a) (Fin p, Fin i) = (Fin p', Fin i')
        /\ i' == i - Qmin a i
        /\ p' == p - Qmin (a - Qmin a i) p
        /\ 0 <= i' /\ 0 <= p')
  /\ (forall (account : string) (credits : list Row.t) (w : Row.t),
        JsObject.inherited account = false ->
        Forall (fun txn => text_or (Row.account_name txn) "unknown" = account)
          (credits ++ [w]) ->
        Forall (fun txn => ppf_type txn = "deposit"%string
                           \/ ppf_type txn = "interest"%string) credits ->
        Num.equiv (credited "deposit" credits) (Fin 1000) ->
        Num.equiv (credited "interest" credits) (Fin 200) ->
        ppf_type w = "withdrawal"%string ->
        Num.equiv (toNumber (Row.amount w)) (Fin 300) ->
        StronglySorted dated_not_after (credits ++ [w]) ->
        exists r,
          calculatePPFHoldings (credits ++ [w]) = Some r
          /\ Num.equiv (Balance.invested r) (Fin 900)
          /\ Num.equiv (Balance.interest r) (Fin 0)
          /\ Num.equiv (Balance.total r) (Fin 900)).
Proof.
  split; [exact (fun txn buckets => ppf_step_withdrawal buckets txn) |].
  split; [exact withdraw_Fin |].
  intros account credits w Hinh Hacc Hty Hdep Hint Hw Hamt Hdates.
  unfold calculatePPFHoldings.
  assert (Hgroup : fold_left ppf_group_step (credits ++ [w]) (Some [])
                   = Some [(account, credits ++ [w])]).
  { destruct (credits ++ [w]) as [| txn rows] eqn:E.
    - destruct credits; discriminate.
    - apply ppf_grouped_one_account; assumption. }
  rewrite Hgroup, values_single. cbn [fold_left].
  unfold ppf_account_step, ppf_account.
  rewrite sort_in_order by (apply ppf_dated_in_order; exact Hdates).
  rewrite fold_left_app, (ppf_credits_fold credits Hty). cbn [fold_left].
  fold (credited "deposit" credits). fold (credited "interest" credits).
  rewrite (ppf_step_withdrawal _ w Hw).
  destruct (credited "deposit" credits) as [| | | x]; try contradiction.
  destruct (credited "interest" credits) as [| | | y]; try contradiction.
  destruct (toNumber (Row.amount w)) as [| | | a]; try contradiction.
  cbn [Num.equiv] in Hdep, Hint, Hamt.
  destruct (withdraw_Fin a x y) as [p' [i' [Hwd [Hi [Hp _]]]]].
  rewrite Hwd. eexists. split; [reflexivity |].
  cbn [Balance.invested Balance.interest Balance.total fst snd].
  rewrite !add_Fin. cbn [Num.equiv]. rewrite !Qred_correct.
  assert (Hi0 : i' == 0).
  { rewrite Hi, Hamt, Hint. rewrite Q.min_r by lra. lra. }
  assert (Hp9 : p' == 900).
  { rewrite Hp, Hamt, Hint, Hdep. rewrite (Q.min_r 300 200) by lra.
    rewrite Q.min_l by lra. lra. }
  rewrite Hi0, Hp9. repeat split; lra.
Qed.

Lemma withdrawal_takes_interest_first_witness :
  exists r,
    calculatePPFHoldings (ppf_credits ++ [ppf_withdrawal]) = Some r
    /\ Num.equiv (Balance.invested r) (Fin 900)
    /\ Num.equiv (Balance.interest r) (Fin 0)
    /\ Num.equiv (Balance.total r) (Fin 900).
Proof.
  apply (proj2 (proj2 withdrawal_takes_interest_first) "home"%string).
  - reflexivity.
  - repeat constructor.
  - repeat constructor; (left; reflexivity) || (right; reflexivity).
  - vm_compute. reflexivity.
  - vm_compute. reflexivity.
  - reflexivity.
  - vm_compute. reflexivity.
  - repeat constructor;
      (eexists; eexists; split; [reflexivity | split; [reflexivity |]];
       vm_compute; discriminate).
Defined.
(** * C2: the bank snapshot *)







(** ** The groups *)

Section GroupFacts.

Context {A : Type}.
Variable key_of : A -> string.

Local Abbreviation grouped := (Alist.group_by key_of).
Local Abbreviation group_of := Alist.get_list.

Lemma get_not_in (k : string) (groups : Alist.t (list A)) :
  Alist.get k groups = None -> ~ In k (map fst groups).
Proof.
  induction groups as [| [k' l] groups IH]; cbn [Alist.get map fst]; [tauto |].
  destruct (String.eqb k' k) eqn:E; [discriminate |].
  intros H [-> | Hin]; [rewrite String.eqb_refl in E; discriminate |].
  apply IH; assumption.
Qed.

Lemma in_get (k : string) (l : list A) (groups : Alist.t (list A)) :
  NoDup (map fst groups) -> In (k, l) groups -> Alist.get k groups = Some l.
Proof.
  induction groups as [| [k' l'] groups IH]; cbn [Alist.get map fst];
    intros Hnd Hin; [destruct Hin |].
  inversion Hnd as [| ? ? Hk Hnd']; subst.
  destruct Hin as [Heq | Hin].
  - injection Heq as -> ->. rewrite String.eqb_refl. reflexivity.
  - destruct (String.eqb k' k) eqn:E.
    + apply String.eqb_eq in E. subst k'. destruct Hk.
      apply (in_map fst) in Hin. exact Hin.
    + apply IH; assumption.
Qed.

Lemma set_keys (k : string) (l : list A) (groups : Alist.t (list A)) :
  map fst (Alist.set k l groups)
  = if Alist.has k groups then map fst groups else map fst groups ++ [k].
Proof.
  unfold Alist.has.
  induction groups as [| [k' l'] groups IH]; cbn [Alist.set Alist.get map fst];
    [reflexivity |].
  destruct (String.eqb k' k) eqn:E; cbn [map fst]; [reflexivity |].
  rewrite IH. destruct (Alist.get k groups); reflexivity.
Qed.

Lemma push_keys_nodup (k : string) (x : A) (groups : Alist.t (list A)) :
  NoDup (map fst groups) -> NoDup (map fst (Alist.push k x groups)).
Proof.
  intros Hnd. unfold Alist.push.
  destruct (Alist.get k groups) as [l |] eqn:E; rewrite set_keys;
    unfold Alist.has; rewrite E; [exact Hnd |].
  apply NoDup_app; [exact Hnd | repeat constructor; intros [] |].
  intros y Hy [<- | []]. revert Hy. apply get_not_in. exact E.
Qed.

Lemma group_of_push (k k' : string) (x : A) (groups : Alist.t (list A)) :
  group_of k' (Alist.push k x groups)
  = if String.eqb k k' then group_of k' groups ++ [x] else group_of k' groups.
Proof.
  unfold Alist.get_list, Alist.push.
  destruct (String.eqb k k') eqn:E.
  - apply String.eqb_eq in E. subst k'.
    destruct (Alist.get k groups); rewrite get_set_same; reflexivity.
  - assert (k' <> k) by (intros ->; rewrite String.eqb_refl in E; discriminate).
    destruct (Alist.get k groups); rewrite get_set_other by assumption;
      reflexivity.
Qed.

Lemma grouped_from (rows : list A) :
  forall (groups : Alist.t (list A)) (seen : list A),
    NoDup (map fst groups) ->
    (forall k, group_of k groups
               = filter (fun x => String.eqb (key_of x) k) seen) ->
    NoDup (map fst
             (fold_left (fun groups x => Alist.push (key_of x) x groups)
                rows groups))
    /\ forall k,
         group_of k
           (fold_left (fun groups x => Alist.push (key_of x) x groups)
              rows groups)
         = filter (fun x => String.eqb (key_of x) k) (seen ++ rows).
Proof.
  induction rows as [| x rows IH]; intros groups seen Hnd Hg; cbn [fold_left].
  - rewrite app_nil_r. auto.
  - replace (seen ++ x :: rows) with ((seen ++ [x]) ++ rows)
      by (rewrite <- app_assoc; reflexivity).
    apply IH; [apply push_keys_nodup; exact Hnd |].
    intros k. rewrite group_of_push, filter_app, Hg. cbn [filter].
    destruct (String.eqb (key_of x) k); [reflexivity | rewrite app_nil_r; reflexivity].
Qed.

(** Each group holds the rows of its key, in the order of the input. *)
Lemma grouped_spec (rows : list A) :
  Forall (fun group =>
            snd group = filter (fun x => String.eqb (key_of x) (fst group)) rows)
    (grouped rows).
Proof.
  destruct (grouped_from rows [] []) as [Hnd Hg]; [constructor | reflexivity |].
  apply Forall_forall. intros [k l] Hin. cbn [fst snd].
  cbn [app] in Hg. rewrite <- Hg. unfold Alist.get_list, Alist.group_by in *.
  rewrite (in_get k l _ Hnd Hin). reflexivity.
Qed.

End GroupFacts.

(** ** The pick of one group *)












(* ================================================================== *)
(** * The rate solver *)
(* ================================================================== *)

Lemma bisect_ext (f g : float -> float) :
  (forall rate, f rate = g rate) ->
  forall i low high mid, bisect f i low high mid = bisect g i low high mid.
Proof.
  intros Hfg. induction i as [| i IH]; intros low high mid; [reflexivity |].
  cbn [bisect]. rewrite Hfg, !IH. reflexivity.
Qed.

Lemma pow_0_1_laws : pow_laws pow_0_1.
Proof. split; intros x; reflexivity. Qed.

(** * C6: the one-year sanity case *)

Lemma one_year_cashflows :
  xirr_cashflows one_year_flows
  = [ Cashflow.mk (-100000)%float 0%float;
      Cashflow.mk 110000%float 31536000000%float ].
Proof. vm_compute. reflexivity. Qed.

(** The net present value of the two cashflows: the first is not
    discounted, the second is discounted over exactly one year. *)
Lemma one_year_npv (Math_pow : float -> float -> float) (rate : float) :
  pow_laws Math_pow ->
  npv Math_pow
    [ Cashflow.mk (-100000)%float 0%float;
      Cashflow.mk 110000%float 31536000000%float ] 0%float rate
  = (0 + -100000 / 1 + 110000 / (1 + rate))%float.
Proof.
  intros [Hzero Hone]. unfold npv.
  cbn [fold_left Cashflow.amount Cashflow.date].
  change ((0 - 0) / MS_PER_YEAR)%float with 0%float.
  change ((31536000000 - 0) / MS_PER_YEAR)%float with 1%float.
  rewrite Hzero, Hone. reflexivity.
Qed.

(** C6.  For the cashflows -100000 on day 0 and +110000 on day 365,
    [calculateXirr] returns the double 9.999999999835671, which is within
    0.1 of 10: the bisection stops once the net present value is below 1e-6
    in absolute value. *)
Theorem xirr_one_year_is_ten_percent (Math_pow : float -> float -> float) :
  pow_laws Math_pow ->
  calculateXirr Math_pow (Some one_year_flows) = 0x1.3fffffffe96a3p+3%float
  /\ (PrimFloat.abs (calculateXirr Math_pow (Some one_year_flows) - 10)
      <? 0x1.999999999999ap-4)%float = true.
Proof.
  intros Hpow.
  assert (Hrun : calculateXirr Math_pow (Some one_year_flows)
                 = 0x1.3fffffffe96a3p+3%float).
  { unfold calculateXirr.
    change (List.length one_year_flows <? 2)%nat with false. cbn iota.
    rewrite one_year_cashflows. cbn [Cashflow.date].
    rewrite (bisect_ext _ (fun rate => 0 + -100000 / 1 + 110000 / (1 + rate))%float)
      by (intros rate; apply one_year_npv; exact Hpow).
    vm_compute. reflexivity. }
  rewrite Hrun. split; reflexivity.
Qed.

Lemma xirr_one_year_is_ten_percent_witness :
  calculateXirr pow_0_1 (Some one_year_flows) = 0x1.3fffffffe96a3p+3%float.
Proof.
  exact (proj1 (xirr_one_year_is_ten_percent pow_0_1 pow_0_1_laws)).
Defined.

(** * C1: fewer than two cashflows *)

Lemma one_live_cashflow :
  xirr_cashflows one_live_flow
  = [ Cashflow.mk 100%float 1704067200000%float ].
Proof. vm_compute. reflexivity. Qed.

Lemma one_live_npv (Math_pow : float -> float -> float) (rate : float) :
  pow_laws Math_pow ->
  npv Math_pow [ Cashflow.mk 100%float 1704067200000%float ]
    1704067200000%float rate
  = (0 + 100 / 1)%float.
Proof.
  intros [Hzero _]. unfold npv.
  cbn [fold_left Cashflow.amount Cashflow.date].
  change ((1704067200000 - 1704067200000) / MS_PER_YEAR)%float with 0%float.
  rewrite Hzero. reflexivity.
Qed.

(** C1 does not hold of the code.  Of two flows one has amount 0: one
    cashflow is left, the guard after the filter only stops an empty list,
    the net present value is the constant 100, and the bisection climbs to
    the upper end of its interval: the result is 10000 (percent), not 0. *)
Theorem xirr_of_one_cashflow_is_not_zero
  (Math_pow : float -> float -> float) :
  pow_laws Math_pow ->
  List.length (xirr_cashflows one_live_flow) = 1%nat
  /\ calculateXirr Math_pow (Some one_live_flow) = 10000%float.
Proof.
  intros Hpow. split; [rewrite one_live_cashflow; reflexivity |].
  unfold calculateXirr.
  change (List.length one_live_flow <? 2)%nat with false. cbn iota.
  rewrite one_live_cashflow. cbn [Cashflow.date].
  rewrite (bisect_ext _ (fun rate => 0 + 100 / 1)%float)
    by (intros rate; apply one_live_npv; exact Hpow).
  vm_compute. reflexivity.
Qed.

Lemma xirr_of_one_cashflow_is_not_zero_witness :
  calculateXirr pow_0_1 (Some one_live_flow) = 10000%float.
Proof.
  exact (proj2 (xirr_of_one_cashflow_is_not_zero pow_0_1 pow_0_1_laws)).
Defined.


(* ================================================================== *)
(** * C7: the aggregators are functions of their inputs *)
(* ================================================================== *)





(* ================================================================== *)
(** * Further facts *)
(* ================================================================== *)

(** The calendar: from the first millisecond of the first day of a month to
    the last millisecond of its 28th day, the month number is the year
    times 100 plus the month. *)
Lemma month_of_civil_dates :
  forallb
    (fun y =>
       forallb
         (fun m =>
            (monthNumeric (JsDate.UTC y m 1) =? y * 100 + m)%Z
            && (monthNumeric (JsDate.UTC y m 28 + JsDate.MS_PER_DAY - 1)
                =? y * 100 + m)%Z)
         months)
    sample_years = true.
Proof. vm_compute. reflexivity. Qed.

(** [calculateNPSHoldings] returns on every input: no sale runs out of the
    [lots.length + 2] rounds its loop is given. *)
Theorem calculateNPSHoldings_returns
  (transactions : list Row.t) (cmpMap : string -> option number) :
  exists r, calculateNPSHoldings transactions cmpMap = Some r.
Proof.
  destruct (nps_fold_spec EmptyString (preparedTransactions transactions) [] 0 0)
    as [m [Hrun _]].
  - intros p Hp. apply (prepared_units transactions). exact Hp.
  - intros k. constructor.
  - change (units_sum (lots_of EmptyString [])) with 0.
    rewrite tolerance_0. lra.
  - change (units_sum (lots_of EmptyString [])) with 0.
    rewrite tolerance_0. lra.
  - assert (H : lotsByScheme transactions = Some m) by exact Hrun.
    unfold calculateNPSHoldings. rewrite H.
    destruct (fold_left (holding_step cmpMap) m (Fin 0, Fin 0, []))
      as [[mv inv] hs].
    eexists. reflexivity.
Qed.

Lemma ppf_groups_from (transactions : list Row.t) :
  Forall (fun txn =>
            JsObject.inherited (text_or (Row.account_name txn) "unknown")
            = false) transactions ->
  forall o, exists o', fold_left ppf_group_step transactions (Some o) = Some o'.
Proof.
  induction 1 as [| txn transactions Hk _ IH]; intros o; cbn [fold_left].
  - exists o. reflexivity.
  - cbn [ppf_group_step]. rewrite Hk.
    destruct (Alist.has _ o); apply IH.
Qed.

(** [calculatePPFHoldings] returns when no account is named like a member
    of [Object.prototype]; on a row of an account named "constructor" it
    throws. *)
Theorem calculatePPFHoldings_returns (transactions : list Row.t) :
  (Forall (fun txn =>
             JsObject.inherited (text_or (Row.account_name txn) "unknown")
             = false) transactions ->
   exists r, calculatePPFHoldings transactions = Some r)
  /\ calculatePPFHoldings (constructor_row :: transactions) = None.
Proof.
  split.
  - intros H. unfold calculatePPFHoldings.
    destruct (fold_left ppf_group_step transactions (Some [])) as [grouped |] eqn:E;
      [eexists; reflexivity | exfalso].
    destruct (ppf_groups_from transactions H []) as [o' Ho].
    pose proof (eq_trans (eq_sym Ho) E) as F. discriminate F.
  - unfold calculatePPFHoldings. cbn [fold_left].
    change (ppf_group_step (Some []) constructor_row) with (@None (Alist.t (list Row.t))).
    replace (fold_left ppf_group_step transactions None)
      with (@None (Alist.t (list Row.t))); [reflexivity |].
    clear. induction transactions as [| txn l IH]; [reflexivity | exact IH].
Qed.

Lemma calculatePPFHoldings_returns_witness :
  exists r, calculatePPFHoldings sample_ppf = Some r.
Proof.
  apply (proj1 (calculatePPFHoldings_returns sample_ppf)).
  repeat constructor.
Defined.


(* ================================================================== *)
(** * The provident fund accumulators *)
(* ================================================================== *)

Lemma toNumber_Fin (value : JsValue) : exists q, toNumber value = Fin q.
Proof.
  destruct value as [| | n | o]; cbn [toNumber].
  - eexists; reflexivity.
  - eexists; reflexivity.
  - destruct n; eexists; reflexivity.
  - destruct (parseFloat _); eexists; reflexivity.
Qed.















(* ================================================================== *)
(** * Keys and their parts *)
(* ================================================================== *)

Lemma append_nil_r (s : string) : (s ++ "")%string = s.
Proof. induction s as [| c s IH]; cbn; [reflexivity | rewrite IH; reflexivity]. Qed.

Lemma append_assoc (a b c : string) :
  ((a ++ b) ++ c)%string = (a ++ (b ++ c))%string.
Proof. induction a as [| x a IH]; cbn; [reflexivity | rewrite IH; reflexivity]. Qed.

Lemma skip_length (n : nat) (s : string) :
  (String.length (Str.skip n s) <= String.length s)%nat.
Proof.
  revert s. induction n as [| n IH]; intros s; [cbn; lia |].
  destruct s as [| c s]; cbn; [lia |]. specialize (IH s). lia.
Qed.

Lemma prefix_bars_skip (s : string) :
  prefix "||" s = true ->
  (String.length (Str.skip 2 s) < String.length s)%nat.
Proof.
  destruct s as [| c [| d s]]; cbn [prefix].
  - discriminate.
  - destruct (ascii_dec "|"%char c); discriminate.
  - intros _. cbn [Str.skip String.length]. lia.
Qed.

(** With fuel above the length of the text, [split] on ["||"] does not
    depend on the fuel. *)
Lemma split_aux_fuel (f1 : nat) :
  forall (f2 : nat) (cur s : string),
    (String.length s < f1)%nat -> (String.length s < f2)%nat ->
    Str.split_aux f1 "||" cur s = Str.split_aux f2 "||" cur s.
Proof.
  induction f1 as [| f1 IH]; intros f2 cur s H1 H2; [lia |].
  destruct f2 as [| f2]; [lia |].
  destruct s as [| c s]; [reflexivity |].
  cbn [Str.split_aux].
  destruct (prefix "||" (String c s)) eqn:E.
  - pose proof (prefix_bars_skip _ E) as Hlen.
    change (String.length "||") with 2%nat.
    f_equal. apply IH; lia.
  - apply IH; cbn [String.length] in *; lia.
Qed.

Lemma split_no_separator (s : string) :
  separator_free s = true -> Str.split "||" s = [s].
Proof.
  unfold Str.split.
  assert (H : forall (a cur : string) (fuel : nat),
             (String.length a < fuel)%nat -> separator_free a = true ->
             Str.split_aux fuel "||" cur a = [(cur ++ a)%string]).
  { induction a as [| c a IH]; intros cur fuel Hf Hs.
    - destruct fuel; rewrite append_nil_r; reflexivity.
    - destruct fuel as [| fuel]; [lia |].
      unfold separator_free in Hs. cbn [Str.includes] in Hs.
      cbn [Str.split_aux].
      destruct (prefix "||" (String c a)) eqn:E; [discriminate |].
      rewrite IH.
      + rewrite append_assoc. reflexivity.
      + cbn [String.length] in Hf. lia.
      + exact Hs. }
  intros Hs. rewrite H by (auto; lia). reflexivity.
Qed.

Lemma bar_free_cons (c : ascii) (s : string) :
  bar_free (String c s) = true ->
  Ascii.eqb "|"%char c = false /\ bar_free s = true.
Proof.
  unfold bar_free. cbn [Str.includes prefix].
  destruct (Ascii.eqb_spec "|"%char c) as [<- | Hne].
  - cbn. destruct s; discriminate.
  - destruct (ascii_dec "|"%char c) as [He | _]; [contradiction |].
    intros H. split; [reflexivity | exact H].
Qed.

Lemma split_aux_sep (fuel : nat) (cur rest : string) :
  Str.split_aux (S fuel) "||" cur ("||" ++ rest)
  = cur :: Str.split_aux fuel "||" "" rest.
Proof.
  cbn [append Str.split_aux].
  assert (H : prefix "||" (String "|" (String "|" rest)) = true).
  { cbn [prefix]. destruct (ascii_dec "|"%char "|"%char); [| congruence].
    destruct rest; reflexivity. }
  rewrite H. reflexivity.
Qed.

(** The text before the first separator is the first piece. *)
Lemma split_first_piece (a rest : string) :
  bar_free a = true ->
  Str.split "||" (a ++ "||" ++ rest) = a :: Str.split "||" rest.
Proof.
  unfold Str.split.
  assert (H : forall (a cur : string) (fuel : nat),
             (String.length (a ++ "||" ++ rest) < fuel)%nat ->
             bar_free a = true ->
             Str.split_aux fuel "||" cur (a ++ "||" ++ rest)
             = (cur ++ a)%string
               :: Str.split_aux (S (String.length rest)) "||" "" rest).
  { induction a0 as [| c a0 IH]; intros cur fuel Hf Hb.
    - destruct fuel as [| fuel]; [lia |].
      rewrite append_nil_r. change ("" ++ "||" ++ rest)%string with ("||" ++ rest)%string in *.
      rewrite split_aux_sep. f_equal.
      apply split_aux_fuel; cbn [append String.length] in Hf; lia.
    - destruct fuel as [| fuel]; [lia |].
      apply bar_free_cons in Hb. destruct Hb as [Hc Hb].
      change (String c a0 ++ "||" ++ rest)%string
        with (String c (a0 ++ "||" ++ rest)) in *.
      cbn [Str.split_aux prefix]. cbn [String.length] in Hf.
      destruct (ascii_dec "|"%char c) as [He | _].
      { subst c. discriminate. }
      rewrite IH.
      + rewrite append_assoc. reflexivity.
      + lia.
      + exact Hb. }
  intros Hb. rewrite H by (auto; lia). reflexivity.
Qed.

(* ================================================================== *)
(** * The queues of the NPS aggregator, lot by lot *)
(* ================================================================== *)

Lemma map_indexed_In {A B : Type} (f : A -> nat -> B) (l : list A) :
  forall (start : nat) (y : B),
    In y (map_indexed f start l) ->
    exists i x, nth_error l i = Some x /\ y = f x (start + i)%nat.
Proof.
  induction l as [| x l IH]; intros start y; cbn [map_indexed]; [intros [] |].
  intros [<- | Hin].
  - exists 0%nat, x. rewrite Nat.add_0_r. split; reflexivity.
  - destruct (IH _ _ Hin) as [i [z [Hnth Hy]]].
    exists (S i), z. split; [exact Hnth |].
    rewrite Hy. f_equal. lia.
Qed.

(** A prepared transaction is made of the row at its index. *)
Lemma prepared_origin (transactions : list Row.t) (p : Prepared.t) :
  In p (preparedTransactions transactions) ->
  exists txn,
    nth_error transactions (Prepared.index p) = Some txn
    /\ p = prepared_of txn (Prepared.index p).
Proof.
  unfold preparedTransactions. rewrite sort_In, somes_In, filter_In.
  intros [Hin _]. apply map_indexed_In in Hin.
  destruct Hin as [i [txn [Hnth Hp]]]. cbn [Nat.add] in Hp.
  unfold prepare in Hp. destruct (Str.is_empty _); [discriminate |].
  apply some_eq in Hp. subst p. exists txn. split; [exact Hnth | reflexivity].
Qed.

Section LotInvariant.

(** [K] holds of the keys and [I] of the lots of a key; lowering the units
    of a lot keeps [I]. *)
Variable K : string -> Prop.
Variable I : string -> Lot.t -> Prop.
Hypothesis I_lower :
  forall k lot u u',
    I k lot -> Lot.units lot = Fin u -> eps < u' -> u' <= u ->
    I k (Lot.set_units lot (Fin u')).

Definition entry_ok (entry : string * list Lot.t) : Prop :=
  K (fst entry)
  /\ Forall open_lot (snd entry)
  /\ Forall (I (fst entry)) (snd entry).

Lemma sell_loop_keeps (k : string) (fuel : nat) :
  forall (r : Q) (lots lots' : list Lot.t),
    Forall open_lot lots -> Forall (I k) lots ->
    sell_loop fuel (Fin r) lots = Some lots' ->
    Forall (I k) lots'.
Proof.
  induction fuel as [| fuel IH]; intros r lots lots' Hopen HI Hrun;
    [discriminate |].
  destruct lots as [| lot rest].
  - cbn [sell_loop] in Hrun. apply some_eq in Hrun. subst lots'. constructor.
  - inversion Hopen as [| ? ? [u [Hu Hpos]] Hopen']; subst.
    inversion HI as [| ? ? Hlot HI']; subst.
    destruct (Qlt_le_dec eps r) as [Hgt | Hsmall].
    + rewrite (sell_loop_step fuel r u lot rest Hu Hgt) in Hrun.
      cbn zeta in Hrun.
      destruct (Qle_bool (Qred (u + - (if Qle_bool r u then r else u))) eps)
        eqn:Hdrop.
      * eapply IH; eassumption.
      * eapply IH; [| | exact Hrun].
        -- constructor; [| exact Hopen'].
           eexists. split; [reflexivity |]. q_bools. exact Hdrop.
        -- constructor; [| exact HI'].
           apply (I_lower k lot u); auto.
           ++ q_bools. exact Hdrop.
           ++ destruct (Qle_bool r u); q_arith.
    + rewrite sell_loop_stop in Hrun by exact Hsmall.
      apply some_eq in Hrun. subst lots'. exact HI.
Qed.

Lemma apply_txn_keeps (p : Prepared.t) (lots lots' : list Lot.t) :
  Forall open_lot lots -> Forall (I (nps_key p)) lots ->
  (is_buy p = true -> I (nps_key p) (new_lot p)) ->
  (exists u, Prepared.units p = Fin u) ->
  apply_txn p lots = Some lots' ->
  Forall (I (nps_key p)) lots'.
Proof.
  intros Hopen HI Hnew [u Hu]. unfold apply_txn. fold (is_buy p).
  destruct (is_buy p).
  - intros H. apply some_eq in H. subst lots'.
    apply Forall_app. split; [exact HI |]. constructor; [auto | constructor].
  - destruct (isSaleType _ _).
    + unfold sell. rewrite Hu, abs_Fin. apply sell_loop_keeps; assumption.
    + intros H. apply some_eq in H. subst lots'. exact HI.
Qed.

Lemma set_entry_ok (key : string) (lots : list Lot.t)
  (m : Alist.t (list Lot.t)) :
  Forall entry_ok m -> entry_ok (key, lots) ->
  Forall entry_ok (Alist.set key lots m).
Proof.
  intros Hm Hnew. induction Hm as [| [k l] m Hk Hm' IH]; cbn [Alist.set].
  - constructor; [exact Hnew | constructor].
  - destruct (String.eqb k key) eqn:E.
    + apply String.eqb_eq in E. subst k. constructor; assumption.
    + constructor; assumption.
Qed.

Lemma lots_of_ok (key : string) (m : Alist.t (list Lot.t)) :
  Forall entry_ok m ->
  Forall open_lot (lots_of key m) /\ Forall (I key) (lots_of key m).
Proof.
  unfold lots_of.
  induction 1 as [| [k l] m Hk _ IH]; cbn [Alist.get]; [split; constructor |].
  destruct (String.eqb k key) eqn:E; [| exact IH].
  apply String.eqb_eq in E. subst k. destruct Hk as [_ [H1 H2]]. split; assumption.
Qed.

Lemma nps_fold_keeps (ps : list Prepared.t) :
  forall m : Alist.t (list Lot.t),
    (forall p, In p ps ->
       (exists u, Prepared.units p = Fin u /\ eps < Qabs u)
       /\ K (nps_key p)
       /\ (is_buy p = true -> I (nps_key p) (new_lot p))) ->
    Forall entry_ok m ->
    exists m',
      fold_left nps_step ps (Some m) = Some m' /\ Forall entry_ok m'.
Proof.
  induction ps as [| p ps IH]; intros m Hps Hm; cbn [fold_left].
  - exists m. split; [reflexivity | exact Hm].
  - destruct (Hps p (or_introl eq_refl)) as [[u [Hu Habs]] [Hkey Hnew]].
    destruct (lots_of_ok (nps_key p) m Hm) as [Hopen HI].
    destruct (apply_txn_spec p (lots_of (nps_key p) m) u Hu Habs Hopen)
      as [lots' [Hrun [Hopen' _]]].
    cbn [nps_step]. rewrite Hrun.
    apply IH.
    + intros q Hq. apply Hps. right. exact Hq.
    + apply set_entry_ok; [exact Hm |].
      split; [exact Hkey |]. split; [exact Hopen' |]. cbn [fst snd].
      apply (apply_txn_keeps p (lots_of (nps_key p) m)); auto.
      exists u. exact Hu.
Qed.

End LotInvariant.

Lemma same_lot_set_units (lot other : Lot.t) (u : number) :
  same_lot lot other -> same_lot (Lot.set_units lot u) other.
Proof. intros H. exact H. Qed.

(** The run of the transactions: every key is the key of a prepared
    transaction, every lot is open and was opened by a purchase of its
    key. *)
Lemma lots_invariant (transactions : list Row.t) :
  exists m,
    lotsByScheme transactions = Some m
    /\ Forall
         (entry_ok
            (fun k => exists p,
                 In p (preparedTransactions transactions) /\ nps_key p = k)
            (fun k lot => exists p,
                 In p (preparedTransactions transactions)
                 /\ nps_key p = k /\ opened_by p lot))
         m.
Proof.
  unfold lotsByScheme. apply nps_fold_keeps.
  - intros k lot u u' [p [Hin [Hk [Hbuy [Hsame [v [v0 [Hv [Hv0 [Hpos Hle]]]]]]]]]]
      Hu Hpos' Hle'.
    exists p. split; [exact Hin |]. split; [exact Hk |].
    split; [exact Hbuy |]. split; [apply same_lot_set_units; exact Hsame |].
    exists u', v0. rewrite units_set_units. rewrite Hv in Hu.
    apply (f_equal Num.val) in Hu. cbn [Num.val] in Hu. subst v.
    repeat split; auto. lra.
  - intros p Hin. split; [apply (prepared_units transactions); exact Hin |].
    split; [exists p; split; [exact Hin | reflexivity] |].
    intros Hbuy. exists p. split; [exact Hin |]. split; [reflexivity |].
    destruct (prepared_units transactions p Hin) as [u [Hu Habs]].
    destruct (open_new_lot p u Hu Habs Hbuy) as [_ [_ Hpos]].
    split; [exact Hbuy |]. split; [repeat split |].
    exists u, u. unfold new_lot. cbn [Lot.units].
    rewrite Qabs_pos in Habs by lra.
    repeat split; auto. lra.
  - constructor.
Qed.

(** NPS: a sale lowers the units of a lot and never its cost.  Every lot
    left in a queue was opened by a purchase of the key of the queue; it
    carries the cost [units * nav] of that purchase, with the units bought,
    and its date and sequence; its own units are above [1e-8] and at most
    the units bought. *)
Theorem nps_lots_keep_purchase_cost (transactions : list Row.t) :
  exists m,
    lotsByScheme transactions = Some m
    /\ Forall
         (fun entry =>
            Forall
              (fun lot => exists p,
                   In p (preparedTransactions transactions)
                   /\ nps_key p = fst entry
                   /\ opened_by p lot
                   /\ Lot.cost lot = (Prepared.units p * Prepared.nav p)%js)
              (snd entry))
         m.
Proof.
  destruct (lots_invariant transactions) as [m [Hrun Hm]].
  exists m. split; [exact Hrun |].
  eapply Forall_impl; [| exact Hm].
  intros entry [_ [_ HI]].
  eapply Forall_impl; [| exact HI].
  intros lot [p [Hin [Hk Hop]]]. exists p.
  split; [exact Hin |]. split; [exact Hk |]. split; [exact Hop |].
  destruct Hop as [_ [[Hcost _] _]]. exact Hcost.
Qed.

(* ================================================================== *)
(** * The holdings of the NPS aggregator *)
(* ================================================================== *)

Lemma holding_step_eq (cmpMap : string -> option number)
  (mv inv : number) (hs : list Holding.t) (entry : string * list Lot.t) :
  holding_step cmpMap (mv, inv, hs) entry
  = match openLots (snd entry) with
    | [] => (mv, inv, hs)
    | _ :: _ =>
        ((mv + Holding.marketValue (holding_of cmpMap entry))%js,
         (inv + Holding.invested (holding_of cmpMap entry))%js,
         hs ++ [holding_of cmpMap entry])
    end.
Proof.
  unfold holding_step, holding_of. destruct (openLots (snd entry)); reflexivity.
Qed.

Lemma sum_by_snoc (field : Holding.t -> number) (hs : list Holding.t)
  (h : Holding.t) :
  sum_by field (hs ++ [h]) = (sum_by field hs + field h)%js.
Proof. unfold sum_by. rewrite fold_left_app. reflexivity. Qed.

Lemma holdings_fold_sums (cmpMap : string -> option number)
  (m : Alist.t (list Lot.t)) :
  forall hs, exists hs',
    fold_left (holding_step cmpMap) m
      (sum_by Holding.marketValue hs, sum_by Holding.invested hs, hs)
    = (sum_by Holding.marketValue hs', sum_by Holding.invested hs', hs').
Proof.
  induction m as [| entry m IH]; intros hs; cbn [fold_left].
  - exists hs. reflexivity.
  - rewrite holding_step_eq. destruct (openLots (snd entry)); [apply IH |].
    rewrite <- !sum_by_snoc. apply IH.
Qed.

Lemma holdings_fold_Forall (cmpMap : string -> option number)
  (Pe : string * list Lot.t -> Prop) (H : Holding.t -> Prop) :
  (forall entry, Pe entry -> openLots (snd entry) <> [] ->
     H (holding_of cmpMap entry)) ->
  forall m : Alist.t (list Lot.t), Forall Pe m ->
    forall mv inv hs, Forall H hs ->
      Forall H (snd (fold_left (holding_step cmpMap) m (mv, inv, hs))).
Proof.
  intros Hstep. induction 1 as [| entry m He _ IH]; intros mv inv hs Hhs;
    cbn [fold_left]; [exact Hhs |].
  rewrite holding_step_eq.
  destruct (openLots (snd entry)) eqn:E; [apply IH; exact Hhs |].
  apply IH. apply Forall_app. split; [exact Hhs |].
  constructor; [| constructor]. apply Hstep; [exact He |].
  rewrite E. discriminate.
Qed.

Lemma calculateNPSHoldings_eq (transactions : list Row.t)
  (cmpMap : string -> option number) (m : Alist.t (list Lot.t)) :
  lotsByScheme transactions = Some m ->
  calculateNPSHoldings transactions cmpMap
  = Some (NPSResult.mk
            (fst (fst (fold_left (holding_step cmpMap) m (Fin 0, Fin 0, []))))
            (snd (fst (fold_left (holding_step cmpMap) m (Fin 0, Fin 0, []))))
            (snd (fold_left (holding_step cmpMap) m (Fin 0, Fin 0, [])))).
Proof.
  intros H. unfold calculateNPSHoldings. rewrite H.
  destruct (fold_left (holding_step cmpMap) m (Fin 0, Fin 0, []))
    as [[mv inv] hs].
  reflexivity.
Qed.

(** NPS: the two totals of the result are the sums, in the order of the
    list, of the market values and of the invested amounts of the holdings
    it lists. *)
Theorem nps_totals_are_sums_of_holdings
  (transactions : list Row.t) (cmpMap : string -> option number) :
  exists r,
    calculateNPSHoldings transactions cmpMap = Some r
    /\ NPSResult.marketValue r
       = sum_by Holding.marketValue (NPSResult.holdings r)
    /\ NPSResult.invested r
       = sum_by Holding.invested (NPSResult.holdings r).
Proof.
  destruct (lots_invariant transactions) as [m [Hrun _]].
  rewrite (calculateNPSHoldings_eq transactions cmpMap m Hrun).
  destruct (holdings_fold_sums cmpMap m []) as [hs Hfold].
  change (sum_by Holding.marketValue []) with (Fin 0) in Hfold.
  change (sum_by Holding.invested []) with (Fin 0) in Hfold.
  rewrite Hfold. eexists. split; [reflexivity |]. split; reflexivity.
Qed.

Lemma units_sum_open_pos (lots : list Lot.t) :
  lots <> [] -> Forall open_lot lots -> eps < units_sum lots.
Proof.
  intros Hne Hopen. destruct Hopen as [| lot rest [u [Hu Hpos]] Hrest];
    [congruence |].
  pose proof (units_sum_nonneg rest Hrest). rewrite units_sum_cons, Hu.
  cbn [Num.val]. lra.
Qed.

Lemma totalCost_from (lots : list Lot.t) :
  Forall (fun lot => exists c, Lot.cost lot = Fin c) lots ->
  forall a, 0 <= a ->
    exists s,
      fold_left (fun sum lot => sum + Num.max (Lot.cost lot) (Fin 0))%js
        lots (Fin a) = Fin s
      /\ 0 <= s.
Proof.
  induction 1 as [| lot rest [c Hc] _ IH]; intros a Ha; cbn [fold_left].
  - exists a. split; [reflexivity | exact Ha].
  - rewrite Hc. cbn [Num.max]. rewrite le_Fin.
    destruct (Qle_bool c 0) eqn:E; rewrite add_Fin; apply IH; q_arith.
Qed.

Lemma opened_cost_Fin (transactions : list Row.t) (p : Prepared.t)
  (lot : Lot.t) :
  In p (preparedTransactions transactions) -> opened_by p lot ->
  exists c, Lot.cost lot = Fin c.
Proof.
  intros Hin [_ [[Hcost _] [_ [u0 [_ [Hu0 _]]]]]].
  rewrite Hcost. unfold new_lot. cbn [Lot.cost]. rewrite Hu0.
  destruct (prepared_origin transactions p Hin) as [txn [_ Hp]].
  rewrite Hp. cbn [prepared_of Prepared.nav].
  destruct (toNumber_Fin (Row.nav txn)) as [n ->].
  eexists. reflexivity.
Qed.

(** NPS: a position that is closed is not listed.  Every holding of the
    result has more than [1e-8] units and an invested amount that is not
    negative; its price is the one the price map gives for its scheme name,
    0 when it gives none, and its market value is units times price. *)
Theorem nps_holdings_are_open_positions
  (transactions : list Row.t) (cmpMap : string -> option number) :
  exists r,
    calculateNPSHoldings transactions cmpMap = Some r
    /\ Forall (open_position cmpMap) (NPSResult.holdings r).
Proof.
  destruct (lots_invariant transactions) as [m [Hrun Hm]].
  rewrite (calculateNPSHoldings_eq transactions cmpMap m Hrun).
  eexists. split; [reflexivity |]. cbn [NPSResult.holdings].
  eapply holdings_fold_Forall; [| exact Hm | constructor].
  intros entry [_ [Hopen HI]] Hne.
  rewrite openLots_open in Hne by exact Hopen.
  unfold open_position, holding_of.
  cbn [Holding.units Holding.invested Holding.cmp Holding.marketValue
       Holding.schemeName].
  split; [| split; [| split; reflexivity]].
  - destruct (totalUnits_open (snd entry) Hopen) as [s [Hs Heq]].
    exists s. split; [exact Hs |].
    rewrite Heq. apply units_sum_open_pos; assumption.
  - rewrite openLots_open by exact Hopen.
    destruct (totalCost_from (snd entry)) with (a := 0) as [s [Hs Hpos]];
      [| lra | exists s; split; [exact Hs | exact Hpos]].
    eapply Forall_impl; [| exact HI].
    intros lot [p [Hin [_ Hop]]].
    apply (opened_cost_Fin transactions p); assumption.
Qed.

(** NPS: the names of a holding are read back from the key of its queue,
    [schemeName||accountName], by splitting it at the separator.  When no
    scheme name holds a vertical bar and no account name holds the
    separator, every holding carries the trimmed scheme and account names
    of a row. *)
Theorem nps_holdings_carry_row_names
  (transactions : list Row.t) (cmpMap : string -> option number) :
  Forall plain_names transactions ->
  exists r,
    calculateNPSHoldings transactions cmpMap = Some r
    /\ Forall (fun h => exists txn, In txn transactions /\ named_after txn h)
         (NPSResult.holdings r).
Proof.
  intros Hplain.
  destruct (lots_invariant transactions) as [m [Hrun Hm]].
  rewrite (calculateNPSHoldings_eq transactions cmpMap m Hrun).
  eexists. split; [reflexivity |]. cbn [NPSResult.holdings].
  eapply holdings_fold_Forall; [| exact Hm | constructor].
  intros entry [[p [Hin Hk]] _] _.
  destruct (prepared_origin transactions p Hin) as [txn [Hnth Hp]].
  apply nth_error_In in Hnth. exists txn. split; [exact Hnth |].
  rewrite Forall_forall in Hplain. destruct (Hplain txn Hnth) as [Hs Ha].
  unfold named_after, holding_of. cbn [Holding.schemeName Holding.accountName].
  rewrite <- Hk, Hp. unfold nps_key.
  cbn [prepared_of Prepared.schemeName Prepared.accountName].
  fold (nps_scheme txn). fold (nps_account txn).
  rewrite split_first_piece by exact Hs.
  rewrite split_no_separator by exact Ha.
  split; reflexivity.
Qed.

Lemma nps_holdings_carry_row_names_witness :
  exists r,
    calculateNPSHoldings whole_trades price_map_a = Some r
    /\ Forall (fun h => exists txn, In txn whole_trades /\ named_after txn h)
         (NPSResult.holdings r).
Proof.
  apply (nps_holdings_carry_row_names whole_trades price_map_a).
  repeat constructor.
Defined.

(** With the separator inside the scheme name, the holding is listed under
    the text before it, the account is the text after it, and the price is
    looked up under the shortened name. *)
Example nps_barred_scheme_name :
  option_map
    (fun r => map (fun h => (Holding.schemeName h, Holding.accountName h))
                (NPSResult.holdings r))
    (calculateNPSHoldings barred_scheme (fun _ => None))
  = Some [("Tier I"%string, Some "E"%string)].
Proof. vm_compute. reflexivity. Qed.

(* ================================================================== *)
(** * The analysis service: [normalizeType] *)
(* ================================================================== *)

Lemma lower_char_idempotent (c : ascii) :
  Str.lower_char (Str.lower_char c) = Str.lower_char c.
Proof.
  destruct c as [[] [] [] [] [] [] [] []]; reflexivity.
Qed.

Lemma toLowerCase_idempotent (s : string) :
  Str.toLowerCase (Str.toLowerCase s) = Str.toLowerCase s.
Proof.
  induction s as [| c s IH]; cbn [Str.toLowerCase]; [reflexivity |].
  rewrite lower_char_idempotent, IH. reflexivity.
Qed.

(** Each label is its own normal form. *)
Lemma labels_are_normal :
  forallb (fun label => String.eqb (normalize_text label) label) TYPES = true.
Proof. vm_compute. reflexivity. Qed.

Lemma normalize_text_idempotent (s : string) :
  normalize_text (normalize_text s) = normalize_text s.
Proof.
  assert (Hs : normalize_text s
               = match find (fun label => Str.includes (Str.toLowerCase s) label)
                         TYPES with
                 | Some label => label
                 | None => Str.toLowerCase s
                 end) by reflexivity.
  destruct (find _ TYPES) as [label |] eqn:E; rewrite Hs.
  - apply find_some in E. destruct E as [Hin _].
    pose proof labels_are_normal as H. rewrite forallb_forall in H.
    apply String.eqb_eq. apply H. exact Hin.
  - unfold normalize_text. cbn zeta. rewrite toLowerCase_idempotent, E.
    reflexivity.
Qed.

Lemma normalize_text_lowered (s : string) :
  normalize_text (Str.toLowerCase s) = normalize_text s.
Proof.
  unfold normalize_text. cbn zeta. rewrite toLowerCase_idempotent. reflexivity.
Qed.

Lemma normalize_text_lower_case (s : string) :
  Str.toLowerCase (normalize_text s) = normalize_text s.
Proof.
  unfold normalize_text. cbn zeta.
  destruct (find _ TYPES) as [label |] eqn:E.
  - apply find_some in E. destruct E as [Hin _].
    assert (H : forallb (fun l => String.eqb (Str.toLowerCase l) l) TYPES = true)
      by (vm_compute; reflexivity).
    rewrite forallb_forall in H. apply String.eqb_eq. apply H. exact Hin.
  - apply toLowerCase_idempotent.
Qed.

(** [normalizeType] on a text: it returns, it does not look at the case of
    the letters, its result is in lower case, and normalizing the result
    changes nothing.  The result is a label exactly when the lowered text
    includes one, and then it is the first such label of the list: a text
    that includes both "buy" and "sell" is a "buy". *)
Theorem normalizeType_is_idempotent (s : string) :
  exists t,
    normalizeType (JStr s) = Some t
    /\ normalizeType (JStr t) = Some t
    /\ normalizeType (JStr (Str.toLowerCase s)) = Some t
    /\ Str.toLowerCase t = t
    /\ (In t TYPES <->
        exists label, In label TYPES
                      /\ Str.includes (Str.toLowerCase s) label = true)
    /\ (Str.includes (Str.toLowerCase s) "buy" = true -> t = "buy"%string).
Proof.
  exists (normalize_text s). cbn [normalizeType JStr].
  rewrite normalize_text_idempotent, normalize_text_lowered,
    normalize_text_lower_case.
  repeat split; try reflexivity.
  - unfold normalize_text. cbn zeta.
    destruct (find _ TYPES) as [label |] eqn:E.
    + intros _. apply find_some in E. exists label. exact E.
    + intros Hin. exfalso.
      apply (find_none _ _ E) in Hin as Hnot.
      assert (Hself : forallb (fun l => Str.includes l l) TYPES = true)
        by (vm_compute; reflexivity).
      rewrite forallb_forall in Hself. rewrite (Hself _ Hin) in Hnot.
      discriminate.
  - intros [label [Hin Hinc]]. unfold normalize_text. cbn zeta.
    destruct (find _ TYPES) as [l |] eqn:E.
    + apply find_some in E. tauto.
    + apply (find_none _ _ E) in Hin. cbn beta in Hin. congruence.
  - intros Hbuy. unfold normalize_text. cbn zeta. cbn [find TYPES].
    rewrite Hbuy. reflexivity.
Qed.

Lemma normalizeType_is_idempotent_witness :
  normalizeType (JStr "Sell (buyback)") = Some "buy"%string.
Proof.
  destruct (normalizeType_is_idempotent "Sell (buyback)")
    as [t [Ht [_ [_ [_ [_ Hbuy]]]]]].
  rewrite Ht. f_equal. apply Hbuy. reflexivity.
Defined.

(** On undefined the default parameter applies; null, a number and any
    other value that is not a text make the call throw. *)
Example normalizeType_not_a_text :
  normalizeType JUndefined = Some ""%string
  /\ normalizeType JNull = None
  /\ normalizeType (JNum (Fin 1)) = None
  /\ normalizeType (JBool true) = None.
Proof. repeat split; reflexivity. Qed.

(* ================================================================== *)
(** * The rate solver without a root *)
(* ================================================================== *)




(* ================================================================== *)
(** * The analysis service: the queue of a stock *)
(* ================================================================== *)

Section StockQueue.

Context {T : Type}.

Lemma consume_stop (fuel : nat) (r : Q) (fifo : list (StockLot.t T)) :
  r <= 0 -> consume (S fuel) (Fin r) fifo = Some fifo.
Proof.
  intros Hr. cbn [consume]. rewrite gt_Fin.
  replace (Num.Qlt_bool 0 r) with false; [reflexivity |].
  symmetry. apply Qlt_bool_false_iff. exact Hr.
Qed.

Lemma consume_empty (fuel : nat) (r : number) :
  consume (S fuel) r (@nil (StockLot.t T)) = Some [].
Proof. cbn [consume]. destruct (r >? Fin 0)%js; reflexivity. Qed.

Lemma consume_step (fuel : nat) (r u : Q) (lot : StockLot.t T)
  (rest : list (StockLot.t T)) :
  StockLot.units lot = Fin u -> 0 < r ->
  consume (S fuel) (Fin r) (lot :: rest)
  = let d := if Qle_bool r u then r else u in
    if Qle_bool (Qred (u + - d)) dust
    then consume fuel (Fin (Qred (r + - d))) rest
    else consume fuel (Fin (Qred (r + - d)))
           (StockLot.set_units lot (Fin (Qred (u + - d))) :: rest).
Proof.
  intros Hu Hr. cbn [consume]. rewrite gt_Fin.
  replace (Num.Qlt_bool 0 r) with true by (symmetry; apply Qlt_bool_iff; exact Hr).
  rewrite Hu, min_Fin.
  destruct (Qle_bool r u); cbn zeta; rewrite !sub_Fin;
    cbn [StockLot.units StockLot.set_units]; unfold DUST; rewrite le_Fin;
    reflexivity.
Qed.

(** The loop ends within [fifo.length + 2] rounds, whatever the lots. *)
Lemma consume_returns (fifo : list (StockLot.t T)) :
  forall (fuel : nat) (r : Q),
    (List.length fifo + 2 <= fuel)%nat ->
    Forall finite_lot fifo ->
    exists fifo',
      consume fuel (Fin r) fifo = Some fifo' /\ Forall finite_lot fifo'.
Proof.
  induction fifo as [| lot rest IH]; intros fuel r Hfuel Hfin;
    (destruct fuel as [| fuel]; [cbn in Hfuel; lia |]).
  - rewrite consume_empty. exists []. split; [reflexivity | constructor].
  - inversion Hfin as [| ? ? [u Hu] Hrest]; subst.
    destruct (Qlt_le_dec 0 r) as [Hpos | Hneg].
    + rewrite (consume_step fuel r u lot rest Hu Hpos). cbn zeta.
      destruct (Qle_bool r u) eqn:Hle.
      * destruct fuel as [| fuel]; [cbn in Hfuel; lia |].
        rewrite !consume_stop by q_arith.
        destruct (Qle_bool (Qred (u + - r)) dust).
        -- exists rest. split; [reflexivity | exact Hrest].
        -- eexists. split; [reflexivity |].
           constructor; [eexists; reflexivity | exact Hrest].
      * replace (Qle_bool (Qred (u + - u)) dust) with true
          by (symmetry; apply Qle_bool_iff; unfold dust; q_arith).
        apply IH; [cbn in Hfuel; lia | exact Hrest].
    + rewrite consume_stop by exact Hneg.
      exists (lot :: rest). split; [reflexivity | exact Hfin].
Qed.

Lemma stock_units_nonneg (fifo : list (StockLot.t T)) :
  Forall sound_lot fifo -> 0 <= stock_units fifo.
Proof.
  induction 1 as [| lot rest [u [Hu Hpos]] _ IH]; cbn [stock_units]; [lra |].
  rewrite Hu. cbn [Num.val]. lra.
Qed.

(** A sale of [r] units from lots that are not negative: what is left is
    what there was less [r], but not less than 0, and less at most [1e-6],
    the lot that the loop may drop as dust. *)
Lemma consume_spec (fifo : list (StockLot.t T)) :
  forall (fuel : nat) (r : Q),
    (List.length fifo + 2 <= fuel)%nat ->
    0 <= r ->
    Forall sound_lot fifo ->
    exists fifo',
      consume fuel (Fin r) fifo = Some fifo'
      /\ Forall sound_lot fifo'
      /\ Qmax 0 (stock_units fifo - r) - dust <= stock_units fifo'
      /\ stock_units fifo' <= Qmax 0 (stock_units fifo - r).
Proof.
  induction fifo as [| lot rest IH]; intros fuel r Hfuel Hr Hok;
    (destruct fuel as [| fuel]; [cbn in Hfuel; lia |]).
  - rewrite consume_empty. exists []. cbn [stock_units].
    repeat split; auto; apply Q.max_case_strong; intros; unfold dust in *; lra.
  - inversion Hok as [| ? ? [u [Hu Hpos]] Hrest]; subst.
    pose proof (stock_units_nonneg rest Hrest) as Hsum.
    cbn [stock_units]. rewrite Hu. cbn [Num.val].
    destruct (Qlt_le_dec 0 r) as [Hgt | Hzero].
    + rewrite (consume_step fuel r u lot rest Hu Hgt). cbn zeta.
      destruct (Qle_bool r u) eqn:Hle.
      * destruct fuel as [| fuel]; [cbn in Hfuel; lia |].
        rewrite !consume_stop by q_arith.
        destruct (Qle_bool (Qred (u + - r)) dust) eqn:Hdrop.
        -- exists rest. split; [reflexivity |]. split; [exact Hrest |].
           split; apply Q.max_case_strong; intros; unfold dust in *; q_arith.
        -- eexists. split; [reflexivity |].
           cbn [stock_units StockLot.set_units StockLot.units Num.val].
           split.
           ++ constructor; [| exact Hrest].
              eexists. split; [reflexivity |]. q_arith.
           ++ split; apply Q.max_case_strong; intros; unfold dust in *; q_arith.
      * replace (Qle_bool (Qred (u + - u)) dust) with true
          by (symmetry; apply Qle_bool_iff; unfold dust; q_arith).
        destruct (IH fuel (Qred (r + - u))) as [fifo' [Hrun [Hok' [Hlo Hhi]]]];
          auto.
        { cbn in Hfuel. lia. }
        { q_arith. }
        exists fifo'. split; [exact Hrun |]. split; [exact Hok' |].
        revert Hlo Hhi. q_red. intros Hlo Hhi. q_bools.
        split.
        -- revert Hlo. do 2 apply Q.max_case_strong; intros; lra.
        -- revert Hhi. do 2 apply Q.max_case_strong; intros; lra.
    + rewrite consume_stop by exact Hzero.
      exists (lot :: rest). split; [reflexivity |]. split; [exact Hok |].
      cbn [stock_units]. rewrite Hu. cbn [Num.val].
      split; apply Q.max_case_strong; intros; unfold dust in *; lra.
Qed.

End StockQueue.

Section StockFold.

Context {T : Type}.
Variable more_of : StockTxn.t -> T.

Lemma fifo_step_purchase (fifo : list (StockLot.t T)) (txn : StockTxn.t) :
  is_stock_sale txn = false ->
  fifo_step more_of (Some fifo) txn
  = Some (fifo ++ [StockLot.mk (toNumber (StockTxn.quantity txn))
                     (toNumber (StockTxn.buy_price txn)) (more_of txn)]).
Proof.
  unfold is_stock_sale, fifo_step. intros ->. reflexivity.
Qed.

Lemma fifo_step_sale (fifo : list (StockLot.t T)) (txn : StockTxn.t) :
  is_stock_sale txn = true ->
  fifo_step more_of (Some fifo) txn
  = consume (List.length fifo + 2)
      (Num.abs (toNumber (StockTxn.quantity txn))) fifo.
Proof.
  unfold is_stock_sale, fifo_step. intros ->. reflexivity.
Qed.

(** The run of the rows of a stock ends, whatever the rows. *)
Lemma fifo_fold_returns (txns : list StockTxn.t) :
  forall fifo : list (StockLot.t T),
    Forall finite_lot fifo ->
    exists fifo',
      fold_left (fifo_step more_of) txns (Some fifo) = Some fifo'
      /\ Forall finite_lot fifo'.
Proof.
  induction txns as [| txn txns IH]; intros fifo Hfin; cbn [fold_left].
  - exists fifo. split; [reflexivity | exact Hfin].
  - destruct (is_stock_sale txn) eqn:Hsale.
    + rewrite (fifo_step_sale fifo txn Hsale).
      destruct (toNumber_Fin (StockTxn.quantity txn)) as [q ->].
      rewrite abs_Fin.
      destruct (consume_returns fifo (List.length fifo + 2) (Qabs q))
        as [fifo1 [-> Hfin1]]; [lia | exact Hfin |].
      apply IH. exact Hfin1.
    + rewrite (fifo_step_purchase fifo txn Hsale).
      apply IH. apply Forall_app. split; [exact Hfin |].
      constructor; [| constructor].
      destruct (toNumber_Fin (StockTxn.quantity txn)) as [q Hq].
      exists q. exact Hq.
Qed.

Lemma stock_units_app (l1 l2 : list (StockLot.t T)) :
  stock_units (l1 ++ l2) == stock_units l1 + stock_units l2.
Proof.
  induction l1 as [| lot l1 IH]; cbn [app stock_units]; [lra | rewrite IH; lra].
Qed.

Lemma dust_of_S (n : nat) : dust_of (S n) == dust_of n + dust.
Proof.
  unfold dust_of. rewrite Nat2Z.inj_succ. unfold Z.succ.
  rewrite inject_Z_plus. ring.
Qed.

Lemma stock_sales_cons (txn : StockTxn.t) (txns : list StockTxn.t) :
  stock_sales (txn :: txns)
  = ((if is_stock_sale txn then 1 else 0) + stock_sales txns)%nat.
Proof.
  unfold stock_sales. cbn [filter]. destruct (is_stock_sale txn); reflexivity.
Qed.

(** The run of the rows of a stock whose purchases are not negative: the
    units of the queue are the running balance, less at most [1e-6] for
    each sale. *)
Lemma fifo_fold_spec (txns : list StockTxn.t) :
  forall (fifo : list (StockLot.t T)) (b : Q) (n : nat),
    Forall buys_not_negative txns ->
    Forall sound_lot fifo ->
    b - dust_of n <= stock_units fifo ->
    stock_units fifo <= b ->
    exists fifo',
      fold_left (fifo_step more_of) txns (Some fifo) = Some fifo'
      /\ Forall sound_lot fifo'
      /\ fold_left stock_balance_step txns b - dust_of (n + stock_sales txns)
         <= stock_units fifo'
      /\ stock_units fifo' <= fold_left stock_balance_step txns b.
Proof.
  induction txns as [| txn txns IH]; intros fifo b n Hbuys Hok Hlo Hhi;
    cbn [fold_left].
  - exists fifo. unfold stock_sales. cbn [filter List.length].
    rewrite Nat.add_0_r. auto.
  - pose proof (Forall_inv Hbuys) as Hbuy.
    pose proof (Forall_inv_tail Hbuys) as Hbuys'.
    rewrite stock_sales_cons. unfold stock_balance_step at 2 4.
    destruct (toNumber_Fin (StockTxn.quantity txn)) as [q Hq].
    destruct (is_stock_sale txn) eqn:Hsale.
    + rewrite (fifo_step_sale fifo txn Hsale), Hq, abs_Fin. cbn [Num.val].
      destruct (consume_spec fifo (List.length fifo + 2) (Qabs q))
        as [fifo1 [-> [Hok1 [Hlo1 Hhi1]]]];
        [lia | apply Qabs_nonneg | exact Hok |].
      destruct (IH fifo1 (Qmax 0 (b - Qabs q)) (S n) Hbuys' Hok1)
        as [fifo' [Hrun [Hok' [Hlo' Hhi']]]].
      * rewrite dust_of_S. revert Hlo1.
        do 2 apply Q.max_case_strong; intros; lra.
      * revert Hhi1. do 2 apply Q.max_case_strong; intros; lra.
      * exists fifo'. replace (n + (1 + stock_sales txns))%nat
          with (S n + stock_sales txns)%nat by lia. auto.
    + rewrite (fifo_step_purchase fifo txn Hsale), Hq. cbn [Num.val].
      specialize (Hbuy Hsale). unfold quantity_not_negative in Hbuy.
      rewrite Hq in Hbuy. cbn [Num.val] in Hbuy.
      destruct (IH (fifo ++ [StockLot.mk (Fin q)
                               (toNumber (StockTxn.buy_price txn)) (more_of txn)])
                  (b + q) n Hbuys')
        as [fifo' [Hrun [Hok' [Hlo' Hhi']]]].
      * apply Forall_app. split; [exact Hok |].
        constructor; [| constructor]. exists q. split; [reflexivity | exact Hbuy].
      * rewrite stock_units_app. cbn [stock_units StockLot.units Num.val]. lra.
      * rewrite stock_units_app. cbn [stock_units StockLot.units Num.val]. lra.
      * exists fifo'. cbn [Nat.add]. auto.
Qed.

End StockFold.

Section StockWhole.

Context {T : Type}.
Variable more_of : StockTxn.t -> T.

Lemma whole_stock_sound (lot : StockLot.t T) :
  whole_stock_lot lot -> sound_lot lot.
Proof.
  intros [u [z [Hu [Hz Hpos]]]]. exists u. split; [exact Hu |].
  rewrite Hz. apply (proj1 (inject_Z_nonneg z)). exact Hpos.
Qed.

Lemma whole_le_dust (z : Z) : inject_Z z <= dust -> (z <= 0)%Z.
Proof. unfold dust, Qle, inject_Z. simpl. lia. Qed.

(** With whole units no dust is lost. *)
Lemma consume_whole (fifo : list (StockLot.t T)) :
  forall (fuel : nat) (r : Q) (k : Z) (fifo' : list (StockLot.t T)),
    r == inject_Z k -> (0 <= k)%Z ->
    Forall whole_stock_lot fifo ->
    consume fuel (Fin r) fifo = Some fifo' ->
    Forall whole_stock_lot fifo'
    /\ stock_units fifo' == Qmax 0 (stock_units fifo - r).
Proof.
  induction fifo as [| lot rest IH]; intros fuel r k fifo' Hr Hk Hw Hrun;
    (destruct fuel as [| fuel]; [discriminate |]).
  - rewrite consume_empty in Hrun. apply some_eq in Hrun. subst fifo'.
    split; [constructor |]. cbn [stock_units].
    apply (proj1 (inject_Z_nonneg k)) in Hk.
    apply Q.max_case_strong; intros; lra.
  - inversion Hw as [| ? ? [u [z [Hu [Hz Hpos]]]] Hrest]; subst.
    assert (Hsound : Forall sound_lot rest)
      by (eapply Forall_impl; [| exact Hrest]; exact whole_stock_sound).
    pose proof (stock_units_nonneg rest Hsound) as Hsum.
    assert (Hk' : 0 <= inject_Z k)
      by (apply (proj1 (inject_Z_nonneg k)); exact Hk).
    assert (Hz' : 0 <= inject_Z z)
      by (apply (proj1 (inject_Z_nonneg z)); exact Hpos).
    cbn [stock_units]. rewrite Hu. cbn [Num.val].
    destruct (Qlt_le_dec 0 r) as [Hgt | Hzero].
    + rewrite (consume_step fuel r u lot rest Hu Hgt) in Hrun.
      cbn zeta in Hrun.
      destruct (Qle_bool r u) eqn:Hle.
      * destruct fuel as [| fuel];
          [destruct (Qle_bool (Qred (u + - r)) dust); discriminate |].
        rewrite !consume_stop in Hrun by q_arith.
        assert (Hdiff : u - r == inject_Z (z - k)).
        { unfold Z.sub. rewrite inject_Z_plus, inject_Z_opp, Hz, Hr. ring. }
        destruct (Qle_bool (Qred (u + - r)) dust) eqn:Hdrop;
          apply some_eq in Hrun; subst fifo'.
        -- split; [exact Hrest |].
           assert (Hzk : (z - k <= 0)%Z).
           { apply whole_le_dust. rewrite <- Hdiff. q_arith. }
           assert (Hzk' : (0 <= z - k)%Z).
           { apply (proj2 (inject_Z_nonneg _)). rewrite <- Hdiff. q_arith. }
           assert (Heq : u - r == 0).
           { rewrite Hdiff. replace (z - k)%Z with 0%Z by lia. reflexivity. }
           apply Q.max_case_strong; intros; lra.
        -- split.
           ++ constructor; [| exact Hrest].
              exists (Qred (u + - r)), (z - k)%Z.
              split; [reflexivity |]. split.
              ** rewrite Qred_correct, <- Hdiff. ring.
              ** apply (proj2 (inject_Z_nonneg _)). rewrite <- Hdiff. q_arith.
           ++ cbn [stock_units StockLot.set_units StockLot.units Num.val].
              q_bools. q_red.
              apply Q.max_case_strong; intros; lra.
      * replace (Qle_bool (Qred (u + - u)) dust) with true in Hrun
          by (symmetry; apply Qle_bool_iff; unfold dust; q_arith).
        destruct (IH fuel (Qred (r + - u)) (k - z)%Z fifo') as [Hw' Hsum']; auto.
        { rewrite Qred_correct. unfold Z.sub.
          rewrite inject_Z_plus, inject_Z_opp, Hz, Hr. ring. }
        { apply (proj2 (inject_Z_nonneg _)). unfold Z.sub.
          rewrite inject_Z_plus, inject_Z_opp, <- Hz, <- Hr. q_arith. }
        split; [exact Hw' |].
        rewrite Hsum'. rewrite Qred_correct.
        do 2 apply Q.max_case_strong; intros; lra.
    + rewrite consume_stop in Hrun by exact Hzero.
      apply some_eq in Hrun. subst fifo'.
      split; [exact Hw |].
      cbn [stock_units]. rewrite Hu. cbn [Num.val].
      apply Q.max_case_strong; intros; lra.
Qed.

Lemma stock_balance_step_eq (txn : StockTxn.t) (b1 b2 : Q) :
  b1 == b2 -> stock_balance_step b1 txn == stock_balance_step b2 txn.
Proof.
  intros H. unfold stock_balance_step. cbn zeta.
  destruct (is_stock_sale txn); rewrite H; reflexivity.
Qed.

Lemma fifo_fold_whole (txns : list StockTxn.t) :
  forall (fifo fifo' : list (StockLot.t T)) (b : Q),
    Forall buys_not_negative txns ->
    Forall whole_quantity txns ->
    Forall whole_stock_lot fifo ->
    stock_units fifo == b ->
    fold_left (fifo_step more_of) txns (Some fifo) = Some fifo' ->
    stock_units fifo' == fold_left stock_balance_step txns b.
Proof.
  induction txns as [| txn txns IH]; intros fifo fifo' b Hbuys Hwhole Hw Hb Hrun;
    cbn [fold_left] in *.
  - apply some_eq in Hrun. subst fifo'. exact Hb.
  - pose proof (Forall_inv Hbuys) as Hbuy.
    pose proof (Forall_inv_tail Hbuys) as Hbuys'.
    pose proof (Forall_inv Hwhole) as [z Hz].
    pose proof (Forall_inv_tail Hwhole) as Hwhole'.
    destruct (toNumber_Fin (StockTxn.quantity txn)) as [q Hq].
    rewrite Hq in Hz. cbn [Num.val] in Hz.
    unfold stock_balance_step at 2. rewrite Hq. cbn [Num.val].
    destruct (is_stock_sale txn) eqn:Hsale.
    + rewrite (fifo_step_sale more_of fifo txn Hsale), Hq, abs_Fin in Hrun.
      destruct (consume (List.length fifo + 2) (Fin (Qabs q)) fifo)
        as [fifo1 |] eqn:Hsell.
      * destruct (consume_whole fifo (List.length fifo + 2) (Qabs q) (Z.abs z)
                    fifo1) as [Hw1 Hsum1]; auto.
        { rewrite Hz. unfold inject_Z. symmetry. apply Zabs_Qabs. }
        { lia. }
        apply (IH fifo1 fifo'); auto.
        rewrite Hsum1. do 2 apply Q.max_case_strong; intros; lra.
      * exfalso. revert Hrun. clear.
        induction txns as [| x l IHl]; [discriminate | exact IHl].
    + rewrite (fifo_step_purchase more_of fifo txn Hsale), Hq in Hrun.
      specialize (Hbuy Hsale). unfold quantity_not_negative in Hbuy.
      rewrite Hq in Hbuy. cbn [Num.val] in Hbuy.
      apply (IH _ fifo' (b + q) Hbuys' Hwhole') in Hrun; [exact Hrun | |].
      * apply Forall_app. split; [exact Hw |].
        constructor; [| constructor]. exists q, z.
        split; [reflexivity |]. split; [exact Hz |].
        apply (proj2 (inject_Z_nonneg z)). rewrite <- Hz. exact Hbuy.
      * rewrite stock_units_app. cbn [stock_units StockLot.units Num.val]. lra.
Qed.

Lemma lots_units_from (fifo : list (StockLot.t T)) :
  Forall finite_lot fifo ->
  forall a, exists s,
    fold_left (fun sum lot => sum + StockLot.units lot)%js fifo (Fin a) = Fin s
    /\ s == a + stock_units fifo.
Proof.
  induction 1 as [| lot rest [u Hu] _ IH]; intros a.
  - exists a. split; [reflexivity | cbn [stock_units]; lra].
  - cbn [fold_left]. rewrite Hu, add_Fin.
    destruct (IH (Qred (a + u))) as [s [Hs Heq]].
    exists s. split; [exact Hs |].
    rewrite Heq, Qred_correct. cbn [stock_units]. rewrite Hu. cbn [Num.val]. lra.
Qed.

Lemma lots_units_Fin (fifo : list (StockLot.t T)) :
  Forall finite_lot fifo ->
  exists s, lots_units fifo = Fin s /\ s == stock_units fifo.
Proof.
  intros H. destruct (lots_units_from fifo H 0) as [s [Hs Heq]].
  exists s. split; [exact Hs | rewrite Heq; lra].
Qed.

Lemma sound_finite (lot : StockLot.t T) : sound_lot lot -> finite_lot lot.
Proof. intros [u [Hu _]]. exists u. exact Hu. Qed.

(** The queue made of a list of rows, in the order of the list. *)
Lemma queue_follows_balance (txns : list StockTxn.t) :
  Forall buys_not_negative txns ->
  exists fifo s,
    fold_left (fifo_step more_of) txns (Some []) = Some fifo
    /\ lots_units fifo = Fin s
    /\ stock_balance txns - dust_of (stock_sales txns) <= s
    /\ s <= stock_balance txns
    /\ (Forall whole_quantity txns -> s == stock_balance txns).
Proof.
  intros Hbuys.
  destruct (fifo_fold_spec more_of txns [] 0 0 Hbuys)
    as [fifo [Hrun [Hok [Hlo Hhi]]]].
  - constructor.
  - cbn [stock_units]. assert (H0 : dust_of 0 == 0) by reflexivity. lra.
  - cbn [stock_units]. lra.
  - destruct (lots_units_Fin fifo) as [s [Hs Heq]].
    { eapply Forall_impl; [| exact Hok]. exact sound_finite. }
    exists fifo, s. split; [exact Hrun |]. split; [exact Hs |].
    cbn [Nat.add] in Hlo. unfold stock_balance. rewrite Heq.
    split; [exact Hlo |]. split; [exact Hhi |].
    intros Hwhole.
    apply (fifo_fold_whole txns [] fifo 0 Hbuys Hwhole);
      [constructor | reflexivity | exact Hrun].
Qed.

End StockWhole.

(** The loop that records its sales leaves the queue the plain loop
    leaves. *)
Lemma consume_recording_fifo {T : Type} (fuel : nat) (salePrice : number) :
  forall (remaining : number) (fifo : list (StockLot.t T))
         (soldLots : list SoldLot.t),
    option_map fst (consume_recording fuel salePrice remaining fifo soldLots)
    = consume fuel remaining fifo.
Proof.
  induction fuel as [| fuel IH]; intros remaining fifo soldLots;
    [reflexivity |].
  cbn [consume_recording consume].
  destruct (remaining >? Fin 0)%js; [| reflexivity].
  destruct fifo as [| lot rest]; [reflexivity |].
  cbn zeta. destruct (_ <=? DUST)%js; apply IH.
Qed.

Lemma equity_fold_fifo (txns : list StockTxn.t) :
  forall (fifo : list EquityLot) (processed : list Processed.t),
    option_map fst (fold_left equity_step txns (Some (fifo, processed)))
    = fold_left (fifo_step (fun txn => (StockTxn.buy_date txn, txn))) txns
        (Some fifo).
Proof.
  induction txns as [| txn txns IH]; intros fifo processed; cbn [fold_left];
    [reflexivity |].
  unfold equity_step at 2. unfold fifo_step at 2. cbn [bind fst snd].
  destruct (negb (JsDate.truthy (StockTxn.sell_date txn))); [apply IH |].
  pose proof (consume_recording_fifo (List.length fifo + 2)
                (toNumber (StockTxn.buy_price txn))
                (Num.abs (toNumber (StockTxn.quantity txn))) fifo []) as H.
  unfold EquityLot in *.
  destruct (consume_recording _ _ _ fifo []) as [[fifo1 sold] |];
    cbn [option_map fst] in H; rewrite <- H; cbn [bind fst snd].
  - apply IH.
  - clear. induction txns as [| x l IHl]; [reflexivity | exact IHl].
Qed.

Lemma sort_Forall {A : Type} (before : A -> A -> bool) (P : A -> Prop)
  (l : list A) :
  Forall P l -> Forall P (sort before l).
Proof.
  rewrite !Forall_forall. intros H x Hx. apply sort_In in Hx. auto.
Qed.

Lemma follows_balance_intro {T : Type} (more_of : StockTxn.t -> T)
  (order : list StockTxn.t) :
  Forall buys_not_negative order ->
  exists fifo s,
    fold_left (fifo_step more_of) order (Some []) = Some fifo
    /\ lots_units fifo = Fin s
    /\ follows_balance order s.
Proof.
  intros H.
  destruct (queue_follows_balance more_of order H)
    as [fifo [s [Hrun [Hs [Hlo [Hhi Hwhole]]]]]].
  exists fifo, s. unfold follows_balance. auto.
Qed.

Lemma valid_time_Fin (d : DateField) :
  d <> DfInvalid -> exists t, time_or_epoch d = Fin t.
Proof.
  intros H. destruct d; try contradiction; eexists; reflexivity.
Qed.

Lemma sorted_by_time (time : StockTxn.t -> number) (txns : list StockTxn.t) :
  Forall (fun txn => exists t, time txn = Fin t) txns ->
  StronglySorted (fun a b => Num.val (time a) <= Num.val (time b))
    (sort (fun a b => Num.negative (time a - time b)%js) txns).
Proof.
  intros Hfin.
  pose proof (sort_sorted (fun a b => Num.negative (time a - time b)%js)
                (fun txn => exists t, time txn = Fin t)) as Hsort.
  assert (Hs : in_order (fun a b => Num.negative (time a - time b)%js)
                 (sort (fun a b => Num.negative (time a - time b)%js) txns)).
  { apply Hsort; [| | exact Hfin].
    - intros x y [tx Hx] [ty Hy]. unfold Num.negative.
      rewrite Hx, Hy, !sub_Fin, !lt_Fin. intros H. q_bools.
      apply Qlt_bool_false_iff. revert H. q_red. intros H. lra.
    - intros x y z [tx Hx] [ty Hy] [tz Hz]. unfold Num.negative.
      rewrite Hx, Hy, Hz, !sub_Fin, !lt_Fin. intros H1 H2. q_bools.
      apply Qlt_bool_false_iff. revert H1 H2. q_red. intros H1 H2. lra. }
  assert (Hall : Forall (fun txn => exists t, time txn = Fin t)
                   (sort (fun a b => Num.negative (time a - time b)%js) txns))
    by (apply sort_Forall; exact Hfin).
  revert Hall. induction Hs as [| a l Hl IH Ha]; intros Hall; constructor.
  - apply IH. exact (Forall_inv_tail Hall).
  - pose proof (Forall_inv Hall) as [ta Hta].
    pose proof (Forall_inv_tail Hall) as Hrest.
    rewrite Forall_forall in *. intros b Hb.
    destruct (Hrest b Hb) as [tb Htb]. specialize (Ha b Hb).
    unfold Num.negative in Ha. rewrite Hta, Htb, sub_Fin, lt_Fin in Ha.
    rewrite Hta, Htb. cbn [Num.val]. q_bools. revert Ha. q_red. intros Ha. lra.
Qed.

(** The queue of a stock holds the running balance of its rows.  In each
    of the three analysis functions, when the dates of the rows are dates
    or absent and no purchase has a negative quantity, the rows of a stock,
    taken in the order of the sort, leave a queue whose units are the
    running balance of the rows (a purchase adds its quantity, a sale
    takes its quantity away, but not below 0), less at most [1e-6] for
    each sale; with whole quantities the units are the balance.  The
    order of the sort is the order of the dates. *)
Theorem stock_queue_follows_running_balance (txns : list StockTxn.t) :
  Forall dates_valid txns ->
  Forall buys_not_negative txns ->
  (exists fifo s,
     stock_fifo txns = Some fifo /\ lots_units fifo = Fin s
     /\ follows_balance (sort by_trade_date txns) s)
  /\ (exists fifo s,
        free_fifo txns = Some fifo /\ lots_units fifo = Fin s
        /\ follows_balance (sort by_buy_date txns) s)
  /\ (exists fifo s,
        equity_fifo txns = Some fifo /\ lots_units fifo = Fin s
        /\ follows_balance (sort by_trade_date txns) s)
  /\ StronglySorted (fun a b => trade_time a <= trade_time b)
       (sort by_trade_date txns)
  /\ StronglySorted (fun a b => buy_time a <= buy_time b)
       (sort by_buy_date txns).
Proof.
  intros Hdates H. split; [| split; [| split; [| split]]].
  - apply follows_balance_intro. apply sort_Forall. exact H.
  - apply follows_balance_intro. apply sort_Forall. exact H.
  - unfold equity_fifo. rewrite equity_fold_fifo.
    apply follows_balance_intro. apply sort_Forall. exact H.
  - apply (sorted_by_time
             (fun txn => time_or_epoch
                           (date_or (StockTxn.buy_date txn)
                              (StockTxn.sell_date txn)))).
    eapply Forall_impl; [| exact Hdates].
    intros txn [Hb Hs]. apply valid_time_Fin. unfold date_or.
    destruct (JsDate.truthy (StockTxn.buy_date txn)); assumption.
  - apply (sorted_by_time (fun txn => time_or_epoch (StockTxn.buy_date txn))).
    eapply Forall_impl; [| exact Hdates].
    intros txn [Hb _]. apply valid_time_Fin. exact Hb.
Qed.

Lemma stock_queue_follows_running_balance_witness :
  exists fifo s,
    stock_fifo (firstn 2 sample_stock_rows) = Some fifo
    /\ lots_units fifo = Fin s
    /\ follows_balance (sort by_trade_date (firstn 2 sample_stock_rows)) s.
Proof.
  refine (proj1 (stock_queue_follows_running_balance
                   (firstn 2 sample_stock_rows) _ _)).
  - repeat constructor; discriminate.
  - repeat constructor; intros _; vm_compute; discriminate.
Defined.

Example stock_queue_sample :
  option_map lots_units (stock_fifo (firstn 2 sample_stock_rows))
  = Some (Fin 6)
  /\ stock_balance (sort by_trade_date (firstn 2 sample_stock_rows)) == 6.
Proof. split; vm_compute; reflexivity. Qed.

(* ================================================================== *)
(** * The analysis service: the figures of a stock *)
(* ================================================================== *)

Section StockFigures.

Context {T : Type}.
Variable more_of : StockTxn.t -> T.

(** The loop keeps what does not depend on the units of a lot. *)
Lemma consume_keeps (I : StockLot.t T -> Prop) :
  (forall lot u, I lot -> I (StockLot.set_units lot u)) ->
  forall (fuel : nat) (r : number) (fifo fifo' : list (StockLot.t T)),
    Forall I fifo -> consume fuel r fifo = Some fifo' -> Forall I fifo'.
Proof.
  intros HI. induction fuel as [| fuel IH]; intros r fifo fifo' Hall Hrun;
    [discriminate |].
  cbn [consume] in Hrun.
  destruct (r >? Fin 0)%js;
    [| apply some_eq in Hrun; subst fifo'; exact Hall].
  destruct fifo as [| lot rest];
    [apply some_eq in Hrun; subst fifo'; exact Hall |].
  cbn zeta in Hrun.
  pose proof (Forall_inv Hall) as Hlot.
  pose proof (Forall_inv_tail Hall) as Hrest.
  destruct (_ <=? DUST)%js.
  - eapply IH; [exact Hrest | exact Hrun].
  - eapply IH; [| exact Hrun]. constructor; [apply HI; exact Hlot | exact Hrest].
Qed.

Lemma priced_split (fifo : list (StockLot.t T)) :
  Forall priced_lot fifo
  <-> Forall finite_lot fifo
      /\ Forall (fun lot => exists p, StockLot.price lot = Fin p) fifo.
Proof.
  unfold priced_lot, finite_lot. rewrite !Forall_forall. split.
  - intros H. split; intros lot Hin; apply (H lot Hin).
  - intros [H1 H2] lot Hin. split; [apply H1 | apply H2]; exact Hin.
Qed.

(** The run of the rows of a stock ends, whatever the rows, and leaves
    lots of finite units and prices. *)
Lemma fifo_fold_priced (txns : list StockTxn.t) :
  forall fifo : list (StockLot.t T),
    Forall priced_lot fifo ->
    exists fifo',
      fold_left (fifo_step more_of) txns (Some fifo) = Some fifo'
      /\ Forall priced_lot fifo'.
Proof.
  induction txns as [| txn txns IH]; intros fifo Hp; cbn [fold_left].
  - exists fifo. split; [reflexivity | exact Hp].
  - destruct (is_stock_sale txn) eqn:Hsale.
    + rewrite (fifo_step_sale more_of fifo txn Hsale).
      destruct (toNumber_Fin (StockTxn.quantity txn)) as [q ->].
      rewrite abs_Fin.
      apply priced_split in Hp. destruct Hp as [Hunits Hprices].
      destruct (consume_returns fifo (List.length fifo + 2) (Qabs q))
        as [fifo1 [Hrun Hunits1]]; [lia | exact Hunits |].
      rewrite Hrun. apply IH. apply priced_split. split; [exact Hunits1 |].
      apply (consume_keeps
               (fun lot => exists p, StockLot.price lot = Fin p)
               (fun lot u H => H) _ _ _ _ Hprices Hrun).
    + rewrite (fifo_step_purchase more_of fifo txn Hsale).
      apply IH. apply Forall_app. split; [exact Hp |].
      constructor; [| constructor].
      destruct (toNumber_Fin (StockTxn.quantity txn)) as [q Hq].
      destruct (toNumber_Fin (StockTxn.buy_price txn)) as [p Hprice].
      split; [exists q; exact Hq | exists p; exact Hprice].
Qed.

(** The invested amount of a queue is finite. *)
Lemma lots_invested_Fin (fifo : list (StockLot.t T)) :
  Forall priced_lot fifo ->
  forall a, exists i, lots_invested fifo (Fin a) = Fin i.
Proof.
  unfold lots_invested.
  induction 1 as [| lot rest [[u Hu] [p Hp]] _ IH]; intros a; cbn [fold_left].
  - exists a. reflexivity.
  - rewrite Hu, Hp. cbn [Num.mul]. rewrite add_Fin. apply IH.
Qed.

(** The market value of a queue is the value of its units at the price. *)
Lemma lots_marketValue_Fin (c : Q) (fifo : list (StockLot.t T)) :
  Forall priced_lot fifo ->
  forall a, exists m,
    lots_marketValue (Fin c) fifo (Fin a) = Fin m
    /\ m == a + stock_units fifo * c.
Proof.
  unfold lots_marketValue.
  induction 1 as [| lot rest [[u Hu] _] _ IH]; intros a; cbn [fold_left].
  - exists a. split; [reflexivity | cbn [stock_units]; lra].
  - rewrite Hu. cbn [Num.mul]. rewrite add_Fin.
    destruct (IH (Qred (a + Qred (u * c)))) as [m [Hm Heq]].
    exists m. split; [exact Hm |].
    rewrite Heq, !Qred_correct. cbn [stock_units]. rewrite Hu. cbn [Num.val].
    ring.
Qed.

Lemma priced_finite (fifo : list (StockLot.t T)) :
  Forall priced_lot fifo -> Forall finite_lot fifo.
Proof. intros H. apply priced_split in H. tauto. Qed.

Lemma percent_of_Fin (p i : Q) :
  (0 < i -> Num.equiv (percent_of (Fin p) (Fin i)) (Fin (p / i * 100)))
  /\ (i <= 0 -> percent_of (Fin p) (Fin i) = Fin 0).
Proof.
  unfold percent_of. rewrite gt_Fin. split; intros Hi.
  - replace (Num.Qlt_bool 0 i) with true
      by (symmetry; apply Qlt_bool_iff; exact Hi).
    cbn [Num.div]. destruct (Qeq_bool i 0) eqn:E; q_bools; [lra |].
    cbn [Num.mul Num.equiv]. rewrite !Qred_correct. reflexivity.
  - replace (Num.Qlt_bool 0 i) with false
      by (symmetry; apply Qlt_bool_false_iff; exact Hi).
    reflexivity.
Qed.

(** The figures computed from a queue of finite lots. *)
Lemma queue_valued (c : Q) (fifo : list (StockLot.t T)) :
  Forall priced_lot fifo ->
  valued_at c (lots_units fifo) (lots_invested fifo (Fin 0))
    (lots_marketValue (Fin c) fifo (Fin 0))
    (lots_marketValue (Fin c) fifo (Fin 0) - lots_invested fifo (Fin 0))%js
    (percent_of
       (lots_marketValue (Fin c) fifo (Fin 0) - lots_invested fifo (Fin 0))%js
       (lots_invested fifo (Fin 0))).
Proof.
  intros Hp.
  destruct (lots_units_Fin fifo (priced_finite fifo Hp)) as [q [Hq Hqs]].
  destruct (lots_invested_Fin fifo Hp 0) as [i Hi].
  destruct (lots_marketValue_Fin c fifo Hp 0) as [m [Hm Hms]].
  exists q, i. rewrite Hq, Hi, Hm, sub_Fin.
  assert (Hmq : m == q * c) by (rewrite Hms, Hqs; ring).
  split; [reflexivity |]. split; [reflexivity |].
  split; [exact Hmq |].
  split; [cbn [Num.equiv]; rewrite Qred_correct, Hmq; ring |].
  destruct (percent_of_Fin (Qred (m + - i)) i) as [Hpos Hneg].
  split; [| exact Hneg].
  intros H0. specialize (Hpos H0).
  destruct (percent_of _ _); cbn [Num.equiv] in *; try contradiction.
  rewrite Hpos, Qred_correct, Hmq. unfold Qminus. reflexivity.
Qed.

End StockFigures.

Lemma jsmap_get_In {K V : Type} (eqb : K -> K -> bool) (key : K) (v : V)
  (m : JsMap.t K V) :
  JsMap.get eqb key m = Some v -> exists k, In (k, v) m.
Proof.
  induction m as [| [k w] m IH]; cbn [JsMap.get]; [discriminate |].
  destruct (eqb k key).
  - intros H. apply some_eq in H. subst w. exists k. left. reflexivity.
  - intros H. destruct (IH H) as [k' Hin]. exists k'. right. exact Hin.
Qed.

Lemma jsmap_set_Forall {K V : Type} (eqb : K -> K -> bool)
  (P : K * V -> Prop) (key : K) (v : V) (m : JsMap.t K V) :
  Forall P m -> P (key, v) -> (forall k, eqb k key = true -> P (k, v)) ->
  Forall P (JsMap.set eqb key v m).
Proof.
  intros Hm Hnew Hsame. induction Hm as [| [k w] m Hk Hm' IH]; cbn [JsMap.set].
  - constructor; [exact Hnew | constructor].
  - destruct (eqb k key) eqn:E.
    + constructor; [apply Hsame; exact E | exact Hm'].
    + constructor; [exact Hk | exact IH].
Qed.

(** The prices of the master are finite numbers. *)
Lemma stock_cmp_Fin (stockMaster : option (list StockMaster.t))
  (key : option string) :
  exists c, cmp_of (stock_cmpMap stockMaster) key = Fin c.
Proof.
  assert (H : Forall (fun kv : option string * number =>
                        exists c, snd kv = Fin c)
                (stock_cmpMap stockMaster)).
  { unfold stock_cmpMap.
    generalize (@nil (option string * number))
               (Forall_nil (fun kv : option string * number =>
                              exists c, snd kv = Fin c)).
    induction (rows_or_empty stockMaster) as [| row rows IH];
      intros m Hm; cbn [fold_left]; [exact Hm |].
    apply IH. apply jsmap_set_Forall; [exact Hm | |];
      intros; apply toNumber_Fin. }
  unfold cmp_of.
  destruct (JsMap.get key_eqb key (stock_cmpMap stockMaster)) as [v |] eqn:E;
    [| exists 0; reflexivity].
  apply jsmap_get_In in E. destruct E as [k Hin].
  rewrite Forall_forall in H. destruct (H _ Hin) as [c Hc].
  cbn [snd] in Hc. subst v. cbn [number_or_zero].
  destruct (Qeq_bool c 0); eexists; reflexivity.
Qed.


Lemma stock_fifo_priced (txns : list StockTxn.t) :
  exists fifo, stock_fifo txns = Some fifo /\ Forall priced_lot fifo.
Proof. apply fifo_fold_priced. constructor. Qed.




Example free_stocks_sample :
  option_map
    (fun r => (map FreeStock.stockName (FreeStocks.freeStocks r),
               map FreeStock.quantity (FreeStocks.freeStocks r),
               map FreeStock.stockName (FreeStocks.regularStocks r)))
    (getAnalysisFreeStocks (Some sample_stock_rows) (Some sample_stock_master))
  = Some (["INFY"%string], [Fin 6], ["TCS"%string]).
Proof. vm_compute. reflexivity. Qed.

(* ================================================================== *)
(** * The top of a sorted list *)
(* ================================================================== *)

Section Top.

Context {A : Type}.
Variable before : A -> A -> bool.
Variable keep : A -> bool.
Variable P : A -> Prop.
Hypothesis before_asym :
  forall x y, P x -> P y -> before x y = true -> before y x = false.
Hypothesis before_trans :
  forall x y z, P x -> P y -> P z ->
    before y x = false -> before z y = false -> before z x = false.

Lemma in_order_app (l1 l2 : list A) :
  in_order before (l1 ++ l2) ->
  forall g s, In g l1 -> In s l2 -> before s g = false.
Proof.
  induction l1 as [| y l1 IH]; cbn [app]; intros H g s Hg Hs; [destruct Hg |].
  inversion H as [| ? ? Hl Hy]; subst.
  destruct Hg as [<- | Hg].
  - rewrite Forall_forall in Hy. apply Hy. apply in_or_app. right. exact Hs.
  - apply IH; assumption.
Qed.

Lemma in_order_sorted (l : list A) :
  in_order before l -> StronglySorted (fun a b => before b a = false) l.
Proof. intros H. exact H. Qed.

(** [l.filter(keep).sort(before).slice(0, n)] holds the first [n] of the
    elements kept, in order. *)
Lemma top_spec (n : nat) (l : list A) :
  Forall P l ->
  best_of n (fun s g => before s g = false)
    (fun s => In s l /\ keep s = true)
    (firstn n (sort before (filter keep l))).
Proof.
  intros Hl.
  assert (HP : Forall P (filter keep l)).
  { rewrite Forall_forall in *. intros x Hx. apply filter_In in Hx.
    apply Hl. tauto. }
  pose proof (sort_sorted before P before_asym before_trans _ HP) as Hs.
  set (L := sort before (filter keep l)) in *.
  rewrite <- (firstn_skipn n L) in Hs.
  split; [apply firstn_le_length |]. split; [| split].
  - apply Forall_forall. intros x Hx.
    assert (HL : In x L).
    { rewrite <- (firstn_skipn n L). apply in_or_app. left. exact Hx. }
    unfold L in HL. apply sort_In in HL. apply filter_In in HL. exact HL.
  - apply in_order_sorted. eapply in_order_app_l. exact Hs.
  - intros s [Hin Hkeep].
    assert (HL : In s L).
    { unfold L. apply sort_In. apply filter_In. split; assumption. }
    rewrite <- (firstn_skipn n L) in HL. apply in_app_or in HL.
    destruct HL as [Htop | Hrest]; [left; exact Htop | right].
    split.
    + rewrite length_firstn. apply Nat.min_l.
      destruct (Nat.le_gt_cases n (List.length L)) as [Hle | Hgt]; [exact Hle |].
      rewrite skipn_all2 in Hrest by lia. destruct Hrest.
    + apply Forall_forall. intros g Hg.
      apply (in_order_app _ _ Hs g s Hg Hrest).
Qed.

End Top.

Lemma best_of_equiv {A : Type} (n : nat) (w w' : A -> A -> Prop)
  (cand cand' : A -> Prop) (top : list A) :
  (forall s, cand s <-> cand' s) ->
  (forall a b, cand a -> cand b -> (w a b <-> w' a b)) ->
  best_of n w cand top -> best_of n w' cand' top.
Proof.
  intros Hc Hw [Hlen [Hall [Hsorted Hbest]]].
  split; [exact Hlen |]. split; [| split].
  - eapply Forall_impl; [| exact Hall]. intros a. apply Hc.
  - clear Hbest Hlen. induction Hsorted as [| a l Hl IH Ha]; constructor.
    + apply IH. exact (Forall_inv_tail Hall).
    + pose proof (Forall_inv Hall) as Hca.
      pose proof (Forall_inv_tail Hall) as Hcl.
      rewrite Forall_forall in *. intros b Hb.
      apply (Hw b a); auto.
  - intros s Hs. apply Hc in Hs. destruct (Hbest s Hs) as [Hin | [Hn Hle]];
      [left; exact Hin | right].
    split; [exact Hn |].
    rewrite Forall_forall in *. intros g Hg. apply (Hw s g); auto.
Qed.

(* ================================================================== *)
(** * [getAnalysisDashboard] *)
(* ================================================================== *)

Lemma stock_row_is_valued (stockMaster : option (list StockMaster.t))
  (name : option string) (fifo : list (StockLot.t unit)) :
  Forall priced_lot fifo ->
  stock_row_valued (stock_cmpMap stockMaster)
    (StockRow.mk name (lots_invested fifo (Fin 0))
       (lots_marketValue (cmp_of (stock_cmpMap stockMaster) name) fifo (Fin 0))
       (lots_marketValue (cmp_of (stock_cmpMap stockMaster) name) fifo (Fin 0)
        - lots_invested fifo (Fin 0))%js
       (percent_of
          (lots_marketValue (cmp_of (stock_cmpMap stockMaster) name) fifo
             (Fin 0)
           - lots_invested fifo (Fin 0))%js
          (lots_invested fifo (Fin 0)))).
Proof.
  intros Hp. unfold stock_row_valued.
  cbn [StockRow.name StockRow.invested StockRow.marketValue StockRow.profit
       StockRow.percent].
  destruct (stock_cmp_Fin stockMaster name) as [c Hc].
  exists c, (lots_units fifo). split; [exact Hc |].
  rewrite Hc. apply queue_valued. exact Hp.
Qed.

Lemma stock_fold_spec (stockMaster : option (list StockMaster.t))
  (groups : list (option string * list StockTxn.t)) :
  forall stocks : list StockRow.t,
    Forall (stock_row_valued (stock_cmpMap stockMaster)) stocks ->
    exists stocks',
      fold_left (stock_step (stock_cmpMap stockMaster)) groups (Some stocks)
      = Some stocks'
      /\ Forall (stock_row_valued (stock_cmpMap stockMaster)) stocks'.
Proof.
  induction groups as [| [name txns] groups IH]; intros stocks Hall;
    cbn [fold_left].
  - exists stocks. auto.
  - unfold stock_step at 2. cbn [bind fst snd].
    destruct (stock_fifo_priced txns) as [fifo [-> Hp]]. cbn [bind].
    destruct fifo as [| lot rest]; [apply IH; exact Hall |].
    apply IH. apply Forall_app. split; [exact Hall |].
    constructor; [| constructor].
    apply stock_row_is_valued. exact Hp.
Qed.

Lemma valued_profit_Fin (c : Q) (quantity invested marketValue profit percent
                                   : number) :
  valued_at c quantity invested marketValue profit percent ->
  exists p, profit = Fin p.
Proof.
  intros [q [i [_ [_ [_ [Hp _]]]]]].
  destruct profit as [| | | p]; try contradiction. exists p. reflexivity.
Qed.

Lemma row_profit_Fin (cmpMap : JsMap.t (option string) number)
  (s : StockRow.t) :
  stock_row_valued cmpMap s -> exists p, StockRow.profit s = Fin p.
Proof.
  intros [c [quantity [_ Hv]]]. eapply valued_profit_Fin. exact Hv.
Qed.

(** The two tops of a list of stock rows with finite profits. *)
Lemma gainers_spec (stocks : list StockRow.t) :
  Forall (fun s => exists p, StockRow.profit s = Fin p) stocks ->
  best_of 5 (fun s g => gain s <= gain g)
    (fun s => In s stocks /\ 0 < gain s) (gainers stocks).
Proof.
  intros Hfin. unfold gainers.
  eapply best_of_equiv;
    [| | apply (top_spec _ _ (fun s => exists p, StockRow.profit s = Fin p))].
  - intros s. cbn beta. split; intros [Hin Hpos]; (split; [exact Hin |]).
    + rewrite Forall_forall in Hfin. destruct (Hfin s Hin) as [p Hp].
      unfold gain. rewrite Hp in *. cbn [Num.val].
      rewrite gt_Fin in Hpos. q_bools. exact Hpos.
    + rewrite Forall_forall in Hfin. destruct (Hfin s Hin) as [p Hp].
      unfold gain in Hpos. rewrite Hp in *. cbn [Num.val] in Hpos.
      rewrite gt_Fin. apply Qlt_bool_iff. exact Hpos.
  - intros a b [Ha _] [Hb _]. cbn beta.
    rewrite Forall_forall in Hfin.
    destruct (Hfin a Ha) as [pa Hpa]. destruct (Hfin b Hb) as [pb Hpb].
    unfold gain, Num.negative. rewrite Hpa, Hpb, sub_Fin, lt_Fin.
    cbn [Num.val]. split; intros H.
    + q_bools. revert H. q_red. intros H. lra.
    + apply Qlt_bool_false_iff. q_red. lra.
  - intros x y [px Hx] [py Hy]. unfold Num.negative.
    rewrite Hx, Hy, !sub_Fin, !lt_Fin. intros H. q_bools.
    apply Qlt_bool_false_iff. revert H. q_red. intros H. lra.
  - intros x y z [px Hx] [py Hy] [pz Hz]. unfold Num.negative.
    rewrite Hx, Hy, Hz, !sub_Fin, !lt_Fin. intros H1 H2. q_bools.
    apply Qlt_bool_false_iff. revert H1 H2. q_red. intros H1 H2. lra.
  - exact Hfin.
Qed.

Lemma losers_spec (stocks : list StockRow.t) :
  Forall (fun s => exists p, StockRow.profit s = Fin p) stocks ->
  best_of 5 (fun s g => gain g <= gain s)
    (fun s => In s stocks /\ gain s < 0) (losers stocks).
Proof.
  intros Hfin. unfold losers.
  eapply best_of_equiv;
    [| | apply (top_spec _ _ (fun s => exists p, StockRow.profit s = Fin p))].
  - intros s. cbn beta. split; intros [Hin Hpos]; (split; [exact Hin |]).
    + rewrite Forall_forall in Hfin. destruct (Hfin s Hin) as [p Hp].
      unfold gain. rewrite Hp in *. cbn [Num.val].
      rewrite lt_Fin in Hpos. q_bools. exact Hpos.
    + rewrite Forall_forall in Hfin. destruct (Hfin s Hin) as [p Hp].
      unfold gain in Hpos. rewrite Hp in *. cbn [Num.val] in Hpos.
      rewrite lt_Fin. apply Qlt_bool_iff. exact Hpos.
  - intros a b [Ha _] [Hb _]. cbn beta.
    rewrite Forall_forall in Hfin.
    destruct (Hfin a Ha) as [pa Hpa]. destruct (Hfin b Hb) as [pb Hpb].
    unfold gain, Num.negative. rewrite Hpa, Hpb, sub_Fin, lt_Fin.
    cbn [Num.val]. split; intros H.
    + q_bools. revert H. q_red. intros H. lra.
    + apply Qlt_bool_false_iff. q_red. lra.
  - intros x y [px Hx] [py Hy]. unfold Num.negative.
    rewrite Hx, Hy, !sub_Fin, !lt_Fin. intros H. q_bools.
    apply Qlt_bool_false_iff. revert H. q_red. intros H. lra.
  - intros x y z [px Hx] [py Hy] [pz Hz]. unfold Num.negative.
    rewrite Hx, Hy, Hz, !sub_Fin, !lt_Fin. intros H1 H2. q_bools.
    apply Qlt_bool_false_iff. revert H1 H2. q_red. intros H1 H2. lra.
  - exact Hfin.
Qed.

Lemma processLots_Fin (stockMaster : option (list StockMaster.t))
  (list : list StockTxn.t) (i m : Q) :
  exists i' m',
    processLots (stock_cmpMap stockMaster) list (Fin i, Fin m)
    = Some (Fin i', Fin m').
Proof.
  unfold processLots.
  generalize (JsMap.group_by key_eqb StockTxn.stock_name list).
  intros groups. revert i m.
  induction groups as [| [name entries] groups IH]; intros i m; cbn [fold_left].
  - exists i, m. reflexivity.
  - unfold processLots_step at 2. cbn [bind fst snd].
    destruct (stock_fifo_priced entries) as [fifo [-> Hp]]. cbn [bind].
    destruct (stock_cmp_Fin stockMaster (first_stock_name entries)) as [c ->].
    destruct (lots_invested_Fin fifo Hp i) as [i1 ->].
    destruct (lots_marketValue_Fin c fifo Hp m) as [m1 [-> _]].
    apply IH.
Qed.

Lemma account_step_spec (stockMaster : option (list StockMaster.t))
  (accountWise : list AccountRow.t) (name : string) (txns : list StockTxn.t) :
  account_step (stock_cmpMap stockMaster) (Some accountWise) (name, txns)
  = Some accountWise
  \/ exists a,
       account_step (stock_cmpMap stockMaster) (Some accountWise) (name, txns)
       = Some (accountWise ++ [a])
       /\ AccountRow.accountName a = name
       /\ account_row_figures a.
Proof.
  unfold account_step. cbn [bind fst snd].
  destruct (processLots_Fin stockMaster
              (filter (fun t => negb (is_etf t)) txns) 0 0) as [i1 [m1 ->]].
  cbn [bind].
  destruct (processLots_Fin stockMaster (filter is_etf txns) i1 m1)
    as [i [m ->]].
  cbn [bind fst snd]. rewrite !gt_Fin.
  destruct (Num.Qlt_bool 0 i || Num.Qlt_bool 0 m) eqn:E; [right | left; reflexivity].
  eexists. split; [reflexivity |]. split; [reflexivity |].
  exists i, m. cbn [AccountRow.invested AccountRow.marketValue AccountRow.profit
                    AccountRow.profitPercent].
  split; [reflexivity |]. split; [reflexivity |].
  split.
  { apply orb_true_iff in E. destruct E as [E | E]; q_bools; auto. }
  rewrite sub_Fin. split; [cbn [Num.equiv]; rewrite Qred_correct; ring |].
  destruct (percent_of_Fin (Qred (m + - i)) i) as [Hpos Hneg].
  unfold percent_of in Hpos, Hneg. rewrite gt_Fin in Hpos, Hneg.
  split; [| exact Hneg].
  intros H0. specialize (Hpos H0).
  destruct (if Num.Qlt_bool 0 i then _ else _); cbn [Num.equiv] in *;
    try contradiction.
  rewrite Hpos, Qred_correct. unfold Qminus. reflexivity.
Qed.

Lemma account_fold_spec (stockMaster : option (list StockMaster.t))
  (K : string -> Prop) (groups : list (string * list StockTxn.t)) :
  forall accountWise : list AccountRow.t,
    NoDup (map fst groups) ->
    Forall (fun g => K (fst g)) groups ->
    NoDup (map AccountRow.accountName accountWise) ->
    (forall a, In a accountWise ->
       ~ In (AccountRow.accountName a) (map fst groups)) ->
    Forall (fun a => K (AccountRow.accountName a) /\ account_row_figures a)
      accountWise ->
    exists accountWise',
      fold_left (account_step (stock_cmpMap stockMaster)) groups
        (Some accountWise) = Some accountWise'
      /\ NoDup (map AccountRow.accountName accountWise')
      /\ Forall (fun a => K (AccountRow.accountName a)
                          /\ account_row_figures a) accountWise'.
Proof.
  induction groups as [| [name txns] groups IH];
    intros accountWise Hkeys HK Hnd Hfresh Hall; cbn [fold_left].
  - exists accountWise. auto.
  - cbn [map fst] in Hkeys, Hfresh.
    inversion Hkeys as [| ? ? Hname Hkeys']; subst.
    pose proof (Forall_inv HK) as Hk. pose proof (Forall_inv_tail HK) as HK'.
    cbn [fst] in Hk.
    destruct (account_step_spec stockMaster accountWise name txns)
      as [-> | [a [-> [Ha Hfig]]]].
    + apply IH; auto.
      intros a Hin Hbad. apply (Hfresh a Hin). right. exact Hbad.
    + apply IH; auto.
      * rewrite map_app. cbn [map]. apply NoDup_app; [exact Hnd | | ].
        -- repeat constructor. intros [].
        -- intros x Hx [<- | []]. rewrite in_map_iff in Hx.
           destruct Hx as [b [Hb Hin]]. apply (Hfresh b Hin).
           left. congruence.
      * intros b Hin Hbad. apply in_app_or in Hin.
        destruct Hin as [Hin | [<- | []]].
        -- apply (Hfresh b Hin). right. exact Hbad.
        -- rewrite Ha in Hbad. contradiction.
      * apply Forall_app. split; [exact Hall |].
        constructor; [| constructor]. rewrite Ha. split; assumption.
Qed.

Lemma alist_set_Forall {V : Type} (P : string * V -> Prop) (key : string)
  (v : V) (m : Alist.t V) :
  Forall P m -> P (key, v) -> Forall P (Alist.set key v m).
Proof.
  intros Hm Hnew. induction Hm as [| [k w] m Hk Hm' IH]; cbn [Alist.set].
  - constructor; [exact Hnew | constructor].
  - destruct (String.eqb k key) eqn:E.
    + apply String.eqb_eq in E. subst k. constructor; assumption.
    + constructor; assumption.
Qed.

(** No group is empty. *)
Lemma grouped_nonempty {A : Type} (key_of : A -> string) (rows : list A) :
  Forall (fun g => snd g <> []) (Alist.group_by key_of rows).
Proof.
  unfold Alist.group_by.
  generalize (@nil (string * list A))
             (Forall_nil (fun g : string * list A => snd g <> [])).
  induction rows as [| x rows IH]; intros m Hm; cbn [fold_left]; [exact Hm |].
  apply IH. unfold Alist.push.
  destruct (Alist.get (key_of x) m);
    apply alist_set_Forall; auto; cbn [snd];
    [destruct l |]; discriminate.
Qed.

(** The key of a group is the key of a row. *)
Lemma grouped_keys {A : Type} (key_of : A -> string) (rows : list A) :
  Forall (fun g => exists x, In x rows /\ key_of x = fst g)
    (Alist.group_by key_of rows).
Proof.
  pose proof (grouped_spec key_of rows) as Hspec.
  pose proof (grouped_nonempty key_of rows) as Hne.
  rewrite Forall_forall in *. intros g Hg.
  specialize (Hspec g Hg). specialize (Hne g Hg).
  destruct (snd g) as [| x l] eqn:E; [congruence |].
  assert (Hx : In x (x :: l)) by (left; reflexivity).
  rewrite Hspec in Hx. apply filter_In in Hx. destruct Hx as [Hin Hkey].
  apply String.eqb_eq in Hkey. exists x. auto.
Qed.

Lemma grouped_keys_nodup {A : Type} (key_of : A -> string) (rows : list A) :
  NoDup (map fst (Alist.group_by key_of rows)).
Proof.
  destruct (grouped_from key_of rows [] []) as [Hnd _];
    [constructor | reflexivity | exact Hnd].
Qed.

Lemma enriched_stocks_back (stocks : list StockRow.t) :
  map EnrichedStock.stock (enrichedStocks stocks) = stocks.
Proof.
  unfold enrichedStocks. rewrite map_map. cbn [EnrichedStock.stock].
  apply map_id.
Qed.

(** The two loops of the dashboard end, and give its result. *)
Lemma dashboard_parts (stockTxns : option (list StockTxn.t))
  (stockMaster : option (list StockMaster.t)) :
  exists accountWise stocks,
    getAnalysisDashboard stockTxns stockMaster
    = Some (Dashboard.mk accountWise (gainers stocks) (losers stocks)
              (List.length stocks) (enrichedStocks stocks))
    /\ NoDup (map AccountRow.accountName accountWise)
    /\ Forall (fun a =>
                 (exists txn, In txn (rows_or_empty stockTxns)
                              /\ dashboard_account txn
                                 = AccountRow.accountName a)
                 /\ account_row_figures a) accountWise
    /\ Forall (stock_row_valued (stock_cmpMap stockMaster)) stocks.
Proof.
  unfold getAnalysisDashboard. cbn zeta.
  destruct (account_fold_spec stockMaster
              (fun name => exists txn, In txn (rows_or_empty stockTxns)
                                       /\ dashboard_account txn = name)
              (Alist.group_by dashboard_account (rows_or_empty stockTxns)) [])
    as [accountWise [-> [Hnd Hacc]]].
  - apply grouped_keys_nodup.
  - apply grouped_keys.
  - constructor.
  - intros a [].
  - constructor.
  - destruct (stock_fold_spec stockMaster
                (JsMap.group_by key_eqb StockTxn.stock_name
                   (rows_or_empty stockTxns)) [])
      as [stocks [-> Hstocks]]; [constructor |].
    exists accountWise, stocks. cbn [bind]. auto.
Qed.

(** The dashboard ranks the open positions by profit.  [totalStocks] is
    the number of the stock rows, each row carries its [percent] as
    [absReturnPct], its profit is its market value less its invested
    amount; [topGainers] holds at most five rows of positive profit, the
    largest profit first, and a row of positive profit that is left out has
    no larger profit than any of the five; [topLosers] does the same for
    the negative profits, the largest loss first.  A row of profit 0 is in
    neither. *)
Theorem dashboard_ranks_gainers_and_losers
  (stockTxns : option (list StockTxn.t))
  (stockMaster : option (list StockMaster.t)) :
  exists d,
    getAnalysisDashboard stockTxns stockMaster = Some d
    /\ Dashboard.totalStocks d = List.length (dashboard_stocks d)
    /\ Forall (fun e => EnrichedStock.absReturnPct e
                        = StockRow.percent (EnrichedStock.stock e))
         (Dashboard.openEquityPositions d)
    /\ Forall (stock_row_valued (stock_cmpMap stockMaster))
         (dashboard_stocks d)
    /\ best_of 5 (fun s g => gain s <= gain g)
         (fun s => In s (dashboard_stocks d) /\ 0 < gain s)
         (Dashboard.topGainers d)
    /\ best_of 5 (fun s g => gain g <= gain s)
         (fun s => In s (dashboard_stocks d) /\ gain s < 0)
         (Dashboard.topLosers d).
Proof.
  destruct (dashboard_parts stockTxns stockMaster)
    as [accountWise [stocks [-> [_ [_ Hstocks]]]]].
  eexists. split; [reflexivity |].
  unfold dashboard_stocks.
  cbn [Dashboard.totalStocks Dashboard.openEquityPositions
       Dashboard.topGainers Dashboard.topLosers].
  rewrite enriched_stocks_back.
  assert (Hfin : Forall (fun s => exists p, StockRow.profit s = Fin p) stocks).
  { eapply Forall_impl; [| exact Hstocks].
    intros s. apply row_profit_Fin. }
  split; [reflexivity |]. split.
  { unfold enrichedStocks. apply Forall_forall. intros e He.
    apply in_map_iff in He. destruct He as [s [<- _]]. reflexivity. }
  split; [exact Hstocks |].
  split; [apply gainers_spec | apply losers_spec]; exact Hfin.
Qed.

(** The dashboard lists an account once at most, under the trimmed
    account name of a row ("UNKNOWN" for a row without one), and only when
    its invested amount or its market value is positive; the profit of the
    account is its market value less its invested amount. *)
Theorem dashboard_lists_each_account_once
  (stockTxns : option (list StockTxn.t))
  (stockMaster : option (list StockMaster.t)) :
  exists d,
    getAnalysisDashboard stockTxns stockMaster = Some d
    /\ NoDup (map AccountRow.accountName (Dashboard.accountWise d))
    /\ Forall (fun a =>
                 (exists txn, In txn (rows_or_empty stockTxns)
                              /\ dashboard_account txn
                                 = AccountRow.accountName a)
                 /\ account_row_figures a)
         (Dashboard.accountWise d).
Proof.
  destruct (dashboard_parts stockTxns stockMaster)
    as [accountWise [stocks [-> [Hnd [Hacc _]]]]].
  eexists. split; [reflexivity |]. split; assumption.
Qed.

Example dashboard_sample :
  option_map
    (fun d => (map AccountRow.accountName (Dashboard.accountWise d),
               map StockRow.name (Dashboard.topGainers d),
               map StockRow.name (Dashboard.topLosers d),
               Dashboard.totalStocks d))
    (getAnalysisDashboard (Some sample_stock_rows) (Some sample_stock_master))
  = Some (["Free demat"%string; "main"%string],
          [Some "INFY"%string], [Some "TCS"%string], 2%nat).
Proof. vm_compute. reflexivity. Qed.

(* ================================================================== *)
(** * [getAnalysisSummary] *)
(* ================================================================== *)

Lemma equity_fold_returns (txns : list StockTxn.t) :
  exists fifo processed,
    fold_left equity_step txns (Some ([], [])) = Some (fifo, processed)
    /\ Forall priced_lot fifo.
Proof.
  destruct (fifo_fold_priced (fun txn => (StockTxn.buy_date txn, txn)) txns [])
    as [fifo [Hrun Hp]]; [constructor |].
  pose proof (eq_trans (equity_fold_fifo txns [] []) Hrun) as E.
  destruct (fold_left equity_step txns (Some ([], []))) as [[f p] |];
    [| discriminate].
  cbn [option_map fst] in E. apply some_eq in E. subst f.
  exists fifo, p. split; [reflexivity | exact Hp].
Qed.

Lemma equity_groups_return (cmpMap : JsMap.t (option string) number)
  (groups : list (option string * list StockTxn.t)) :
  forall acc, exists equity,
    fold_left (equity_group_step cmpMap) groups (Some acc) = Some equity.
Proof.
  induction groups as [| [name txns] groups IH]; intros acc; cbn [fold_left].
  - exists acc. reflexivity.
  - unfold equity_group_step at 2. cbn [bind fst snd].
    destruct (equity_fold_returns (sort by_trade_date txns))
      as [fifo [processed [-> _]]].
    cbn [bind fst snd]. apply IH.
Qed.

(** The run of the rows of a fund, none of which has a quantity. *)
Lemma mf_fold_no_quantity (txns : list MfTxn.t) :
  Forall as_fetched txns ->
  forall state a,
    MfState.activeUnits state = Fin a -> a == 0 ->
    Forall (fun e => MfEntry.units e = Fin 0) (MfState.redemptions state) ->
    exists a',
      MfState.activeUnits (fold_left mf_step txns state) = Fin a' /\ a' == 0
      /\ Forall (fun e => MfEntry.units e = Fin 0)
           (MfState.redemptions (fold_left mf_step txns state)).
Proof.
  induction 1 as [| txn txns Hq _ IH]; intros state a Ha Hzero Hred;
    cbn [fold_left].
  - exists a. auto.
  - unfold as_fetched in Hq.
    assert (Hnum : toNumber (MfTxn.quantity txn) = Fin 0)
      by (rewrite Hq; reflexivity).
    unfold mf_step at 2 4. rewrite Hnum, Ha.
    destruct (is_redemption txn).
    + apply (IH _ (Qred (a + - 0))).
      * reflexivity.
      * rewrite Qred_correct, Hzero. reflexivity.
      * cbn [MfState.redemptions]. apply Forall_app. split; [exact Hred |].
        constructor; [reflexivity | constructor].
    + apply (IH _ (Qred (a + 0))).
      * reflexivity.
      * rewrite Qred_correct, Hzero. reflexivity.
      * exact Hred.
Qed.

Lemma mf_closed_empty (fundName : string) (redeem : MfEntry.t) :
  MfEntry.units redeem = Fin 0 ->
  (exists p, MfEntry.price redeem = Fin p) ->
  empty_position (mf_closed fundName redeem).
Proof.
  intros Hu [p Hp]. unfold empty_position, mf_closed.
  cbn [MfClosed.quantity MfClosed.sale_amount MfClosed.buy_price
       MfClosed.invested_amount MfClosed.realized_gain].
  rewrite Hu, Hp. split; [reflexivity |]. split.
  - cbn [Num.mul Num.equiv]. rewrite Qred_correct. ring.
  - destruct (ToNumber.of_value _) as [| | | n]; try discriminate.
    intros _. rewrite sub_Fin. cbn [Num.mul Num.equiv].
    rewrite !Qred_correct. split; ring.
Qed.

Lemma mf_redemptions_priced (txns : list MfTxn.t) :
  forall state,
    Forall (fun e => exists p, MfEntry.price e = Fin p)
      (MfState.redemptions state) ->
    Forall (fun e => exists p, MfEntry.price e = Fin p)
      (MfState.redemptions (fold_left mf_step txns state)).
Proof.
  induction txns as [| txn txns IH]; intros state H; cbn [fold_left];
    [exact H |].
  apply IH. unfold mf_step. destruct (is_redemption txn);
    cbn [MfState.redemptions]; [| exact H].
  apply Forall_app. split; [exact H |].
  constructor; [| constructor]. cbn [MfEntry.price]. apply toNumber_Fin.
Qed.

Lemma mf_groups_empty (prices : JsMap.t (option string) PriceInfo.t)
  (groups : list (string * list MfTxn.t)) :
  Forall (fun g => Forall as_fetched (snd g)) groups ->
  forall closed,
    Forall empty_position closed ->
    fst (fold_left (mf_group_step prices) groups ([], closed)) = []
    /\ Forall empty_position
         (snd (fold_left (mf_group_step prices) groups ([], closed))).
Proof.
  induction 1 as [| [name txns] groups Hg _ IH]; intros closed Hclosed;
    cbn [fold_left]; [auto |].
  cbn [snd] in Hg. unfold mf_group_step at 2 4. cbn [fst snd].
  destruct (mf_fold_no_quantity (sort mf_by_buy_date txns)
              (sort_Forall _ _ _ Hg) (MfState.mk (Fin 0) (Fin 0) [] []) 0)
    as [a [Ha [Hzero Hred]]]; [reflexivity | reflexivity | constructor |].
  pose proof (mf_redemptions_priced (sort mf_by_buy_date txns)
                (MfState.mk (Fin 0) (Fin 0) [] []) (Forall_nil _)) as Hpriced.
  fold (mf_state txns) in Ha, Hred, Hpriced.
  rewrite Ha, gt_Fin.
  replace (Num.Qlt_bool 0 a) with false
    by (symmetry; apply Qlt_bool_false_iff; lra).
  apply IH. apply Forall_app. split; [exact Hclosed |].
  apply Forall_forall. intros c Hc. apply in_map_iff in Hc.
  destruct Hc as [e [<- He]].
  rewrite Forall_forall in Hred, Hpriced.
  apply mf_closed_empty; auto.
Qed.

(** The funds of the summary are never active.  The function reads the
    units of a fund row from [quantity], which its query does not select.
    On rows as they are fetched, [mfActive] is empty, and every redemption
    makes a closed position of quantity 0 and sale amount 0, whose invested
    amount and realized gain are 0 as well when its [buy_price] converts to
    a finite number. *)
Theorem summary_funds_are_never_active
  (stockTxns : option (list StockTxn.t))
  (stockMaster : option (list StockMaster.t))
  (mfTxns : option (list MfTxn.t)) (fundMaster : option (list FundMaster.t)) :
  Forall as_fetched (rows_or_empty mfTxns) ->
  exists r,
    getAnalysisSummary stockTxns stockMaster mfTxns fundMaster = Some r
    /\ Summary.mfActive r = []
    /\ Forall empty_position (Summary.mfClosed r).
Proof.
  intros Hfetched. unfold getAnalysisSummary. cbn zeta.
  destruct (equity_groups_return (stock_cmpMap stockMaster)
              (JsMap.group_by key_eqb StockTxn.stock_name
                 (rows_or_empty stockTxns)) ([], []))
    as [equity ->].
  cbn [bind]. eexists. split; [reflexivity |].
  cbn [Summary.mfActive Summary.mfClosed].
  apply mf_groups_empty; [| constructor].
  pose proof (grouped_spec fund_key (rows_or_empty mfTxns)) as Hspec.
  rewrite Forall_forall in *. intros g Hg. rewrite (Hspec g Hg).
  apply Forall_forall. intros x Hx. apply filter_In in Hx.
  apply Hfetched. tauto.
Qed.

Lemma summary_funds_are_never_active_witness :
  exists r,
    getAnalysisSummary (Some sample_stock_rows) (Some sample_stock_master)
      (Some sample_mf_rows) None = Some r
    /\ Summary.mfActive r = []
    /\ Forall empty_position (Summary.mfClosed r).
Proof.
  apply summary_funds_are_never_active.
  repeat constructor.
Defined.

Example summary_sample_funds :
  option_map
    (fun r => (List.length (Summary.mfActive r),
               map MfClosed.quantity (Summary.mfClosed r),
               map MfClosed.sell_price (Summary.mfClosed r)))
    (getAnalysisSummary None None (Some sample_mf_rows) None)
  = Some (0%nat, [Fin 0], [Fin 60]).
Proof. vm_compute. reflexivity. Qed.

Section SimilarQueues.

Context {T1 T2 : Type}.
Variable more1 : StockTxn.t -> T1.
Variable more2 : StockTxn.t -> T2.





End SimilarQueues.




(* ================================================================== *)
(** * The record of a sale *)
(* ================================================================== *)

Section SaleRecord.

Context {T : Type}.

Lemma consume_recording_stop (fuel : nat) (price : number) (r : Q)
  (fifo : list (StockLot.t T)) (sold : list SoldLot.t) :
  r <= 0 ->
  consume_recording (S fuel) price (Fin r) fifo sold = Some (fifo, sold).
Proof.
  intros Hr. cbn [consume_recording]. rewrite gt_Fin.
  replace (Num.Qlt_bool 0 r) with false; [reflexivity |].
  symmetry. apply Qlt_bool_false_iff. exact Hr.
Qed.

Lemma consume_recording_empty (fuel : nat) (price r : number)
  (sold : list SoldLot.t) :
  consume_recording (S fuel) price r (@nil (StockLot.t T)) sold
  = Some ([], sold).
Proof. cbn [consume_recording]. destruct (r >? Fin 0)%js; reflexivity. Qed.

Lemma consume_recording_step (fuel : nat) (price : number) (r u : Q)
  (lot : StockLot.t T) (rest : list (StockLot.t T)) (sold : list SoldLot.t) :
  StockLot.units lot = Fin u -> 0 < r ->
  consume_recording (S fuel) price (Fin r) (lot :: rest) sold
  = let d := if Qle_bool r u then r else u in
    let sold' := sold ++ [SoldLot.mk (Fin d) (StockLot.price lot) price] in
    if Qle_bool (Qred (u + - d)) dust
    then consume_recording fuel price (Fin (Qred (r + - d))) rest sold'
    else consume_recording fuel price (Fin (Qred (r + - d)))
           (StockLot.set_units lot (Fin (Qred (u + - d))) :: rest) sold'.
Proof.
  intros Hu Hr. cbn [consume_recording]. rewrite gt_Fin.
  replace (Num.Qlt_bool 0 r) with true by (symmetry; apply Qlt_bool_iff; exact Hr).
  rewrite Hu, min_Fin.
  destruct (Qle_bool r u); cbn zeta; rewrite !sub_Fin;
    cbn [StockLot.units StockLot.set_units]; unfold DUST; rewrite le_Fin;
    reflexivity.
Qed.

Lemma sold_units_app (l1 l2 : list SoldLot.t) :
  sold_units (l1 ++ l2) == sold_units l1 + sold_units l2.
Proof.
  induction l1 as [| s l1 IH]; cbn [app sold_units]; [lra | rewrite IH; lra].
Qed.

(** A sale of [r] units from lots that are not negative records the units
    it takes: [r] in all, or all the units of the queue when they are
    fewer. *)
Lemma consume_recording_spec (price : number) (fifo : list (StockLot.t T)) :
  forall (fuel : nat) (r : Q) (sold : list SoldLot.t),
    (List.length fifo + 2 <= fuel)%nat ->
    0 <= r ->
    Forall sound_lot fifo ->
    exists fifo' sold',
      consume_recording fuel price (Fin r) fifo sold
      = Some (fifo', sold ++ sold')
      /\ sold_units sold' == Qmin r (stock_units fifo)
      /\ Forall (fun s => SoldLot.salePrice s = price
                          /\ (exists u, SoldLot.units s = Fin u /\ 0 <= u)
                          /\ exists lot, In lot fifo
                                         /\ SoldLot.costPrice s
                                            = StockLot.price lot)
           sold'.
Proof.
  induction fifo as [| lot rest IH]; intros fuel r sold Hfuel Hr Hok;
    (destruct fuel as [| fuel]; [cbn in Hfuel; lia |]).
  - rewrite consume_recording_empty. exists [], []. rewrite app_nil_r.
    split; [reflexivity |]. split; [| constructor].
    cbn [sold_units stock_units]. rewrite Q.min_r by exact Hr. reflexivity.
  - inversion Hok as [| ? ? [u [Hu Hpos]] Hrest]; subst.
    pose proof (stock_units_nonneg rest Hrest) as Hsum.
    cbn [stock_units]. rewrite Hu. cbn [Num.val].
    destruct (Qlt_le_dec 0 r) as [Hgt | Hzero].
    + rewrite (consume_recording_step fuel price r u lot rest sold Hu Hgt).
      cbn zeta.
      destruct (Qle_bool r u) eqn:Hle.
      * destruct fuel as [| fuel]; [cbn in Hfuel; lia |].
        rewrite !consume_recording_stop by q_arith.
        assert (Hrec : sold_units [SoldLot.mk (Fin r) (StockLot.price lot) price]
                       == Qmin r (u + stock_units rest)).
        { cbn [sold_units SoldLot.units Num.val]. q_bools.
          rewrite Q.min_l by lra. lra. }
        assert (Hall : Forall
                         (fun s => SoldLot.salePrice s = price
                                   /\ (exists v, SoldLot.units s = Fin v /\ 0 <= v)
                                   /\ exists l, In l (lot :: rest)
                                                /\ SoldLot.costPrice s
                                                   = StockLot.price l)
                         [SoldLot.mk (Fin r) (StockLot.price lot) price]).
        { constructor; [| constructor]. split; [reflexivity |].
          split; [exists r; split; [reflexivity | exact Hr] |].
          exists lot. split; [left; reflexivity | reflexivity]. }
        destruct (Qle_bool (Qred (u + - r)) dust);
          eexists; eexists; (split; [reflexivity | split; assumption]).
      * replace (Qle_bool (Qred (u + - u)) dust) with true
          by (symmetry; apply Qle_bool_iff; unfold dust; q_arith).
        destruct (IH fuel (Qred (r + - u))
                    (sold ++ [SoldLot.mk (Fin u) (StockLot.price lot) price]))
          as [fifo' [sold' [Hrun [Hunits Hall]]]]; auto.
        { cbn in Hfuel. lia. }
        { q_arith. }
        exists fifo', (SoldLot.mk (Fin u) (StockLot.price lot) price :: sold').
        split.
        { rewrite Hrun. rewrite <- app_assoc. reflexivity. }
        split.
        { cbn [sold_units SoldLot.units Num.val]. rewrite Hunits.
          q_bools. rewrite Qred_correct.
          destruct (Q.min_spec (r + - u) (stock_units rest)) as [[? ->] | [? ->]];
            destruct (Q.min_spec r (u + stock_units rest)) as [[? ->] | [? ->]];
            lra. }
        constructor.
        { split; [reflexivity |].
          split; [exists u; split; [reflexivity | exact Hpos] |].
          exists lot. split; [left; reflexivity | reflexivity]. }
        eapply Forall_impl; [| exact Hall].
        intros s [H1 [H2 [l [Hl Hc]]]]. split; [exact H1 |].
        split; [exact H2 |]. exists l. split; [right; exact Hl | exact Hc].
    + rewrite consume_recording_stop by exact Hzero.
      exists (lot :: rest), []. rewrite app_nil_r.
      split; [reflexivity |]. split; [| constructor].
      cbn [sold_units]. rewrite Q.min_l by lra. lra.
Qed.

End SaleRecord.

Lemma consume_recording_at {T : Type} (fuel : nat) (price : number)
  (r : number) (fifo fifo' : list (StockLot.t T)) (sold sold' : list SoldLot.t) :
  consume_recording fuel price r fifo sold = Some (fifo', sold') ->
  consume fuel r fifo = Some fifo'.
Proof.
  intros H. rewrite <- (consume_recording_fifo fuel price r fifo sold), H.
  reflexivity.
Qed.

(** A sale in the summary records the units it takes from the queue.  On a
    queue of lots that are not negative, the row of a sale leaves a record
    whose units add up to the quantity of the sale, or to all the units of
    the queue when they are fewer; each record carries the price of the
    sale row as sale price and the price of a lot of the queue as cost
    price; and the queue loses the units recorded, and at most [1e-6]
    more. *)
Theorem sale_records_the_units_it_takes
  (fifo : list EquityLot) (processed : list Processed.t) (txn : StockTxn.t) :
  is_stock_sale txn = true ->
  Forall sound_lot fifo ->
  exists fifo' soldLots,
    equity_step (Some (fifo, processed)) txn
    = Some (fifo',
            processed
            ++ [Processed.mk txn (toNumber (StockTxn.quantity txn))
                  (toNumber (StockTxn.buy_price txn)) "sell" "closed"
                  (Some soldLots)])
    /\ sold_units soldLots
       == Qmin (Qabs (Num.val (toNumber (StockTxn.quantity txn))))
            (stock_units fifo)
    /\ Forall (fun s => SoldLot.salePrice s = toNumber (StockTxn.buy_price txn)
                        /\ (exists u, SoldLot.units s = Fin u /\ 0 <= u)
                        /\ exists lot, In lot fifo
                                       /\ SoldLot.costPrice s
                                          = StockLot.price lot)
         soldLots
    /\ stock_units fifo - sold_units soldLots - dust <= stock_units fifo'
    /\ stock_units fifo' <= stock_units fifo - sold_units soldLots.
Proof.
  intros Hsale Hok. unfold is_stock_sale in Hsale.
  unfold equity_step. cbn [bind fst snd]. rewrite Hsale. cbn [negb].
  destruct (toNumber_Fin (StockTxn.quantity txn)) as [q Hq].
  rewrite Hq, abs_Fin. cbn [Num.val].
  unfold EquityLot in *.
  destruct (consume_recording_spec (toNumber (StockTxn.buy_price txn)) fifo
              (List.length fifo + 2) (Qabs q) [])
    as [fifo' [sold [Hrun [Hunits Hall]]]];
    [lia | apply Qabs_nonneg | exact Hok |].
  cbn [app] in Hrun. rewrite Hrun. cbn [bind fst snd].
  exists fifo', sold. split; [reflexivity |]. split; [exact Hunits |].
  split; [exact Hall |].
  apply consume_recording_at in Hrun.
  destruct (consume_spec fifo (List.length fifo + 2) (Qabs q))
    as [fifo2 [Hrun2 [_ [Hlo Hhi]]]];
    [lia | apply Qabs_nonneg | exact Hok |].
  rewrite Hrun in Hrun2. apply some_eq in Hrun2. subst fifo2.
  pose proof (stock_units_nonneg fifo Hok) as Hsum.
  pose proof (Qabs_nonneg q) as Habs.
  rewrite Hunits. revert Hlo Hhi.
  destruct (Q.max_spec 0 (stock_units fifo - Qabs q)) as [[? ->] | [? ->]];
    destruct (Q.min_spec (Qabs q) (stock_units fifo)) as [[? ->] | [? ->]];
    intros; split; lra.
Qed.

Lemma sale_records_the_units_it_takes_witness :
  exists fifo' soldLots,
    equity_step (Some (sample_queue, [])) sample_sale
    = Some (fifo',
            [Processed.mk sample_sale (toNumber (StockTxn.quantity sample_sale))
               (toNumber (StockTxn.buy_price sample_sale)) "sell" "closed"
               (Some soldLots)])
    /\ sold_units soldLots
       == Qmin (Qabs (Num.val (toNumber (StockTxn.quantity sample_sale))))
            (stock_units sample_queue).
Proof.
  destruct (sale_records_the_units_it_takes sample_queue [] sample_sale)
    as [fifo' [soldLots [Hrun [Hunits _]]]].
  - reflexivity.
  - repeat constructor. exists 10. split; [reflexivity | lra].
  - exists fifo', soldLots. split; [exact Hrun | exact Hunits].
Defined.

Lemma key_eqb_eq (a b : option string) : key_eqb a b = true -> a = b.
Proof.
  destruct a as [x |], b as [y |]; cbn [key_eqb]; try discriminate;
    [| reflexivity].
  intros H. apply String.eqb_eq in H. congruence.
Qed.

Lemma jsmap_get_entry {K V : Type} (eqb : K -> K -> bool) (key : K) (v : V)
  (m : JsMap.t K V) :
  JsMap.get eqb key m = Some v -> exists k, In (k, v) m /\ eqb k key = true.
Proof.
  induction m as [| [k w] m IH]; cbn [JsMap.get]; [discriminate |].
  destruct (eqb k key) eqn:E.
  - intros H. apply some_eq in H. subst w. exists k.
    split; [left; reflexivity | exact E].
  - intros H. destruct (IH H) as [k' [Hin Hk]]. exists k'.
    split; [right; exact Hin | exact Hk].
Qed.

(** The rows of a group are rows of the key of the group. *)
Lemma jsmap_grouped_members {A : Type} (key_of : A -> option string)
  (rows : list A) :
  Forall (fun g => forall x, In x (snd g) -> In x rows /\ key_of x = fst g)
    (JsMap.group_by key_eqb key_of rows).
Proof.
  unfold JsMap.group_by.
  assert (H : forall (l : list A) (m : JsMap.t (option string) (list A)),
             incl l rows ->
             Forall (fun g => forall x, In x (snd g) ->
                                In x rows /\ key_of x = fst g) m ->
             Forall (fun g => forall x, In x (snd g) ->
                                In x rows /\ key_of x = fst g)
               (fold_left
                  (fun groups x => JsMap.push key_eqb (key_of x) x groups)
                  l m)).
  { induction l as [| y l IH]; intros m Hincl Hm; cbn [fold_left]; [exact Hm |].
    apply IH; [intros z Hz; apply Hincl; right; exact Hz |].
    assert (Hy : In y rows) by (apply Hincl; left; reflexivity).
    unfold JsMap.push.
    destruct (JsMap.get key_eqb (key_of y) m) as [grp |] eqn:E.
    - apply jsmap_get_entry in E. destruct E as [k0 [Hin Hk0]].
      apply key_eqb_eq in Hk0. subst k0.
      pose proof (proj1 (Forall_forall _ _) Hm _ Hin) as Hgrp.
      cbn [fst snd] in Hgrp.
      assert (Hnew : forall x, In x (grp ++ [y]) ->
                       In x rows /\ key_of x = key_of y).
      { intros x Hx. apply in_app_or in Hx.
        destruct Hx as [Hx | [<- | []]]; auto. }
      apply jsmap_set_Forall; [exact Hm | exact Hnew |].
      intros k Hk. apply key_eqb_eq in Hk. subst k. exact Hnew.
    - assert (Hnew : forall x, In x [y] -> In x rows /\ key_of x = key_of y).
      { intros x [<- | []]. auto. }
      apply jsmap_set_Forall; [exact Hm | exact Hnew |].
      intros k Hk. apply key_eqb_eq in Hk. subst k. exact Hnew. }
  apply H; [apply incl_refl | constructor].
Qed.

Section ClosedPositions.

(** The rows of one stock. *)
Variable txns : list StockTxn.t.

(** The lot was opened by a purchase among the rows. *)
Definition from_purchase (price : number) : Prop :=
  exists purchase,
    In purchase txns /\ is_stock_sale purchase = false
    /\ price = toNumber (StockTxn.buy_price purchase).

(** The record of a sale row among the rows. *)
Definition sale_record (p : Processed.t) : Prop :=
  In (Processed.txn p) txns
  /\ (is_closed_sale p = true ->
      is_stock_sale (Processed.txn p) = true
      /\ exists soldLots,
           Processed.soldLots p = Some soldLots
           /\ Forall (fun s => SoldLot.salePrice s
                               = toNumber (StockTxn.buy_price (Processed.txn p))
                               /\ from_purchase (SoldLot.costPrice s))
                soldLots).

Lemma consume_recording_keeps {T : Type} (price : number) (fuel : nat) :
  forall (r : number) (fifo fifo' : list (StockLot.t T))
         (sold sold' : list SoldLot.t),
    Forall (fun lot => from_purchase (StockLot.price lot)) fifo ->
    Forall (fun s => SoldLot.salePrice s = price
                     /\ from_purchase (SoldLot.costPrice s)) sold ->
    consume_recording fuel price r fifo sold = Some (fifo', sold') ->
    Forall (fun lot => from_purchase (StockLot.price lot)) fifo'
    /\ Forall (fun s => SoldLot.salePrice s = price
                        /\ from_purchase (SoldLot.costPrice s)) sold'.
Proof.
  induction fuel as [| fuel IH]; intros r fifo fifo' sold sold' Hfifo Hsold Hrun;
    [discriminate |].
  cbn [consume_recording] in Hrun.
  destruct (r >? Fin 0)%js;
    [| injection Hrun as <- <-; split; assumption].
  destruct fifo as [| lot rest];
    [injection Hrun as <- <-; split; assumption |].
  cbn zeta in Hrun.
  pose proof (Forall_inv Hfifo) as Hlot.
  pose proof (Forall_inv_tail Hfifo) as Hrest.
  assert (Hsold1 :
            Forall (fun s => SoldLot.salePrice s = price
                             /\ from_purchase (SoldLot.costPrice s))
              (sold ++ [SoldLot.mk (Num.min r (StockLot.units lot))
                          (StockLot.price lot) price])).
  { apply Forall_app. split; [exact Hsold |].
    constructor; [| constructor]. split; [reflexivity | exact Hlot]. }
  destruct (_ <=? DUST)%js.
  - eapply IH; [exact Hrest | exact Hsold1 | exact Hrun].
  - eapply IH; [| exact Hsold1 | exact Hrun].
    constructor; [exact Hlot | exact Hrest].
Qed.

Lemma equity_fold_keeps (order : list StockTxn.t) :
  incl order txns ->
  forall (fifo fifo' : list EquityLot) (processed processed' : list Processed.t),
    Forall (fun lot => from_purchase (StockLot.price lot)) fifo ->
    Forall sale_record processed ->
    fold_left equity_step order (Some (fifo, processed))
    = Some (fifo', processed') ->
    Forall sale_record processed'.
Proof.
  induction order as [| txn order IH];
    intros Hincl fifo fifo' processed processed' Hfifo Hproc Hrun;
    cbn [fold_left] in Hrun.
  - injection Hrun as <- <-. exact Hproc.
  - assert (Htxn : In txn txns) by (apply Hincl; left; reflexivity).
    assert (Hincl' : incl order txns)
      by (intros z Hz; apply Hincl; right; exact Hz).
    unfold equity_step at 2 in Hrun. cbn [bind fst snd] in Hrun.
    destruct (JsDate.truthy (StockTxn.sell_date txn)) eqn:Hsale; cbn [negb] in Hrun.
    + destruct (consume_recording _ _ _ fifo []) as [[fifo1 sold1] |] eqn:Hsell.
      * cbn [bind fst snd] in Hrun.
        destruct (consume_recording_keeps _ _ _ _ _ _ _ Hfifo (Forall_nil _) Hsell)
          as [Hfifo1 Hsold1].
        eapply IH; [exact Hincl' | exact Hfifo1 | | exact Hrun].
        apply Forall_app. split; [exact Hproc |].
        constructor; [| constructor].
        split; [exact Htxn |]. intros _. cbn [Processed.txn Processed.soldLots].
        split; [exact Hsale |]. exists sold1. split; [reflexivity | exact Hsold1].
      * cbn [bind] in Hrun. exfalso. revert Hrun. clear.
        induction order as [| x l IHl]; [discriminate | exact IHl].
    + eapply IH; [exact Hincl' | | | exact Hrun].
      * apply Forall_app. split; [exact Hfifo |].
        constructor; [| constructor]. cbn [StockLot.price].
        exists txn. split; [exact Htxn |]. split; [exact Hsale | reflexivity].
      * apply Forall_app. split; [exact Hproc |].
        constructor; [| constructor].
        split; [exact Htxn |]. intros H. discriminate H.
Qed.

End ClosedPositions.

Lemma closed_of_sale_record (rows txns : list StockTxn.t)
  (name : option string) (p : Processed.t) (c : EquityClosed.t) :
  (forall x, In x txns -> In x rows /\ StockTxn.stock_name x = name) ->
  sale_record txns p -> is_closed_sale p = true ->
  In c (equity_closed name p) ->
  closed_from rows c.
Proof.
  intros Hgroup [Htxn Hrec] Hclosed Hc.
  destruct (Hrec Hclosed) as [Hsale [soldLots [Hsold Hall]]].
  unfold equity_closed in Hc. rewrite Hsold in Hc.
  apply in_map_iff in Hc. destruct Hc as [s [<- Hs]].
  rewrite Forall_forall in Hall.
  destruct (Hall s Hs) as [Hprice [purchase [Hin [Hbuy Hcost]]]].
  destruct (Hgroup _ Htxn) as [Hrow Hname].
  destruct (Hgroup _ Hin) as [Hrow' Hname'].
  exists (Processed.txn p), purchase.
  cbn [EquityClosed.stock_name EquityClosed.sell_price EquityClosed.buy_price
       EquityClosed.sell_date EquityClosed.buy_date EquityClosed.account_name
       EquityClosed.invested_amount EquityClosed.sale_amount
       EquityClosed.realized_gain EquityClosed.charges_allocated
       EquityClosed.quantity].
  repeat split; auto.
Qed.

Lemma equity_groups_closed (cmpMap : JsMap.t (option string) number)
  (rows : list StockTxn.t) (groups : list (option string * list StockTxn.t)) :
  Forall (fun g => forall x, In x (snd g) ->
                     In x rows /\ StockTxn.stock_name x = fst g) groups ->
  forall acts closed equity,
    Forall (closed_from rows) closed ->
    fold_left (equity_group_step cmpMap) groups (Some (acts, closed))
    = Some equity ->
    Forall (closed_from rows) (snd equity).
Proof.
  induction 1 as [| [name txns] groups Hg _ IH];
    intros acts closed equity Hclosed Hrun; cbn [fold_left] in Hrun.
  - apply some_eq in Hrun. subst equity. exact Hclosed.
  - cbn [fst snd] in Hg.
    unfold equity_group_step at 2 in Hrun. cbn [bind fst snd] in Hrun.
    destruct (fold_left equity_step (sort by_trade_date txns) (Some ([], [])))
      as [[fifo processed] |] eqn:Hfold.
    + cbn [bind fst snd] in Hrun.
      eapply IH; [| exact Hrun].
      apply Forall_app. split; [exact Hclosed |].
      apply Forall_forall. intros c Hc. apply in_flat_map in Hc.
      destruct Hc as [p [Hp Hc]]. apply filter_In in Hp.
      destruct Hp as [Hp Hclosed'].
      assert (Hrec : Forall (sale_record txns) processed).
      { apply (equity_fold_keeps txns (sort by_trade_date txns)) with
          (fifo := []) (fifo' := fifo) (processed := []).
        - intros x Hx. apply sort_In in Hx. exact Hx.
        - constructor.
        - constructor.
        - exact Hfold. }
      rewrite Forall_forall in Hrec.
      apply (closed_of_sale_record rows txns name p c Hg (Hrec p Hp) Hclosed' Hc).
    + cbn [bind] in Hrun. exfalso. revert Hrun. clear.
      induction groups as [| x l IHl]; [discriminate | exact IHl].
Qed.

(** Where the closed equity positions of the summary come from.  Every
    closed position is made of a sale row and a purchase row of its stock:
    its sale price is the [buy_price] of the sale row (the column
    [sell_price] is selected and never read), its cost price is the
    [buy_price] of the purchase row, its dates and its account are those of
    the sale row, and its amounts and its gain are its quantity at these
    prices. *)
Theorem summary_closed_positions_come_from_sales
  (stockTxns : option (list StockTxn.t))
  (stockMaster : option (list StockMaster.t))
  (mfTxns : option (list MfTxn.t)) (fundMaster : option (list FundMaster.t)) :
  exists r,
    getAnalysisSummary stockTxns stockMaster mfTxns fundMaster = Some r
    /\ Forall (closed_from (rows_or_empty stockTxns)) (Summary.equityClosed r).
Proof.
  unfold getAnalysisSummary. cbn zeta.
  destruct (equity_groups_return (stock_cmpMap stockMaster)
              (JsMap.group_by key_eqb StockTxn.stock_name
                 (rows_or_empty stockTxns)) ([], []))
    as [equity Hrun].
  rewrite Hrun. cbn [bind]. eexists. split; [reflexivity |].
  cbn [Summary.equityClosed].
  apply (equity_groups_closed (stock_cmpMap stockMaster)
           (rows_or_empty stockTxns) _
           (jsmap_grouped_members StockTxn.stock_name (rows_or_empty stockTxns))
           [] [] equity (Forall_nil _) Hrun).
Qed.

Example summary_sample_closed :
  option_map
    (fun r => map (fun c => (EquityClosed.quantity c, EquityClosed.buy_price c,
                             EquityClosed.sell_price c,
                             EquityClosed.realized_gain c))
                (Summary.equityClosed r))
    (getAnalysisSummary (Some sample_stock_rows) (Some sample_stock_master)
       None None)
  = Some [(Fin 4, Fin 100, Fin 120, Fin 80)].
Proof. vm_compute. reflexivity. Qed.

(* ================================================================== *)
(** * The authentication middleware *)
(* ================================================================== *)










(** A header that is absent, or does not start with "Bearer ", and a token
    that has not three parts, are answered 401. *)
Example authMiddleware_rejections :
  authMiddleware sample_decode None
  = Auth.Respond 401 "Missing or invalid authorization header"
      (Auth.mk None None None)
  /\ authMiddleware sample_decode (Some "bearer a.e30.c"%string)
     = Auth.Respond 401 "Missing or invalid authorization header"
         (Auth.mk None None None)
  /\ authMiddleware sample_decode (Some "Bearer a.e30"%string)
     = Auth.Respond 401 "Invalid token"
         (Auth.mk (Some "a.e30"%string) None None).
Proof. repeat split; vm_compute; reflexivity. Qed.
